(** * GBinding and GDBusAuthObserver: a shallow embedding

    This development embeds [gobject/gbinding.c] (property bindings between
    two GObject instances) and the decision point of
    [gio/gdbusauthobserver.c] and proves, or refutes on concrete inputs, the
    behaviour the design document attributes to them.

    The C code works on a graph of heap objects that point at each other
    (objects, bindings, doubly-linked list cells).  The embedding keeps that
    graph: every pointer is an address ([nat], [None] for [NULL]) into one of
    the finite maps of a [World], and every C function becomes a function in
    a small state monad over the [World]. *)

From Stdlib Require Import ZArith String List Bool Lia.
From stdpp Require Import gmap strings list.

Local Open Scope Z_scope.

(** ** Values and property descriptors *)

(** [GType] is a [gsize] type identifier. *)
Definition GType := Z.

(** A [GValue]: a type tag and a payload. *)
Record GValue := mkGValue { G_VALUE_TYPE : GType; g_value_data : Z }.

(** [g_value_init]: a zero-filled value of the given type. *)
Definition g_value_init (t : GType) : GValue := mkGValue t 0.

(** [GParamFlags], from [gparam.h]. *)
Definition G_PARAM_READABLE : Z := Z.shiftl 1 0.
Definition G_PARAM_WRITABLE : Z := Z.shiftl 1 1.
Definition G_PARAM_CONSTRUCT : Z := Z.shiftl 1 2.
Definition G_PARAM_CONSTRUCT_ONLY : Z := Z.shiftl 1 3.
Definition G_PARAM_LAX_VALIDATION : Z := Z.shiftl 1 4.
Definition G_PARAM_STATIC_NAME : Z := Z.shiftl 1 5.
Definition G_PARAM_READWRITE : Z := Z.lor G_PARAM_READABLE G_PARAM_WRITABLE.

(** [GBindingFlags]. *)
Definition G_BINDING_DEFAULT : Z := 0.
Definition G_BINDING_BIDIRECTIONAL : Z := Z.shiftl 1 0.

(** [g_binding_flags_get_type]: the table of values (value, name, nick)
    handed to [g_flags_register_static]. *)
Definition g_binding_flags_get_type : list (Z * string * string) :=
  [ (G_BINDING_DEFAULT, "G_BINDING_DEFAULT", "default");
    (G_BINDING_BIDIRECTIONAL, "G_BINDING_BIDIRECTIONAL", "bidirectional") ].

(** Modelled from the spec: the mask of a flags class, which
    [g_flags_register_static] of [genums.c] computes from the table: the
    union of the registered values. *)
Definition flags_class_mask (values : list (Z * string * string)) : Z :=
  fold_right (fun v mask => Z.lor (fst (fst v)) mask) 0 values.

(** The conversion of a [gulong] to a [guint]: the low 32 bits. *)
Definition guint (n : Z) : Z := n mod 2 ^ 32.
Arguments guint : simpl never.

(** The C test [flags & mask] used as a condition. *)
Definition has_flag (flags mask : Z) : bool := negb (Z.land flags mask =? 0).

Record GParamSpec := mkGParamSpec {
  pspec_name : string;
  pspec_flags : Z;
  pspec_value_type : GType
}.

Definition G_PARAM_SPEC_VALUE_TYPE (pspec : GParamSpec) : GType :=
  pspec_value_type pspec.

(** Interned strings are compared by pointer in the C code; two interned
    pointers are equal exactly when the strings are, so interning is the
    identity here and pointer comparison is [String.eqb]. *)
Definition g_intern_string (s : string) : string := s.
Definition g_intern_static_string (s : string) : string := s.

(** ** The collaborators of the type system

    [g_type_is_a], [g_value_type_compatible], [g_value_type_transformable],
    [g_value_transform] and [g_param_value_validate] live in [gtype.c],
    [gvalue.c] and [gparam.c]; the binding code is parametric in them. *)
Class GTypeSystem := {
  g_type_is_a : GType -> GType -> bool;
  g_value_type_compatible : GType -> GType -> bool;
  g_value_type_transformable : GType -> GType -> bool;
  (** [g_value_transform src dest]: [Some dest'] when the registered
      conversion succeeded, [None] when it returned [FALSE]. *)
  g_value_transform : GValue -> GValue -> option GValue;
  (** [g_param_value_validate pspec value]: the value forced into the
      constraints of [pspec]. *)
  g_param_value_validate : GParamSpec -> GValue -> GValue
}.

(** [g_value_copy src dest]: [dest] receives the contents of [src] and keeps
    its own type tag. *)
Definition g_value_copy (src_value dest_value : GValue) : GValue :=
  mkGValue (G_VALUE_TYPE dest_value) (g_value_data src_value).

(** ** The heap *)

Definition gpointer := Z.

(** A transformation function receives the binding, the value read, the
    initialised destination value and the user data; it returns the
    [gboolean] result together with the destination value it leaves. *)
Definition GBindingTransformFunc : Type :=
  nat -> GValue -> GValue -> gpointer -> bool * GValue.

(** A closure connected to the [notify] signal of an instance. *)
Inductive Closure :=
| OnSourceNotify (binding : nat)
| OnTargetNotify (binding : nat).

(** [struct _GBinding]; [ref_count] is the field of the parent instance.
    [source_notify] and [target_notify] are [guint] fields: they hold the
    handler ids, which are [gulong]s, cut to 32 bits. *)
Record GBinding := mkGBinding {
  ref_count : nat;
  source : option nat;
  target : option nat;
  source_property : string;
  target_property : string;
  source_pspec : option GParamSpec;
  target_pspec : option GParamSpec;
  transform_s2t : option GBindingTransformFunc;
  transform_t2s : option GBindingTransformFunc;
  flags : Z;
  source_notify : Z;
  target_notify : Z;
  transform_data : gpointer;
  notify : option nat;
  is_frozen : bool
}.

(** A [GObject] instance that can be an endpoint: the property
    descriptors of its class and the current property values. *)
Record GObject := mkGObject {
  g_class : list GParamSpec;
  g_properties : gmap string GValue
}.

(** A cell of a [GList]. *)
Record GList := mkGList {
  g_data : nat;
  g_next : option nat;
  g_prev : option nat
}.

(** What the outside can observe of a run. *)
Inductive Event :=
| EvSetProperty (object : nat) (property : string) (value : GValue)
| EvDestroyNotify (notify : nat) (data : gpointer)
| EvFinalize (binding : nat).

Record World := mkWorld {
  objects : gmap nat GObject;
  bindings : gmap nat GBinding;
  (** handlers connected to [notify], per instance, in connection order *)
  handlers : gmap nat (list (Z * Closure));
  (** [g_object_weak_ref (object, weak_unbind, data)] registrations *)
  weak_refs : gmap nat (list nat);
  (** [g_object_get_qdata (object, quark_gbinding)]; absent is [NULL] *)
  qdata : gmap nat nat;
  g_list_cells : gmap nat GList;
  next_addr : nat;
  handler_seq : positive;
  trace : list Event
}.

Definition empty_world : World :=
  mkWorld ∅ ∅ ∅ ∅ ∅ ∅ 1%nat 1%positive [].

(** ** The monad: state, undefined behaviour and fuel *)

Inductive result (A : Type) :=
| Ok (a : A) (w : World)
| Crash
| OutOfFuel.
Arguments Ok {A} a w.
Arguments Crash {A}.
Arguments OutOfFuel {A}.

Definition M (A : Type) : Type := World -> result A.

Definition ret {A} (a : A) : M A := fun w => Ok a w.

Definition bind {A B} (m : M A) (k : A -> M B) : M B :=
  fun w => match m w with
           | Ok a w' => k a w'
           | Crash => Crash
           | OutOfFuel => OutOfFuel
           end.

Definition crash {A} : M A := fun _ => Crash.
Definition out_of_fuel {A} : M A := fun _ => OutOfFuel.
Definition get_world : M World := fun w => Ok w w.
Definition modify (f : World -> World) : M unit := fun w => Ok tt (f w).

Notation "'let!' x ':=' m 'in' k" := (bind m (fun x => k))
  (at level 10, x name, m at level 100, k at level 200,
   format "'[v' 'let!'  x  ':='  m  'in' '/' k ']'").
Notation "m ;> k" := (bind m (fun _ => k))
  (at level 100, k at level 200, right associativity).

Definition when (c : bool) (m : M unit) : M unit := if c then m else ret tt.
Arguments when : simpl never.

(** Field updates on the [World]. *)
Definition set_objects (f : gmap nat GObject -> gmap nat GObject) (w : World) : World :=
  mkWorld (f (objects w)) (bindings w) (handlers w) (weak_refs w) (qdata w)
          (g_list_cells w) (next_addr w) (handler_seq w) (trace w).
Definition set_bindings (f : gmap nat GBinding -> gmap nat GBinding) (w : World) : World :=
  mkWorld (objects w) (f (bindings w)) (handlers w) (weak_refs w) (qdata w)
          (g_list_cells w) (next_addr w) (handler_seq w) (trace w).
Definition set_handlers
    (f : gmap nat (list (Z * Closure)) -> gmap nat (list (Z * Closure)))
    (w : World) : World :=
  mkWorld (objects w) (bindings w) (f (handlers w)) (weak_refs w) (qdata w)
          (g_list_cells w) (next_addr w) (handler_seq w) (trace w).
Definition set_weak_refs (f : gmap nat (list nat) -> gmap nat (list nat)) (w : World) : World :=
  mkWorld (objects w) (bindings w) (handlers w) (f (weak_refs w)) (qdata w)
          (g_list_cells w) (next_addr w) (handler_seq w) (trace w).
Definition set_qdata (f : gmap nat nat -> gmap nat nat) (w : World) : World :=
  mkWorld (objects w) (bindings w) (handlers w) (weak_refs w) (f (qdata w))
          (g_list_cells w) (next_addr w) (handler_seq w) (trace w).
Definition set_g_list_cells (f : gmap nat GList -> gmap nat GList) (w : World) : World :=
  mkWorld (objects w) (bindings w) (handlers w) (weak_refs w) (qdata w)
          (f (g_list_cells w)) (next_addr w) (handler_seq w) (trace w).
Definition set_next_addr (f : nat -> nat) (w : World) : World :=
  mkWorld (objects w) (bindings w) (handlers w) (weak_refs w) (qdata w)
          (g_list_cells w) (f (next_addr w)) (handler_seq w) (trace w).
Definition set_handler_seq (f : positive -> positive) (w : World) : World :=
  mkWorld (objects w) (bindings w) (handlers w) (weak_refs w) (qdata w)
          (g_list_cells w) (next_addr w) (f (handler_seq w)) (trace w).
Definition set_trace (f : list Event -> list Event) (w : World) : World :=
  mkWorld (objects w) (bindings w) (handlers w) (weak_refs w) (qdata w)
          (g_list_cells w) (next_addr w) (handler_seq w) (f (trace w)).

Definition log (e : Event) : M unit := modify (set_trace (fun t => t ++ [e])).

(** A fresh address; freed addresses are never handed out again. *)
Definition alloc : M nat :=
  fun w => Ok (next_addr w) (set_next_addr S w).

(** ** GList cells (glist.c) *)

(** Dereferencing a cell; a freed or wild pointer is undefined behaviour. *)
Definition load_cell (p : nat) : M GList :=
  fun w => match g_list_cells w !! p with
           | Some c => Ok c w
           | None => Crash
           end.

Definition store_cell (p : nat) (c : GList) : M unit :=
  modify (set_g_list_cells (insert p c)).

Definition free_cell (p : nat) : M unit :=
  modify (set_g_list_cells (delete p)).

(** Modelled from the spec: [g_list_prepend] of [glib/glist.c], which is not
    under the sources of the binding code.  A new cell holding [data] is
    linked in front of [list]; the new start of the list is the return value
    and the caller has to keep it. *)
Definition g_list_prepend (list : option nat) (data : nat) : M (option nat) :=
  let! new_list := alloc in
  match list with
  | Some l =>
      let! lc := load_cell l in
      store_cell new_list (mkGList data (Some l) (g_prev lc)) ;>
      match g_prev lc with
      | Some p =>
          let! pc := load_cell p in
          store_cell p (mkGList (g_data pc) (Some new_list) (g_prev pc))
      | None => ret tt
      end ;>
      let! lc := load_cell l in
      store_cell l (mkGList (g_data lc) (g_next lc) (Some new_list)) ;>
      ret (Some new_list)
  | None =>
      store_cell new_list (mkGList data None None) ;>
      ret (Some new_list)
  end.

(** The loop of [g_list_remove]: [tmp] walks the list that starts at [list]
    until a cell holding [data] is found; that cell is unlinked and freed. *)
Fixpoint g_list_remove_loop (fuel : nat) (list tmp : option nat) (data : nat)
  : M (option nat) :=
  match tmp with
  | None => ret list
  | Some t =>
      match fuel with
      | O => out_of_fuel
      | S fuel' =>
          let! tc := load_cell t in
          if negb (g_data tc =? data)%nat
          then g_list_remove_loop fuel' list (g_next tc) data
          else
            match g_prev tc with
            | Some p =>
                let! pc := load_cell p in
                store_cell p (mkGList (g_data pc) (g_next tc) (g_prev pc))
            | None => ret tt
            end ;>
            match g_next tc with
            | Some n =>
                let! nc := load_cell n in
                store_cell n (mkGList (g_data nc) (g_next nc) (g_prev tc))
            | None => ret tt
            end ;>
            let list' := if decide (list = Some t) then g_next tc else list in
            free_cell t ;>
            ret list'
      end
  end.

(** Modelled from the spec: [g_list_remove] of [glib/glist.c].  Removes the
    first cell holding [data] and returns the new start of the list.  An
    acyclic list has at most as many cells as the heap, which bounds the
    walk. *)
Definition g_list_remove (list : option nat) (data : nat) : M (option nat) :=
  let! w := get_world in
  g_list_remove_loop (S (size (g_list_cells w))) list list data.

(** The elements reachable from [list] through [next], as the walk of a
    reader of the list sees them; [None] when the walk leaves the heap. *)
Fixpoint g_list_elements (fuel : nat) (cells : gmap nat GList) (head : option nat)
  : option (list nat) :=
  match head with
  | None => Some []
  | Some l =>
      match fuel with
      | O => None
      | S fuel' =>
          match cells !! l with
          | None => None
          | Some c =>
              match g_list_elements fuel' cells (g_next c) with
              | Some tl => Some (g_data c :: tl)
              | None => None
              end
          end
      end
  end.

(** ** The GObject collaborators (gobject.c, gsignal.c)

    Only the calls the binding code makes are modelled, at the boundary the
    design document gives them: property access, change notification and the
    destruction hook.  [g_return_if_fail] on a [NULL] instance is a no-op; a
    pointer to a freed instance is undefined behaviour. *)

Definition G_IS_OBJECT (w : World) (object : option nat) : bool :=
  match object with
  | Some o => bool_decide (is_Some (objects w !! o))
  | None => false
  end.

Definition get_object (o : nat) : M GObject :=
  fun w => match objects w !! o with
           | Some obj => Ok obj w
           | None => Crash
           end.

Definition get_binding (b : nat) : M GBinding :=
  fun w => match bindings w !! b with
           | Some binding => Ok binding w
           | None => Crash
           end.

Definition put_binding (b : nat) (binding : GBinding) : M unit :=
  modify (set_bindings (insert b binding)).

(** Modelled from the spec: [g_object_class_find_property], lookup of a
    property descriptor by name in the descriptors of the class. *)
Definition g_object_class_find_property (class : list GParamSpec) (property_name : string)
  : option GParamSpec :=
  List.find (fun pspec => String.eqb (pspec_name pspec) property_name) class.

(** Modelled from the spec: [g_object_get_qdata (object, quark_gbinding)]. *)
Definition g_object_get_qdata (object : option nat) : M (option nat) :=
  match object with
  | None => ret None
  | Some o => get_object o ;> fun w => Ok (qdata w !! o) w
  end.

(** Modelled from the spec: [g_object_set_qdata (object, quark_gbinding, data)]. *)
Definition g_object_set_qdata (object : nat) (data : option nat) : M unit :=
  get_object object ;>
  match data with
  | Some p => modify (set_qdata (insert object p))
  | None => modify (set_qdata (delete object))
  end.

(** Modelled from the spec: [subscribe]; [g_signal_connect (instance,
    "notify", callback, data)] appends the closure to the handlers of the
    instance and returns the new, non-zero handler id. *)
Definition g_signal_connect (instance : nat) (c : Closure) : M Z :=
  get_object instance ;>
  fun w =>
    let id := Z.pos (handler_seq w) in
    Ok id (set_handler_seq Pos.succ
             (set_handlers (fun h => <[instance := (h !!! instance) ++ [(id, c)]]> h) w)).

(** Modelled from the spec: [unsubscribe]; [g_signal_handler_disconnect]. *)
Definition g_signal_handler_disconnect (instance : option nat) (handler_id : Z) : M unit :=
  match instance with
  | None => ret tt
  | Some o =>
      get_object o ;>
      modify (set_handlers (fun h =>
        <[o := List.filter (fun hc => negb (fst hc =? handler_id)) (h !!! o)]> h))
  end.

Arguments g_signal_handler_disconnect : simpl never.

(** Modelled from the spec: [onDestroy]; [g_object_weak_ref (object,
    weak_unbind, data)] adds one registration, also when an equal one is
    already there. *)
Definition g_object_weak_ref (object : nat) (data : nat) : M unit :=
  get_object object ;>
  modify (set_weak_refs (fun r => <[object := (r !!! object) ++ [data]]> r)).

Fixpoint remove_first (data : nat) (l : list nat) : list nat :=
  match l with
  | [] => []
  | x :: l' => if (x =? data)%nat then l' else x :: remove_first data l'
  end.

(** Modelled from the spec: [g_object_weak_unref (object, weak_unbind,
    data)] drops one matching registration. *)
Definition g_object_weak_unref (object : option nat) (data : nat) : M unit :=
  match object with
  | None => ret tt
  | Some o =>
      get_object o ;>
      modify (set_weak_refs (fun r => <[o := remove_first data (r !!! o)]> r))
  end.

(** Modelled from the spec: [get (object, propertyName)];
    [g_object_get_property] fills [value] with the current value of a
    readable property and leaves it as it is otherwise.  The value read is
    the value that was stored, type tag included: the store keeps what
    [set] hands it, and the conversion to the declared type of the property
    that [gobject.c] makes on the way in is not part of the model.  A value
    written with the declared type of its property is read back with that
    type, as in the C code. *)
Definition g_object_get_property (object : option nat) (property_name : string)
    (value : GValue) : M GValue :=
  match object with
  | None => ret value
  | Some o =>
      let! obj := get_object o in
      match g_object_class_find_property (g_class obj) property_name with
      | None => ret value
      | Some pspec =>
          if has_flag (pspec_flags pspec) G_PARAM_READABLE
          then ret (default value (g_properties obj !! pspec_name pspec))
          else ret value
      end
  end.

(** The class setter: the value is stored in the instance, as it is. *)
Definition store_property (o : nat) (pspec : GParamSpec) (value : GValue) : M unit :=
  let! obj := get_object o in
  modify (set_objects (insert o
    (mkGObject (g_class obj) (<[pspec_name pspec := value]> (g_properties obj))))) ;>
  log (EvSetProperty o (pspec_name pspec) value).

(** ** The registry of bindings of an object *)

Definition add_binding_qdata (gobject : nat) (binding : nat) : M unit :=
  let! bindings := g_object_get_qdata (Some gobject) in
  match bindings with
  | None =>
      let! bindings := g_list_prepend None binding in
      g_object_set_qdata gobject bindings
  | Some _ =>
      let! bindings := g_list_prepend bindings binding in
      ret tt
  end.

Definition remove_binding_qdata (gobject : option nat) (binding : nat) : M unit :=
  let! bindings := g_object_get_qdata gobject in
  let! bindings := g_list_remove bindings binding in
  ret tt.

(** The registry entry of an object as a reader of the qdata sees it: the
    bindings reachable from the stored pointer, [None] when the stored
    pointer leads outside the live cells. *)
Definition registry_entry (w : World) (object : nat) : option (list nat) :=
  g_list_elements (S (size (g_list_cells w))) (g_list_cells w) (qdata w !! object).

(** ** Field assignments on a [GBinding] *)

Definition with_ref_count (n : nat) (b : GBinding) : GBinding :=
  mkGBinding n (source b) (target b) (source_property b) (target_property b)
    (source_pspec b) (target_pspec b) (transform_s2t b) (transform_t2s b) (flags b)
    (source_notify b) (target_notify b) (transform_data b) (notify b) (is_frozen b).
Definition with_source (o : option nat) (b : GBinding) : GBinding :=
  mkGBinding (ref_count b) o (target b) (source_property b) (target_property b)
    (source_pspec b) (target_pspec b) (transform_s2t b) (transform_t2s b) (flags b)
    (source_notify b) (target_notify b) (transform_data b) (notify b) (is_frozen b).
Definition with_target (o : option nat) (b : GBinding) : GBinding :=
  mkGBinding (ref_count b) (source b) o (source_property b) (target_property b)
    (source_pspec b) (target_pspec b) (transform_s2t b) (transform_t2s b) (flags b)
    (source_notify b) (target_notify b) (transform_data b) (notify b) (is_frozen b).
Definition with_pspecs (sp tp : option GParamSpec) (b : GBinding) : GBinding :=
  mkGBinding (ref_count b) (source b) (target b) (source_property b) (target_property b)
    sp tp (transform_s2t b) (transform_t2s b) (flags b)
    (source_notify b) (target_notify b) (transform_data b) (notify b) (is_frozen b).
Definition with_transforms (s2t t2s : option GBindingTransformFunc) (data : gpointer)
    (n : option nat) (b : GBinding) : GBinding :=
  mkGBinding (ref_count b) (source b) (target b) (source_property b) (target_property b)
    (source_pspec b) (target_pspec b) s2t t2s (flags b)
    (source_notify b) (target_notify b) data n (is_frozen b).
Definition with_source_notify (id : Z) (b : GBinding) : GBinding :=
  mkGBinding (ref_count b) (source b) (target b) (source_property b) (target_property b)
    (source_pspec b) (target_pspec b) (transform_s2t b) (transform_t2s b) (flags b)
    id (target_notify b) (transform_data b) (notify b) (is_frozen b).
Definition with_target_notify (id : Z) (b : GBinding) : GBinding :=
  mkGBinding (ref_count b) (source b) (target b) (source_property b) (target_property b)
    (source_pspec b) (target_pspec b) (transform_s2t b) (transform_t2s b) (flags b)
    (source_notify b) id (transform_data b) (notify b) (is_frozen b).
Definition with_is_frozen (f : bool) (b : GBinding) : GBinding :=
  mkGBinding (ref_count b) (source b) (target b) (source_property b) (target_property b)
    (source_pspec b) (target_pspec b) (transform_s2t b) (transform_t2s b) (flags b)
    (source_notify b) (target_notify b) (transform_data b) (notify b) f.

(** [binding->field = ...]: a write through a pointer to a freed binding is
    undefined behaviour. *)
Definition assign (binding : nat) (f : GBinding -> GBinding) : M unit :=
  let! b := get_binding binding in
  put_binding binding (f b).

Section Binding.
Context `{GTypeSystem}.

(** ** Transformations *)

Definition default_transform (value_a value_b : GValue) : bool * GValue :=
  if negb (g_type_is_a (G_VALUE_TYPE value_a) (G_VALUE_TYPE value_b)) then
    if g_value_type_compatible (G_VALUE_TYPE value_a) (G_VALUE_TYPE value_b) then
      (true, g_value_copy value_a value_b)
    else if g_value_type_transformable (G_VALUE_TYPE value_a) (G_VALUE_TYPE value_b) then
      match g_value_transform value_a value_b with
      | Some value_b' => (true, value_b')
      | None => (false, value_b)
      end
    else (true, value_b)
  else (true, g_value_copy value_a value_b).

Definition default_transform_to : GBindingTransformFunc :=
  fun binding value_a value_b user_data => default_transform value_a value_b.

Definition default_transform_from : GBindingTransformFunc :=
  fun binding value_a value_b user_data => default_transform value_a value_b.

(** ** Propagation

    The two notification handlers call [g_object_set_property], which emits
    [notify] and so runs the handlers again: the handlers are written over
    the setter they call, and the setter ties the knot with fuel. *)

Section Handlers.
Variable g_object_set_property : option nat -> string -> GValue -> M unit.

Definition on_source_notify (gobject : nat) (pspec : GParamSpec) (binding : nat) : M unit :=
  let! b := get_binding binding in
  if is_frozen b then ret tt else
  let p_name :=
    if has_flag (pspec_flags pspec) G_PARAM_STATIC_NAME
    then g_intern_static_string (pspec_name pspec)
    else g_intern_string (pspec_name pspec) in
  if negb (String.eqb p_name (source_property b)) then ret tt else
  match source_pspec b, target_pspec b, transform_s2t b with
  | Some source_pspec, Some target_pspec, Some transform_s2t =>
      let source_value := g_value_init (G_PARAM_SPEC_VALUE_TYPE source_pspec) in
      let target_value := g_value_init (G_PARAM_SPEC_VALUE_TYPE target_pspec) in
      let! source_value :=
        g_object_get_property (source b) (pspec_name source_pspec) source_value in
      let (res, target_value) :=
        transform_s2t binding source_value target_value (transform_data b) in
      if res then
        assign binding (with_is_frozen true) ;>
        let target_value := g_param_value_validate target_pspec target_value in
        let! b := get_binding binding in
        g_object_set_property (target b) (pspec_name target_pspec) target_value ;>
        assign binding (with_is_frozen false)
      else ret tt
  | _, _, _ => crash
  end.

Definition on_target_notify (gobject : nat) (pspec : GParamSpec) (binding : nat) : M unit :=
  let! b := get_binding binding in
  if is_frozen b then ret tt else
  let p_name :=
    if has_flag (pspec_flags pspec) G_PARAM_STATIC_NAME
    then g_intern_static_string (pspec_name pspec)
    else g_intern_string (pspec_name pspec) in
  if negb (String.eqb p_name (target_property b)) then ret tt else
  match source_pspec b, target_pspec b, transform_t2s b with
  | Some source_pspec, Some target_pspec, Some transform_t2s =>
      let source_value := g_value_init (G_PARAM_SPEC_VALUE_TYPE target_pspec) in
      let target_value := g_value_init (G_PARAM_SPEC_VALUE_TYPE source_pspec) in
      let! source_value :=
        g_object_get_property (target b) (pspec_name target_pspec) source_value in
      let (res, target_value) :=
        transform_t2s binding source_value target_value (transform_data b) in
      if res then
        assign binding (with_is_frozen true) ;>
        let target_value := g_param_value_validate source_pspec target_value in
        let! b := get_binding binding in
        g_object_set_property (source b) (pspec_name source_pspec) target_value ;>
        assign binding (with_is_frozen false)
      else ret tt
  | _, _, _ => crash
  end.

(** Modelled from the spec: the call of a connected closure by [gsignal.c],
    with the instance and the descriptor as the arguments of [notify]. *)
Definition invoke (gobject : nat) (pspec : GParamSpec) (c : Closure) : M unit :=
  match c with
  | OnSourceNotify binding => on_source_notify gobject pspec binding
  | OnTargetNotify binding => on_target_notify gobject pspec binding
  end.

(** Modelled from the spec: the events after which [notify] is emitted for
    that property of that object.  Every emission follows a store, and the
    trace records the stores. *)
Definition renotifies (gobject : nat) (pspec : GParamSpec) (e : Event) : bool :=
  match e with
  | EvSetProperty o name _ => (o =? gobject)%nat && String.eqb name (pspec_name pspec)
  | _ => false
  end.

(** Modelled from the spec: whether [notify] was asked for again, for the
    same property of the same object, between two worlds of a run; the
    [EMISSION_RESTART] state of [gsignal.c]. *)
Definition notified_again (gobject : nat) (pspec : GParamSpec) (before after : World)
  : bool :=
  existsb (renotifies gobject pspec) (skipn (length (trace before)) (trace after)).

(** Modelled from the spec: one pass of [gsignal.c] over the handlers, in
    connection order.  The pass ends early, with [true], after a handler
    during whose run [notify] was asked for again for this property of this
    object. *)
Fixpoint g_signal_emit_handlers (gobject : nat) (pspec : GParamSpec)
    (hs : list (Z * Closure)) : M bool :=
  match hs with
  | [] => ret false
  | (_, c) :: hs' =>
      let! before := get_world in
      invoke gobject pspec c ;>
      let! after := get_world in
      if notified_again gobject pspec before after
      then ret true
      else g_signal_emit_handlers gobject pspec hs'
  end.

(** Modelled from the spec: the emission of [notify] with the name of the
    property as detail, by [gsignal.c].  The connected closures run
    synchronously, in connection order.  [notify] is a
    [G_SIGNAL_NO_RECURSE] signal: an emission asked for while one for the
    same object and detail is in progress does not run the handlers a second
    time from within; it makes the emission in progress start over with the
    first handler once the handler that is running has returned.  The
    number of times an emission starts over is not bounded by the C code;
    here it is counted against [restarts]. *)
Fixpoint g_signal_emit_notify (restarts : nat) (gobject : nat) (pspec : GParamSpec)
  : M unit :=
  let! w := get_world in
  let! restart := g_signal_emit_handlers gobject pspec (handlers w !!! gobject) in
  if restart
  then match restarts with
       | O => out_of_fuel
       | S restarts' => g_signal_emit_notify restarts' gobject pspec
       end
  else ret tt.

End Handlers.

(** Modelled from the spec: [emission_find] of [gsignal.c] on the emissions
    of [notify] that are in progress, each given by its instance and its
    detail. *)
Definition emission_find (g_restart_emissions : list (nat * string))
    (instance : nat) (detail : string) : bool :=
  existsb (fun e => (fst e =? instance)%nat && String.eqb (snd e) detail)
    g_restart_emissions.

(** Modelled from the spec: [set (object, propertyName, value)];
    [g_object_set_property] stores the value of a writable property that is
    not construct-only and then fires the change notification of that
    property to the current subscribers, synchronously.  When an emission
    for that property of that object is in progress already, the store is
    all that happens here and that emission starts over (see
    [g_signal_emit_notify]).  [g_restart_emissions] lists the emissions in
    progress around the call. *)
Fixpoint g_object_set_property_in (fuel : nat) (g_restart_emissions : list (nat * string))
    (object : option nat) (property_name : string) (value : GValue) : M unit :=
  match fuel with
  | O => out_of_fuel
  | S fuel' =>
      match object with
      | None => ret tt
      | Some o =>
          let! obj := get_object o in
          match g_object_class_find_property (g_class obj) property_name with
          | None => ret tt
          | Some pspec =>
              if has_flag (pspec_flags pspec) G_PARAM_WRITABLE
                 && negb (has_flag (pspec_flags pspec) G_PARAM_CONSTRUCT_ONLY)
              then
                store_property o pspec value ;>
                if emission_find g_restart_emissions o (pspec_name pspec)
                then ret tt
                else
                  g_signal_emit_notify
                    (g_object_set_property_in fuel'
                       ((o, pspec_name pspec) :: g_restart_emissions))
                    fuel' o pspec
              else ret tt
          end
      end
  end.

(** Modelled from the spec: [g_object_set_property] called from outside
    every emission. *)
Definition g_object_set_property (fuel : nat) (object : option nat)
    (property_name : string) (value : GValue) : M unit :=
  g_object_set_property_in fuel [] object property_name value.

(** ** Construction *)

(** [g_assert]: a failed assertion aborts. *)
Definition g_assert (c : bool) : M unit := if c then ret tt else crash.

Definition g_binding_constructed (gobject : nat) : M unit :=
  let! binding := get_binding gobject in
  match source binding, target binding with
  | Some src, Some tgt =>
      let! src_obj := get_object src in
      let! tgt_obj := get_object tgt in
      let source_pspec :=
        g_object_class_find_property (g_class src_obj) (source_property binding) in
      let target_pspec :=
        g_object_class_find_property (g_class tgt_obj) (target_property binding) in
      g_assert (bool_decide (is_Some source_pspec)) ;>
      g_assert (bool_decide (is_Some target_pspec)) ;>
      assign gobject (with_pspecs source_pspec target_pspec) ;>
      assign gobject
        (with_transforms (Some default_transform_to) (Some default_transform_from) 0 None) ;>
      let! id := g_signal_connect src (OnSourceNotify gobject) in
      assign gobject (with_source_notify (guint id)) ;>
      g_object_weak_ref src gobject ;>
      add_binding_qdata src gobject ;>
      (if has_flag (flags binding) G_BINDING_BIDIRECTIONAL
       then
         let! id := g_signal_connect tgt (OnTargetNotify gobject) in
         assign gobject (with_target_notify (guint id))
       else ret tt) ;>
      g_object_weak_ref tgt gobject ;>
      add_binding_qdata tgt gobject
  | _, _ => crash
  end.

(** Modelled from the spec: what [g_object_new] of [gobject.c] does with
    the value given for the construct property [flags].  The value is
    validated against the descriptor of the property, whose class has the
    mask of the registered values, and a value that validation would change
    is not handed to [g_binding_set_property] at all: a word with a bit
    outside the mask leaves the field at the zero of the fresh instance. *)
Definition g_object_new_flags (flags : Z) : Z :=
  if Z.land flags (Z.lnot (flags_class_mask g_binding_flags_get_type)) =? 0
  then flags
  else 0.
Arguments g_object_new_flags : simpl never.

(** Modelled from the spec: [g_object_new (G_TYPE_BINDING, "source", ...,
    "flags", flags, NULL)] of [gobject.c]: a zero-filled instance with one
    reference, the construct properties set by [g_binding_set_property],
    then [g_binding_constructed]. *)
Definition g_object_new_binding (source : nat) (source_property : string)
    (target : nat) (target_property : string) (flags : Z) : M nat :=
  let! binding := alloc in
  put_binding binding
    (mkGBinding 1 (Some source) (Some target)
       (g_intern_string source_property) (g_intern_string target_property)
       None None None None (g_object_new_flags flags) 0 0 0 None false) ;>
  g_binding_constructed binding ;>
  ret binding.

(** The diagnostics with which [g_object_bind_property_full] gives up. *)
Inductive BindWarning :=
| PreconditionFailed
| SameProperty
| NoSourceProperty
| SourceNotReadable
| SourceNotWritable
| NoTargetProperty
| TargetNotWritable
| TargetNotReadable.

(** The property names are [string]s, so the two [!= NULL] preconditions on
    them hold by typing; [NULL] for a transformation function or for
    [notify] is [None]. *)
Definition g_object_bind_property_full (source : option nat) (source_property : string)
    (target : option nat) (target_property : string) (flags : Z)
    (transform_to transform_from : option GBindingTransformFunc)
    (user_data : gpointer) (notify : option nat) : M (BindWarning + nat) :=
  let! w := get_world in
  match source, target with
  | Some src, Some tgt =>
      if negb (G_IS_OBJECT w source && G_IS_OBJECT w target) then ret (inl PreconditionFailed)
      else
      if bool_decide (source = target) && String.eqb source_property target_property
      then ret (inl SameProperty) else
      let transform_to := default default_transform_to transform_to in
      let transform_from := default default_transform_from transform_from in
      let! src_obj := get_object src in
      match g_object_class_find_property (g_class src_obj) source_property with
      | None => ret (inl NoSourceProperty)
      | Some pspec =>
          if negb (has_flag (pspec_flags pspec) G_PARAM_READABLE)
          then ret (inl SourceNotReadable) else
          if has_flag flags G_BINDING_BIDIRECTIONAL
             && (has_flag (pspec_flags pspec) G_PARAM_CONSTRUCT_ONLY
                 || negb (has_flag (pspec_flags pspec) G_PARAM_WRITABLE))
          then ret (inl SourceNotWritable) else
          let! tgt_obj := get_object tgt in
          match g_object_class_find_property (g_class tgt_obj) target_property with
          | None => ret (inl NoTargetProperty)
          | Some pspec =>
              if has_flag (pspec_flags pspec) G_PARAM_CONSTRUCT_ONLY
                 || negb (has_flag (pspec_flags pspec) G_PARAM_WRITABLE)
              then ret (inl TargetNotWritable) else
              if has_flag flags G_BINDING_BIDIRECTIONAL
                 && negb (has_flag (pspec_flags pspec) G_PARAM_READABLE)
              then ret (inl TargetNotReadable) else
              let! binding :=
                g_object_new_binding src source_property tgt target_property flags in
              assign binding
                (with_transforms (Some transform_to) (Some transform_from)
                   user_data notify) ;>
              ret (inr binding)
          end
      end
  | _, _ => ret (inl PreconditionFailed)
  end.

Definition g_object_bind_property (source : option nat) (source_property : string)
    (target : option nat) (target_property : string) (flags : Z)
  : M (BindWarning + nat) :=
  g_object_bind_property_full source source_property target target_property flags
    None None 0 None.

(** ** Teardown *)

Definition g_binding_finalize (gobject : nat) : M unit :=
  let! binding := get_binding gobject in
  match notify binding with
  | Some notify =>
      log (EvDestroyNotify notify (transform_data binding)) ;>
      assign gobject (with_transforms (transform_s2t binding) (transform_t2s binding) 0 None)
  | None => ret tt
  end ;>
  let! binding := get_binding gobject in
  match source binding with
  | Some _ =>
      when (negb (source_notify binding =? 0))
        (g_signal_handler_disconnect (source binding) (source_notify binding)) ;>
      g_object_weak_unref (source binding) gobject ;>
      remove_binding_qdata (source binding) gobject
  | None => ret tt
  end ;>
  let! binding := get_binding gobject in
  match target binding with
  | Some _ =>
      when (negb (target_notify binding =? 0))
        (g_signal_handler_disconnect (target binding) (target_notify binding)) ;>
      g_object_weak_unref (target binding) gobject ;>
      remove_binding_qdata (target binding) gobject
  | None => ret tt
  end.

(** [g_object_ref] and [g_object_unref] on a binding; the last reference
    finalizes the binding and frees its storage. *)
Definition g_object_ref (binding : nat) : M unit :=
  assign binding (fun b => with_ref_count (S (ref_count b)) b).

Definition g_object_unref (binding : nat) : M unit :=
  let! b := get_binding binding in
  if (ref_count b =? 1)%nat
  then
    g_binding_finalize binding ;>
    log (EvFinalize binding) ;>
    modify (set_bindings (delete binding))
  else assign binding (with_ref_count (Nat.pred (ref_count b))).

Definition weak_unbind (user_data : nat) (where_the_object_was : nat) : M unit :=
  let binding := user_data in
  let! b := get_binding binding in
  (if bool_decide (source b = Some where_the_object_was)
   then assign binding (with_source None)
   else
     when (negb (source_notify b =? 0))
       (g_signal_handler_disconnect (source b) (source_notify b)) ;>
     g_object_weak_unref (source b) user_data ;>
     remove_binding_qdata (source b) binding ;>
     assign binding (with_source None)) ;>
  let! b := get_binding binding in
  (if bool_decide (target b = Some where_the_object_was)
   then assign binding (with_target None)
   else
     when (negb (target_notify b =? 0))
       (g_signal_handler_disconnect (target b) (target_notify b)) ;>
     g_object_weak_unref (target b) user_data ;>
     remove_binding_qdata (target b) binding ;>
     assign binding (with_target None)) ;>
  g_object_unref binding.

Fixpoint weak_refs_notify (object : nat) (refs : list nat) : M unit :=
  match refs with
  | [] => ret tt
  | data :: refs' => weak_unbind data object ;> weak_refs_notify object refs'
  end.

(** Modelled from the spec: the destruction of an endpoint.  Its handlers
    are dropped, every destruction hook registered on it runs once, in
    registration order, and then its storage is reclaimed. *)
Definition g_object_destroy (object : nat) : M unit :=
  get_object object ;>
  let! w := get_world in
  modify (set_handlers (delete object)) ;>
  modify (set_weak_refs (delete object)) ;>
  weak_refs_notify object (weak_refs w !!! object) ;>
  modify (set_qdata (delete object)) ;>
  modify (set_objects (delete object)).

(** ** Accessors

    [g_return_val_if_fail (G_IS_BINDING (binding), ...)] on a pointer to a
    freed binding is undefined behaviour. *)
Definition g_binding_get_flags (binding : nat) : M Z :=
  let! b := get_binding binding in ret (flags b).
Definition g_binding_get_source (binding : nat) : M (option nat) :=
  let! b := get_binding binding in ret (source b).
Definition g_binding_get_target (binding : nat) : M (option nat) :=
  let! b := get_binding binding in ret (target b).
Definition g_binding_get_source_property (binding : nat) : M string :=
  let! b := get_binding binding in ret (source_property b).
Definition g_binding_get_target_property (binding : nat) : M string :=
  let! b := get_binding binding in ret (target_property b).

End Binding.

(** ** A concrete type system and concrete objects

    Fundamental type ids as [G_TYPE_MAKE_FUNDAMENTAL] numbers them; integers
    and booleans convert into each other and into strings, nothing converts
    from a string to a number. *)
Module Sample.

Definition G_TYPE_BOOLEAN : GType := Z.shiftl 5 2.
Definition G_TYPE_INT : GType := Z.shiftl 6 2.
Definition G_TYPE_STRING : GType := Z.shiftl 16 2.

Definition is_number (t : GType) : bool := (t =? G_TYPE_BOOLEAN) || (t =? G_TYPE_INT).

#[export] Instance types : GTypeSystem := {|
  g_type_is_a a b := a =? b;
  g_value_type_compatible a b := a =? b;
  g_value_type_transformable a b :=
    (a =? b) || (is_number a && (is_number b || (b =? G_TYPE_STRING)));
  g_value_transform a b := Some (g_value_copy a b);
  g_param_value_validate pspec value := value
|}.

Definition int_value (n : Z) : GValue := mkGValue G_TYPE_INT n.

(** A class with three integer properties and a string property, all
    readable and writable. *)
Definition klass : list GParamSpec :=
  [ mkGParamSpec "x" G_PARAM_READWRITE G_TYPE_INT;
    mkGParamSpec "y" G_PARAM_READWRITE G_TYPE_INT;
    mkGParamSpec "z" G_PARAM_READWRITE G_TYPE_INT;
    mkGParamSpec "label" G_PARAM_READWRITE G_TYPE_STRING ].

(** The descriptors of [x] and [y], and an instance that has no value
    stored yet. *)
Definition px : GParamSpec := mkGParamSpec "x" G_PARAM_READWRITE G_TYPE_INT.
Definition py : GParamSpec := mkGParamSpec "y" G_PARAM_READWRITE G_TYPE_INT.
Definition fresh : GObject := mkGObject klass ∅.

(** [g_object_new] for an endpoint of that class. *)
Definition new_object : M nat :=
  let! o := alloc in
  modify (set_objects (insert o (mkGObject klass ∅))) ;>
  ret o.

(** Three endpoints at the addresses 1, 2 and 3. *)
Definition three_objects : M unit :=
  new_object ;> new_object ;> new_object ;> ret tt.

Definition world3 : World :=
  match three_objects empty_world with
  | Ok _ w => w
  | _ => empty_world
  end.

(** A custom transformation: the payload plus one. *)
Definition plus_one : GBindingTransformFunc :=
  fun binding value_a value_b user_data =>
    (true, mkGValue (G_VALUE_TYPE value_b) (g_value_data value_a + 1)).

(** A custom transformation that declines odd payloads. *)
Definition even_only : GBindingTransformFunc :=
  fun binding value_a value_b user_data =>
    (Z.even (g_value_data value_a), g_value_copy value_a value_b).

(** Scenarios on the three endpoints.  The first binding made in [world3]
    lives at address 4, the second one at address 7. *)
Section Scenarios.
Context `{GTypeSystem}.

(** Two bindings that share their source object. *)
Definition two_bindings_one_source : M (BindWarning + nat) :=
  g_object_bind_property (Some 1%nat) "x" (Some 2%nat) "y" G_BINDING_DEFAULT ;>
  g_object_bind_property (Some 1%nat) "x" (Some 3%nat) "z" G_BINDING_DEFAULT.

(** A bidirectional binding with user data 42 and release callback 9, then
    the destruction of its source. *)
Definition bind_then_destroy_source : M unit :=
  g_object_bind_property_full (Some 1%nat) "x" (Some 2%nat) "y" G_BINDING_BIDIRECTIONAL
    None None 42 (Some 9%nat) ;>
  g_object_destroy 1.

(** The same binding, released by its creator ([g_object_unref]). *)
Definition bind_then_unbind : M unit :=
  g_object_bind_property_full (Some 1%nat) "x" (Some 2%nat) "y" G_BINDING_BIDIRECTIONAL
    None None 42 (Some 9%nat) ;>
  g_object_unref 4.

(** A binding between two properties of one object, a reference taken by
    the caller, then the destruction of the object. *)
Definition bind_same_object_then_destroy : M unit :=
  g_object_bind_property (Some 1%nat) "x" (Some 1%nat) "y" G_BINDING_DEFAULT ;>
  g_object_ref 4 ;>
  g_object_destroy 1.

(** The same with two distinct endpoints, the target being destroyed. *)
Definition bind_then_destroy_target : M unit :=
  g_object_bind_property (Some 1%nat) "x" (Some 2%nat) "y" G_BINDING_DEFAULT ;>
  g_object_ref 4 ;>
  g_object_destroy 2.

(** The world a computation leaves. *)
Definition world_after {A} (m : M A) (w : World) : World :=
  match m w with
  | Ok _ w' => w'
  | _ => w
  end.

(** [world3] with one binding between [1.x] and [2.y]: bidirectional with
    the default transformations; one-way with [even_only]; one-way with
    [plus_one]. *)
Definition bound_both_ways : World :=
  world_after
    (g_object_bind_property (Some 1%nat) "x" (Some 2%nat) "y" G_BINDING_BIDIRECTIONAL)
    world3.

Definition bound_even_only : World :=
  world_after
    (g_object_bind_property_full (Some 1%nat) "x" (Some 2%nat) "y" G_BINDING_DEFAULT
       (Some even_only) None 0 None)
    world3.

Definition bound_plus_one : World :=
  world_after
    (g_object_bind_property_full (Some 1%nat) "x" (Some 2%nat) "y" G_BINDING_DEFAULT
       (Some plus_one) None 0 None)
    world3.

(** A binding from the string property to an integer property with the
    default transformation, then the string set. *)
Definition string_into_int : M unit :=
  g_object_bind_property (Some 1%nat) "label" (Some 2%nat) "y" G_BINDING_DEFAULT ;>
  g_object_set_property 2 (Some 2%nat) "y" (int_value 3) ;>
  g_object_set_property 2 (Some 1%nat) "label" (mkGValue G_TYPE_STRING 7).

(** The binding of [bind_then_unbind], released by its creator; then a
    binding between the same two properties is asked for again. *)
Definition bind_unbind_bind : M (BindWarning + nat) :=
  bind_then_unbind ;>
  g_object_bind_property (Some 1%nat) "x" (Some 2%nat) "y" G_BINDING_DEFAULT.



End Scenarios.

End Sample.

(** ** The authorization decision point (gdbusauthobserver.c) *)
Module AuthObserver.

Definition GIOStream := nat.
Definition GCredentials := option nat.

(** A handler connected to [authorize-authenticated-peer]. *)
Definition Handler : Type := GIOStream -> GCredentials -> bool.

(** An observer: the handlers connected with [g_signal_connect] and with
    [g_signal_connect_after], each in connection order. *)
Record GDBusAuthObserver := mkObserver {
  connected : list Handler;
  connected_after : list Handler
}.

Definition g_dbus_auth_observer_authorize_authenticated_peer_real
    (observer : GDBusAuthObserver) (stream : GIOStream) (credentials : GCredentials)
  : bool := true.

(** Modelled from the spec: [_g_signal_accumulator_false_handled] of
    [gio/gdbusprivate.c]: the value a handler returns becomes the accumulated
    result, and the emission goes on only after a [TRUE]. *)
Definition _g_signal_accumulator_false_handled (return_accu handler_return : bool)
  : bool * bool :=
  let signal_return := handler_return in
  let continue_emission := signal_return in
  (continue_emission, signal_return).

(** Modelled from the spec: [g_signal_emit] for a signal with a return
    value and an accumulator.  The closures run in order; the accumulator
    folds each return value into the result and may stop the emission. *)
Fixpoint g_signal_emit (closures : list Handler) (stream : GIOStream)
    (credentials : GCredentials) (return_value : bool) : bool :=
  match closures with
  | [] => return_value
  | h :: closures' =>
      let (continue_emission, accu) :=
        _g_signal_accumulator_false_handled return_value (h stream credentials) in
      if continue_emission
      then g_signal_emit closures' stream credentials accu
      else accu
  end.

(** The signal is [G_SIGNAL_RUN_LAST]: the class handler installed by
    [g_dbus_auth_observer_class_init] runs after the connected handlers and
    before the ones connected with [g_signal_connect_after]. *)
Definition closures_of (observer : GDBusAuthObserver) : list Handler :=
  connected observer
  ++ [g_dbus_auth_observer_authorize_authenticated_peer_real observer]
  ++ connected_after observer.

Definition g_dbus_auth_observer_authorize_authenticated_peer
    (observer : GDBusAuthObserver) (stream : GIOStream) (credentials : GCredentials)
  : bool :=
  let denied := false in
  g_signal_emit (closures_of observer) stream credentials denied.

(** A handler that only lets the peer with credentials [Some 0] in. *)
Definition same_user_only : Handler :=
  fun stream credentials =>
    match credentials with
    | Some uid => (uid =? 0)%nat
    | None => false
    end.

End AuthObserver.


(** ** Vocabulary of the statements *)

(** The same world with another registry (qdata, list cells, allocator). *)
Definition with_registry (q : gmap nat nat) (c : gmap nat GList) (n : nat) (w : World)
  : World :=
  mkWorld (objects w) (bindings w) (handlers w) (weak_refs w) q c n
          (handler_seq w) (trace w).

(** The [prev] field of every live cell leads to a live cell. *)
Definition cells_closed (cells : gmap nat GList) : Prop :=
  forall p c pp, cells !! p = Some c -> g_prev c = Some pp -> is_Some (cells !! pp).

(** No registry pointer dangles: the qdata of every object and the [prev]
    field of every cell lead to live cells.  [g_list_prepend] reads exactly
    these. *)
Definition registry_ok (q : gmap nat nat) (cells : gmap nat GList) : Prop :=
  (forall o p, q !! o = Some p -> is_Some (cells !! p)) /\ cells_closed cells.

Definition registry_wf (w : World) : Prop :=
  registry_ok (qdata w) (g_list_cells w).

(** The validation preconditions of a binding request, in the words of the
    design document: both properties exist, the two ends differ, the source
    is readable, the target is writable and not construct-only, and a
    bidirectional binding needs the same the other way round. *)
Definition writable_now (pspec : GParamSpec) : bool :=
  has_flag (pspec_flags pspec) G_PARAM_WRITABLE
  && negb (has_flag (pspec_flags pspec) G_PARAM_CONSTRUCT_ONLY).

Definition readable (pspec : GParamSpec) : bool :=
  has_flag (pspec_flags pspec) G_PARAM_READABLE.

Definition bind_preconditions (src_obj tgt_obj : GObject) (src : nat)
    (source_property : string) (tgt : nat) (target_property : string) (flags : Z)
  : bool :=
  match g_object_class_find_property (g_class src_obj) source_property,
        g_object_class_find_property (g_class tgt_obj) target_property with
  | Some sp, Some tp =>
      negb (bool_decide (src = tgt) && String.eqb source_property target_property)
      && readable sp
      && writable_now tp
      && (negb (has_flag flags G_BINDING_BIDIRECTIONAL)
          || (writable_now sp && readable tp))
  | _, _ => false
  end.

(** The direct effect of a successful property write on the world: the
    value is stored and the write is recorded. *)
Definition poke (o : nat) (property_name : string) (value : GValue) (w : World) : World :=
  match objects w !! o with
  | Some obj =>
      set_trace (fun t => t ++ [EvSetProperty o property_name value])
        (set_objects (insert o
           (mkGObject (g_class obj) (<[property_name := value]> (g_properties obj)))) w)
  | None => w
  end.

(** The current value of a property, read directly from the instance. *)
Definition peek (w : World) (o : nat) (property_name : string) : option GValue :=
  match objects w !! o with
  | Some obj => g_properties obj !! property_name
  | None => None
  end.

(** The binding record and the world a successful binding request leaves,
    up to the registry.  [b] is the address of the new binding, [pa] and
    [pb] the descriptors of the two properties. *)
Section BoundWorld.
Context `{GTypeSystem}.

(** The direction of the binding that a flags word gives: bidirectional
    when the word, as the new binding holds it, has the bit. *)
Definition bidirectional (flags : Z) : bool :=
  has_flag (g_object_new_flags flags) G_BINDING_BIDIRECTIONAL.

Definition bound_binding (w : World) (src tgt : nat) (pa pb : GParamSpec)
    (source_property target_property : string) (flags : Z)
    (transform_to transform_from : option GBindingTransformFunc)
    (user_data : gpointer) (notify : option nat) : GBinding :=
  mkGBinding 1 (Some src) (Some tgt) source_property target_property
    (Some pa) (Some pb)
    (Some (default default_transform_to transform_to))
    (Some (default default_transform_from transform_from))
    (g_object_new_flags flags)
    (guint (Z.pos (handler_seq w)))
    (if bidirectional flags then guint (Z.pos (Pos.succ (handler_seq w))) else 0)
    user_data notify false.

Definition bound_handlers (w : World) (src tgt : nat) (flags : Z)
  : gmap nat (list (Z * Closure)) :=
  let b := next_addr w in
  let h1 := <[src := (handlers w !!! src) ++ [(Z.pos (handler_seq w), OnSourceNotify b)]]>
              (handlers w) in
  if bidirectional flags
  then <[tgt := (h1 !!! tgt) ++ [(Z.pos (Pos.succ (handler_seq w)), OnTargetNotify b)]]> h1
  else h1.

Definition bound_weak_refs (w : World) (src tgt : nat) : gmap nat (list nat) :=
  let b := next_addr w in
  let r1 := <[src := (weak_refs w !!! src) ++ [b]]> (weak_refs w) in
  <[tgt := (r1 !!! tgt) ++ [b]]> r1.

Definition bound_world (w : World) (src tgt : nat) (binding : GBinding) (flags : Z)
  : World :=
  mkWorld (objects w) (<[next_addr w := binding]> (bindings w))
    (bound_handlers w src tgt flags) (bound_weak_refs w src tgt)
    (qdata w) (g_list_cells w) (next_addr w)
    (if bidirectional flags then Pos.succ (Pos.succ (handler_seq w))
     else Pos.succ (handler_seq w))
    (trace w).

End BoundWorld.

(** The registry after a binding was made between two objects that had no
    registry entry yet: [add_binding_qdata] takes its first branch on both
    sides, so each object receives a one-cell list of its own, the source's
    allocated right after the binding and the target's after that. *)
Definition fresh_registry (w : World) (src tgt : nat) : World -> World :=
  with_registry
    (<[tgt := S (S (next_addr w))]> (<[src := S (next_addr w)]> (qdata w)))
    (<[S (S (next_addr w)) := mkGList (next_addr w) None None]>
       (<[S (next_addr w) := mkGList (next_addr w) None None]> (g_list_cells w)))
    (S (S (S (next_addr w)))).

(** What [g_binding_finalize] logs for the user data: one call of the
    [GDestroyNotify], when one was given. *)
Definition released (destroy : option nat) (ud : gpointer) : list Event :=
  match destroy with
  | Some n => [EvDestroyNotify n ud]
  | None => []
  end.

(** The binding a closure was connected for. *)
Definition closure_binding (c : Closure) : nat :=
  match c with OnSourceNotify b => b | OnTargetNotify b => b end.

(** A world in which the binding [b] between [A.pa] and [B.pb] is in
    place: the binding record is as [g_object_bind_property_full] leaves it,
    both endpoints are alive, and the only handlers connected to the two
    endpoints are those of this binding. *)
Section WiredWorld.
Context `{GTypeSystem}.

Definition two_way (L : GBinding) : bool := has_flag (flags L) G_BINDING_BIDIRECTIONAL.

Definition back_handlers (id : Z) (b : nat) (L : GBinding) : list (Z * Closure) :=
  if two_way L then [(id, OnTargetNotify b)] else [].

Record Wired (w : World) (A B b : nat) (L : GBinding) (pa pb : GParamSpec)
    (f g : GBindingTransformFunc) : Prop := mkWired {
  wired_binding : bindings w !! b = Some L;
  wired_unfrozen : is_frozen L = false;
  wired_source : source L = Some A;
  wired_target : target L = Some B;
  wired_source_property : source_property L = pspec_name pa;
  wired_target_property : target_property L = pspec_name pb;
  wired_source_pspec : source_pspec L = Some pa;
  wired_target_pspec : target_pspec L = Some pb;
  wired_s2t : transform_s2t L = Some f;
  wired_t2s : transform_t2s L = Some g;
  wired_A : exists oa, objects w !! A = Some oa
            /\ g_object_class_find_property (g_class oa) (pspec_name pa) = Some pa;
  wired_B : exists ob, objects w !! B = Some ob
            /\ g_object_class_find_property (g_class ob) (pspec_name pb) = Some pb;
  wired_distinct : A = B -> pspec_name pa <> pspec_name pb;
  wired_readable_source : readable pa = true;
  wired_writable_target : writable_now pb = true;
  wired_bidirectional :
    two_way L = true -> writable_now pa = true /\ readable pb = true;
  wired_handlers : exists ia ib,
    handlers w !!! A
    = (ia, OnSourceNotify b) :: (if decide (A = B) then back_handlers ib b L else [])
    /\ handlers w !!! B
       = (if decide (A = B) then [(ia, OnSourceNotify b)] else [])
         ++ back_handlers ib b L
}.

(** What one propagation from the source to the target does to the world:
    the current source value goes through the transformation and, when the
    transformation reports success, the validated result is written to the
    target. *)
Definition forward (A B b : nat) (L : GBinding) (pa pb : GParamSpec)
    (f : GBindingTransformFunc) (w : World) : World :=
  let source_value :=
    default (g_value_init (G_PARAM_SPEC_VALUE_TYPE pa)) (peek w A (pspec_name pa)) in
  let (res, target_value) :=
    f b source_value (g_value_init (G_PARAM_SPEC_VALUE_TYPE pb)) (transform_data L) in
  if res
  then poke B (pspec_name pb) (g_param_value_validate pb target_value) w
  else w.

(** The same from the target back to the source. *)
Definition backward (A B b : nat) (L : GBinding) (pa pb : GParamSpec)
    (g : GBindingTransformFunc) (w : World) : World :=
  let source_value :=
    default (g_value_init (G_PARAM_SPEC_VALUE_TYPE pb)) (peek w B (pspec_name pb)) in
  let (res, target_value) :=
    g b source_value (g_value_init (G_PARAM_SPEC_VALUE_TYPE pa)) (transform_data L) in
  if res
  then poke A (pspec_name pa) (g_param_value_validate pa target_value) w
  else w.

End WiredWorld.

(** The write of the propagation handlers, between the two assignments to
    the guard flag. *)
Definition guarded (set_property : option nat -> string -> GValue -> M unit)
    (b : nat) (object : option nat) (property_name : string) (value : GValue) : M unit :=
  assign b (with_is_frozen true) ;>
  set_property object property_name value ;>
  assign b (with_is_frozen false).

(** The worlds reached from [w1] by external writes to the two bound
    properties [A.x] and [B.y]. *)
Inductive written_from `{GTypeSystem} (A B : nat) (x y : string) (w1 : World)
  : World -> Prop :=
| written_none : written_from A B x y w1 w1
| written_source k v w w' :
    written_from A B x y w1 w ->
    g_object_set_property (S (S k)) (Some A) x v w = Ok tt w' ->
    written_from A B x y w1 w'
| written_target k v w w' :
    written_from A B x y w1 w ->
    g_object_set_property (S (S k)) (Some B) y v w = Ok tt w' ->
    written_from A B x y w1 w'.

(** ** Vocabulary for the behaviour of whole runs *)

(** The events a property write leaves in the trace. *)
Definition is_set_property (e : Event) : bool :=
  match e with
  | EvSetProperty _ _ _ => true
  | _ => false
  end.

(** [w'] differs from [w] in property values and trace only: bindings with
    their guard flags, handlers, destruction hooks, registry and allocator
    are the same, the same objects exist with the same classes, and the
    trace has grown by property writes. *)
Record written_only (w w' : World) : Prop := mkWrittenOnly {
  wo_bindings : bindings w' = bindings w;
  wo_handlers : handlers w' = handlers w;
  wo_weak_refs : weak_refs w' = weak_refs w;
  wo_qdata : qdata w' = qdata w;
  wo_cells : g_list_cells w' = g_list_cells w;
  wo_next_addr : next_addr w' = next_addr w;
  wo_handler_seq : handler_seq w' = handler_seq w;
  wo_objects : forall o,
    match objects w !! o, objects w' !! o with
    | Some obj, Some obj' => g_class obj' = g_class obj
    | None, None => True
    | _, _ => False
    end;
  wo_trace : exists t, trace w' = trace w ++ t
                       /\ forallb is_set_property t = true
}.

(** What a run may answer: a world that differs in property values and
    trace only, or no world at all. *)
Definition values_only {A} (w : World) (r : result A) : Prop :=
  match r with
  | Ok _ w' => written_only w w'
  | Crash | OutOfFuel => True
  end.

(** ** The class of [GBinding] itself *)

(** More [GParamFlags] of [gparam.h], and the fundamental type of objects. *)
Definition G_PARAM_STATIC_NICK : Z := Z.shiftl 1 6.
Definition G_PARAM_STATIC_BLURB : Z := Z.shiftl 1 7.
Definition G_PARAM_STATIC_STRINGS : Z :=
  Z.lor G_PARAM_STATIC_NAME (Z.lor G_PARAM_STATIC_NICK G_PARAM_STATIC_BLURB).
Definition G_TYPE_OBJECT : GType := Z.shiftl 20 2.

(** The property ids of the class. *)
Definition PROP_0 : nat := 0.
Definition PROP_SOURCE : nat := 1.
Definition PROP_TARGET : nat := 2.
Definition PROP_SOURCE_PROPERTY : nat := 3.
Definition PROP_TARGET_PROPERTY : nat := 4.
Definition PROP_FLAGS : nat := 5.

(** [g_binding_class_init]: the five descriptors handed to
    [g_object_class_install_property], with their ids, in the order of the
    calls.  [G_TYPE_BINDING_FLAGS] is the type id that
    [g_binding_flags_get_type] got from the registration of the flags type;
    nick, blurb and default value of a descriptor are not kept, and the
    assignments of the quark and of the four class methods have no
    counterpart here (the methods are called by name). *)
Definition g_binding_class_init (G_TYPE_BINDING_FLAGS : GType) : list (nat * GParamSpec) :=
  let construct_only_readwrite :=
    Z.lor G_PARAM_CONSTRUCT_ONLY (Z.lor G_PARAM_READWRITE G_PARAM_STATIC_STRINGS) in
  [ (PROP_SOURCE, mkGParamSpec "source" construct_only_readwrite G_TYPE_OBJECT);
    (PROP_TARGET, mkGParamSpec "target" construct_only_readwrite G_TYPE_OBJECT);
    (PROP_SOURCE_PROPERTY,
     mkGParamSpec "source-property" construct_only_readwrite Sample.G_TYPE_STRING);
    (PROP_TARGET_PROPERTY,
     mkGParamSpec "target-property" construct_only_readwrite Sample.G_TYPE_STRING);
    (PROP_FLAGS, mkGParamSpec "flags" construct_only_readwrite G_TYPE_BINDING_FLAGS) ].

(** The descriptors of a [GBinding] used as an endpoint. *)
Definition g_binding_class (G_TYPE_BINDING_FLAGS : GType) : list GParamSpec :=
  map snd (g_binding_class_init G_TYPE_BINDING_FLAGS).

(** ** More scenarios on the three endpoints *)

Section MoreScenarios.
Context `{GTypeSystem}.

(** [world3] with a bidirectional binding between [1.x] and [2.y] that
    carries the user data 42 and the release callback 9. *)
Definition bound_with_data : World :=
  Sample.world_after
    (g_object_bind_property_full (Some 1%nat) "x" (Some 2%nat) "y" G_BINDING_BIDIRECTIONAL
       None None 42 (Some 9%nat))
    Sample.world3.

(** [world3] with a fourth object, an instance of the class of bindings. *)
Definition world_with_binding_instance : World :=
  set_objects (insert 9%nat (mkGObject (g_binding_class 0) ∅)) Sample.world3.

(** [bound_plus_one] with a second one-way [plus_one] binding: from [2.y] on
    to [3.z]; from [2.y] back to [1.x]; from [1.x] to [3.z] as well. *)
Definition chained_plus_one : World :=
  Sample.world_after
    (g_object_bind_property_full (Some 2%nat) "y" (Some 3%nat) "z" G_BINDING_DEFAULT
       (Some Sample.plus_one) None 0 None)
    Sample.bound_plus_one.

Definition cycle_plus_one : World :=
  Sample.world_after
    (g_object_bind_property_full (Some 2%nat) "y" (Some 1%nat) "x" G_BINDING_DEFAULT
       (Some Sample.plus_one) None 0 None)
    Sample.bound_plus_one.

Definition fan_out_plus_one : World :=
  Sample.world_after
    (g_object_bind_property_full (Some 1%nat) "x" (Some 3%nat) "z" G_BINDING_DEFAULT
       (Some Sample.plus_one) None 0 None)
    Sample.bound_plus_one.

End MoreScenarios.

(** * Properties *)

(** ** The default transformation *)

Section DefaultTransform.
Context `{GTypeSystem}.

Lemma default_transform_is_a value_a value_b :
  g_type_is_a (G_VALUE_TYPE value_a) (G_VALUE_TYPE value_b) = true ->
  default_transform value_a value_b = (true, g_value_copy value_a value_b).
Proof. intros Ha. unfold default_transform. now rewrite Ha. Qed.

Lemma default_transform_compatible value_a value_b :
  g_value_type_compatible (G_VALUE_TYPE value_a) (G_VALUE_TYPE value_b) = true ->
  default_transform value_a value_b = (true, g_value_copy value_a value_b).
Proof.
  intros Hc. unfold default_transform. rewrite Hc.
  now destruct (g_type_is_a _ _).
Qed.

Lemma default_transform_converted value_a value_b value_b' :
  g_type_is_a (G_VALUE_TYPE value_a) (G_VALUE_TYPE value_b) = false ->
  g_value_type_compatible (G_VALUE_TYPE value_a) (G_VALUE_TYPE value_b) = false ->
  g_value_type_transformable (G_VALUE_TYPE value_a) (G_VALUE_TYPE value_b) = true ->
  g_value_transform value_a value_b = Some value_b' ->
  default_transform value_a value_b = (true, value_b').
Proof.
  intros Ha Hc Ht Hv. unfold default_transform. now rewrite Ha, Hc, Ht, Hv.
Qed.

Lemma default_transform_conversion_failed value_a value_b :
  g_type_is_a (G_VALUE_TYPE value_a) (G_VALUE_TYPE value_b) = false ->
  g_value_type_compatible (G_VALUE_TYPE value_a) (G_VALUE_TYPE value_b) = false ->
  g_value_type_transformable (G_VALUE_TYPE value_a) (G_VALUE_TYPE value_b) = true ->
  g_value_transform value_a value_b = None ->
  default_transform value_a value_b = (false, value_b).
Proof.
  intros Ha Hc Ht Hv. unfold default_transform. now rewrite Ha, Hc, Ht, Hv.
Qed.

(** Without any relation between the two types the function falls through
    to its [done] label: it answers [TRUE] and leaves [value_b] as it was. *)
Lemma default_transform_unrelated value_a value_b :
  g_type_is_a (G_VALUE_TYPE value_a) (G_VALUE_TYPE value_b) = false ->
  g_value_type_compatible (G_VALUE_TYPE value_a) (G_VALUE_TYPE value_b) = false ->
  g_value_type_transformable (G_VALUE_TYPE value_a) (G_VALUE_TYPE value_b) = false ->
  default_transform value_a value_b = (true, value_b).
Proof.
  intros Ha Hc Ht. unfold default_transform. now rewrite Ha, Hc, Ht.
Qed.

(** The only way [default_transform] reports failure. *)
Lemma default_transform_false value_a value_b value_b' :
  default_transform value_a value_b = (false, value_b') ->
  g_value_type_transformable (G_VALUE_TYPE value_a) (G_VALUE_TYPE value_b) = true
  /\ g_value_transform value_a value_b = None.
Proof.
  unfold default_transform.
  destruct (g_type_is_a _ _); simpl; [discriminate|].
  destruct (g_value_type_compatible _ _); [discriminate|].
  destruct (g_value_type_transformable _ _); [|discriminate].
  destruct (g_value_transform _ _); [discriminate|]. tauto.
Qed.

End DefaultTransform.

Section DefaultTransformOnStrings.
Existing Instance Sample.types.

(** C5, on the code: a string value offered to an integer property.  The
    two types are incompatible and no conversion from a string to an integer
    is registered, yet the default transformation answers [TRUE] (success)
    and hands back the untouched, zero-filled destination value. *)
Theorem default_transform_reports_success_without_conversion :
  let value_a := mkGValue Sample.G_TYPE_STRING 7 in
  let value_b := g_value_init Sample.G_TYPE_INT in
  g_type_is_a (G_VALUE_TYPE value_a) (G_VALUE_TYPE value_b) = false
  /\ g_value_type_compatible (G_VALUE_TYPE value_a) (G_VALUE_TYPE value_b) = false
  /\ g_value_type_transformable (G_VALUE_TYPE value_a) (G_VALUE_TYPE value_b) = false
  /\ default_transform value_a value_b = (true, value_b).
Proof. repeat split. Qed.

End DefaultTransformOnStrings.

(** ** The authorization decision *)

Module AuthObserverFacts.
Import AuthObserver.

(** An emission that reaches a handler answering [FALSE] ends with
    [FALSE], whatever was accumulated before. *)
Lemma g_signal_emit_denied closures stream credentials return_value :
  (exists h, In h closures /\ h stream credentials = false) ->
  g_signal_emit closures stream credentials return_value = false.
Proof.
  revert return_value.
  induction closures as [|h0 closures IH]; intros acc [h [Hin Hdeny]].
  - destruct Hin.
  - simpl. destruct (h0 stream credentials) eqn:E0.
    + apply IH. destruct Hin as [->|Hin]; [congruence|eauto].
    + reflexivity.
Qed.

(** An emission in which every handler answers [TRUE] ends with the answer
    of the last one. *)
Lemma g_signal_emit_allowed closures stream credentials return_value :
  closures <> [] ->
  (forall h, In h closures -> h stream credentials = true) ->
  g_signal_emit closures stream credentials return_value = true.
Proof.
  revert return_value.
  induction closures as [|h0 closures IH]; intros acc Hne Hall; [congruence|].
  simpl. rewrite (Hall h0) by now left.
  destruct closures as [|h1 closures]; [reflexivity|].
  apply IH; [discriminate|]. intros h Hin. apply Hall. now right.
Qed.

(** The decision is the conjunction of the answers of the connected
    handlers. *)
Lemma authorize_is_conjunction observer stream credentials :
  g_dbus_auth_observer_authorize_authenticated_peer observer stream credentials
  = forallb (fun h : Handler => h stream credentials)
      (connected observer ++ connected_after observer).
Proof.
  unfold g_dbus_auth_observer_authorize_authenticated_peer.
  destruct (forallb _ _) eqn:E.
  - rewrite forallb_forall in E. apply g_signal_emit_allowed.
    + unfold closures_of. now destruct (connected observer).
    + intros h Hin. unfold closures_of in Hin.
      rewrite !in_app_iff in Hin. destruct Hin as [Hin|[Hin|Hin]].
      * apply E. rewrite in_app_iff. now left.
      * destruct Hin as [<-|[]]. reflexivity.
      * apply E. rewrite in_app_iff. now right.
  - apply g_signal_emit_denied.
    assert (Hex : exists h, In h (connected observer ++ connected_after observer)
                            /\ h stream credentials = false).
    { clear -E. induction (connected observer ++ connected_after observer) as [|h l IH].
      - discriminate.
      - simpl in E. destruct (h stream credentials) eqn:Eh.
        + destruct (IH E) as [h' [Hin Hd]]. exists h'. split; [now right|exact Hd].
        + exists h. split; [now left|exact Eh]. }
    destruct Hex as [h [Hin Hd]]. exists h. split; [|exact Hd].
    unfold closures_of. rewrite in_app_iff in Hin. rewrite !in_app_iff. tauto.
Qed.

(** C9: with no handler attached the decision is allow, and a connected
    handler that answers deny makes the decision reject. *)
Theorem authorize_default_allow_and_veto
    (observer : GDBusAuthObserver) (stream : GIOStream) (credentials : GCredentials) :
  (connected observer = [] -> connected_after observer = [] ->
   g_dbus_auth_observer_authorize_authenticated_peer observer stream credentials = true)
  /\ (forall h, In h (connected observer ++ connected_after observer) ->
      h stream credentials = false ->
      g_dbus_auth_observer_authorize_authenticated_peer observer stream credentials = false).
Proof.
  rewrite authorize_is_conjunction. split.
  - intros -> ->. reflexivity.
  - intros h Hin Hdeny.
    destruct (forallb _ _) eqn:E; [|reflexivity].
    rewrite forallb_forall in E. specialize (E h Hin). simpl in E. congruence.
Qed.

Lemma authorize_default_allow_and_veto_witness :
  g_dbus_auth_observer_authorize_authenticated_peer (mkObserver [] []) 1%nat (Some 5%nat)
  = true
  /\ g_dbus_auth_observer_authorize_authenticated_peer
       (mkObserver [same_user_only] []) 1%nat (Some 5%nat) = false.
Proof.
  split.
  - apply (authorize_default_allow_and_veto (mkObserver [] []) 1%nat (Some 5%nat));
      reflexivity.
  - apply (authorize_default_allow_and_veto
             (mkObserver [same_user_only] []) 1%nat (Some 5%nat)) with same_user_only.
    + simpl. now left.
    + reflexivity.
Defined.

End AuthObserverFacts.

(** ** The registry: list cells and qdata *)

Lemma cells_closed_insert (cells : gmap nat GList) p c :
  cells_closed cells ->
  (forall pp, g_prev c = Some pp -> pp = p \/ is_Some (cells !! pp)) ->
  cells_closed (<[p := c]> cells).
Proof.
  intros Hcl Hc q d pp Hq Hd.
  rewrite lookup_insert_is_Some.
  destruct (decide (p = pp)) as [?|Hne]; [now left|right; split; [exact Hne|]].
  destruct (decide (p = q)) as [->|Hpq].
  - rewrite lookup_insert_eq in Hq. injection Hq as <-.
    destruct (Hc _ Hd) as [->|?]; [congruence|assumption].
  - rewrite lookup_insert_ne in Hq by exact Hpq. eapply Hcl; eassumption.
Qed.

Lemma live_insert (cells : gmap nat GList) p c q :
  is_Some (cells !! q) -> is_Some (<[p := c]> cells !! q).
Proof.
  intros Hq. rewrite lookup_insert_is_Some.
  destruct (decide (p = q)); [now left|now right].
Qed.

Ltac run_cells :=
  unfold g_list_prepend, bind, alloc, load_cell, store_cell, modify, ret; simpl.

(** On a registry without dangling pointers [g_list_prepend] succeeds,
    returns the fresh cell and frees nothing. *)
Lemma g_list_prepend_wf (l : option nat) b w :
  (forall p, l = Some p -> is_Some (g_list_cells w !! p)) ->
  cells_closed (g_list_cells w) ->
  exists c,
    g_list_prepend l b w
    = Ok (Some (next_addr w)) (with_registry (qdata w) c (S (next_addr w)) w)
    /\ cells_closed c
    /\ is_Some (c !! next_addr w)
    /\ (forall q, is_Some (g_list_cells w !! q) -> is_Some (c !! q)).
Proof.
  intros Hl Hcl. destruct w as [objs bnds hs wr qd cells na hseq tr]. simpl in *.
  destruct l as [l|].
  - destruct (Hl l eq_refl) as [lc Hlc].
    assert (Hc1 : cells_closed (<[na := mkGList b (Some l) (g_prev lc)]> cells)).
    { apply cells_closed_insert; [exact Hcl|]. intros pp Hpp. right.
      eapply Hcl; eassumption. }
    destruct (g_prev lc) as [p|] eqn:Eprev.
    + destruct (live_insert cells na (mkGList b (Some l) (Some p)) p) as [pc Hpc];
        [eapply Hcl; eassumption|].
      destruct (live_insert (<[na := mkGList b (Some l) (Some p)]> cells) p
                  (mkGList (g_data pc) (Some na) (g_prev pc)) l) as [lc2 Hlc2].
      { apply live_insert. now rewrite Hlc. }
      run_cells. rewrite Hlc. simpl. rewrite Eprev. simpl. rewrite Hpc. simpl.
      rewrite Hlc2.
      eexists. split; [reflexivity|]. simpl. split; [|split].
      * apply cells_closed_insert.
        -- apply cells_closed_insert; [exact Hc1|]. intros pp Hpp. right.
           eapply Hc1; eassumption.
        -- intros pp Hpp. injection Hpp as <-. right.
           apply live_insert. rewrite lookup_insert_eq. eauto.
      * do 2 apply live_insert. rewrite lookup_insert_eq. eauto.
      * intros q Hq. now do 3 apply live_insert.
    + destruct (live_insert cells na (mkGList b (Some l) None) l) as [lc2 Hlc2];
        [now rewrite Hlc|].
      run_cells. rewrite Hlc. simpl. rewrite Eprev. simpl. rewrite Hlc2.
      eexists. split; [reflexivity|]. simpl. split; [|split].
      * apply cells_closed_insert; [exact Hc1|]. intros pp Hpp. injection Hpp as <-.
        right. rewrite lookup_insert_eq. eauto.
      * apply live_insert. rewrite lookup_insert_eq. eauto.
      * intros q Hq. now do 2 apply live_insert.
  - run_cells.
    eexists. split; [reflexivity|]. simpl. split; [|split].
    + apply cells_closed_insert; [exact Hcl|]. discriminate.
    + rewrite lookup_insert_eq. eauto.
    + intros q. apply live_insert.
Qed.

(** Whatever the registry looks like, [g_list_prepend] touches the list
    cells and the allocator only. *)
Lemma g_list_prepend_frame l b w :
  match g_list_prepend l b w with
  | Ok _ w' => exists c n, w' = with_registry (qdata w) c n w
  | Crash => True
  | OutOfFuel => False
  end.
Proof.
  destruct w as [objs bnds hs wr qd cells na hseq tr].
  destruct l as [l|]; run_cells.
  - destruct (cells !! l) as [lc|]; simpl; [|exact I].
    destruct (g_prev lc) as [p|]; simpl.
    + destruct (_ !! p) as [pc|]; simpl; [|exact I].
      destruct (_ !! l) as [lc2|]; simpl; [|exact I].
      unfold with_registry; simpl. eauto.
    + destruct (_ !! l) as [lc2|]; simpl; [|exact I].
      unfold with_registry; simpl. eauto.
  - unfold with_registry; simpl. eauto.
Qed.

Lemma add_binding_qdata_wf o b w :
  is_Some (objects w !! o) -> registry_wf w ->
  exists q c n,
    add_binding_qdata o b w = Ok tt (with_registry q c n w)
    /\ registry_wf (with_registry q c n w).
Proof.
  intros [obj Hobj] [Hq Hc].
  unfold add_binding_qdata, g_object_get_qdata, get_object, bind at 1 2.
  rewrite Hobj.
  destruct (qdata w !! o) as [l|] eqn:Eq.
  - destruct (g_list_prepend_wf (Some l) b w) as (c & Hrun & Hcl & Hnew & Hlive).
    { intros p [= <-]. eapply Hq; eassumption. }
    { exact Hc. }
    unfold bind. rewrite Hrun. unfold ret.
    exists (qdata w), c, (S (next_addr w)). split; [reflexivity|].
    split; simpl.
    + intros o' p Hp. apply Hlive. eapply Hq; eassumption.
    + exact Hcl.
  - destruct (g_list_prepend_wf None b w) as (c & Hrun & Hcl & Hnew & Hlive).
    { discriminate. }
    { exact Hc. }
    unfold bind. rewrite Hrun.
    unfold g_object_set_qdata, get_object, bind, modify. simpl. rewrite Hobj.
    exists (<[o := next_addr w]> (qdata w)), c, (S (next_addr w)).
    split; [reflexivity|]. split; simpl.
    + intros o' p Hp. destruct (decide (o = o')) as [->|Hne].
      * rewrite lookup_insert_eq in Hp. injection Hp as <-. exact Hnew.
      * rewrite lookup_insert_ne in Hp by exact Hne. apply Hlive.
        eapply Hq; eassumption.
    + exact Hcl.
Qed.

Lemma add_binding_qdata_frame o b w :
  match add_binding_qdata o b w with
  | Ok _ w' => exists q c n, w' = with_registry q c n w
  | Crash => True
  | OutOfFuel => False
  end.
Proof.
  unfold add_binding_qdata, g_object_get_qdata, get_object, bind at 1 2.
  destruct (objects w !! o) as [obj|] eqn:Hobj; [|exact I].
  destruct (qdata w !! o) as [l|].
  - unfold bind. pose proof (g_list_prepend_frame (Some l) b w) as Hf.
    destruct (g_list_prepend (Some l) b w); try assumption.
    destruct Hf as (c & n & ->). unfold ret. eauto.
  - unfold bind. pose proof (g_list_prepend_frame None b w) as Hf.
    destruct (g_list_prepend None b w); try assumption.
    destruct Hf as (c & n & ->).
    unfold g_object_set_qdata, get_object, bind, modify. simpl. rewrite Hobj.
    destruct a; simpl; unfold with_registry; simpl; eauto.
Qed.

(** The two facts together: what [add_binding_qdata] leaves, and that it
    can only go wrong on a registry with a dangling pointer. *)
Lemma add_binding_qdata_spec o b w :
  is_Some (objects w !! o) ->
  match add_binding_qdata o b w with
  | Ok _ w' =>
      (exists q c n, w' = with_registry q c n w) /\ (registry_wf w -> registry_wf w')
  | Crash => ~ registry_wf w
  | OutOfFuel => False
  end.
Proof.
  intros Hlive. pose proof (add_binding_qdata_frame o b w) as Hf.
  destruct (add_binding_qdata o b w) as [[] w'| |] eqn:E.
  - split; [exact Hf|]. intros Hwf.
    destruct (add_binding_qdata_wf o b w Hlive Hwf) as (q & c & n & Hrun & Hwf').
    rewrite E in Hrun. now injection Hrun as ->.
  - intros Hwf.
    destruct (add_binding_qdata_wf o b w Hlive Hwf) as (q & c & n & Hrun & _).
    congruence.
  - exact Hf.
Qed.

(** [g_list_remove] touches the list cells only. *)
Lemma g_list_remove_loop_frame fuel l tmp data w :
  match g_list_remove_loop fuel l tmp data w with
  | Ok _ w' => exists c, w' = with_registry (qdata w) c (next_addr w) w
  | _ => True
  end.
Proof.
  revert tmp w. induction fuel as [|fuel IH]; intros tmp w.
  - destruct tmp; simpl; [exact I|]. exists (g_list_cells w). now destruct w.
  - destruct tmp as [t|]; simpl; [|exists (g_list_cells w); now destruct w].
    unfold bind at 1. unfold load_cell at 1.
    destruct (g_list_cells w !! t) as [tc|]; [|exact I].
    destruct (negb (g_data tc =? data)%nat); [apply IH|].
    destruct w as [objs bnds hs wr qd cells na hseq tr].
    unfold bind, load_cell, store_cell, free_cell, modify, ret.
    destruct (g_prev tc) as [p|]; simpl.
    + destruct (cells !! p) as [pc|]; simpl; [|exact I].
      destruct (g_next tc) as [n|]; simpl.
      * destruct (_ !! n) as [nc|]; simpl; [|exact I]. unfold with_registry. simpl. eauto.
      * unfold with_registry. simpl. eauto.
    + destruct (g_next tc) as [n|]; simpl.
      * destruct (_ !! n) as [nc|]; simpl; [|exact I]. unfold with_registry. simpl. eauto.
      * unfold with_registry. simpl. eauto.
Qed.

(** The dead stores: neither [add_binding_qdata] on an object that already
    has a registry entry nor [remove_binding_qdata] changes what
    [g_object_get_qdata] returns for any object. *)
Lemma add_binding_qdata_keeps_entry o b w w' p :
  qdata w !! o = Some p ->
  add_binding_qdata o b w = Ok tt w' ->
  qdata w' = qdata w.
Proof.
  intros Hq. unfold add_binding_qdata, g_object_get_qdata, get_object, bind at 1 2.
  destruct (objects w !! o) as [obj|]; [|discriminate].
  rewrite Hq. unfold bind.
  pose proof (g_list_prepend_frame (Some p) b w) as Hf.
  destruct (g_list_prepend (Some p) b w) as [r w2| |]; [|discriminate..].
  destruct Hf as (c & n & ->). unfold ret. now intros [= <-].
Qed.

Lemma remove_binding_qdata_keeps_entry o b w w' :
  remove_binding_qdata o b w = Ok tt w' ->
  qdata w' = qdata w.
Proof.
  unfold remove_binding_qdata. unfold bind at 1.
  assert (Hget : forall r w2, g_object_get_qdata o w = Ok r w2 -> w2 = w).
  { intros r w2. unfold g_object_get_qdata. destruct o as [o|].
    - unfold bind, get_object. destruct (objects w !! o); [|discriminate].
      now intros [= _ <-].
    - unfold ret. now intros [= _ <-]. }
  destruct (g_object_get_qdata o w) as [l w2| |] eqn:E; [|intros; discriminate..].
  rewrite (Hget _ _ eq_refl).
  unfold g_list_remove, get_world. unfold bind. cbv beta.
  pose proof (g_list_remove_loop_frame (S (size (g_list_cells w))) l l b w) as Hf.
  destruct (g_list_remove_loop _ l l b w) as [r w3| |]; [|intros; discriminate..].
  destruct Hf as (c & ->). unfold ret. now intros [= <-].
Qed.

(** ** Propagation and construction *)

Ltac unfold_setters :=
  unfold with_registry, set_objects, set_bindings, set_handlers, set_weak_refs,
    set_qdata, set_g_list_cells, set_next_addr, set_handler_seq, set_trace.

Lemma find_property_name class name pspec :
  g_object_class_find_property class name = Some pspec -> pspec_name pspec = name.
Proof.
  unfold g_object_class_find_property. intros Hf.
  apply find_some in Hf. destruct Hf as [_ Hf]. now apply String.eqb_eq.
Qed.

(** ** Reading and writing properties directly *)

Lemma poke_bindings o name v w : bindings (poke o name v w) = bindings w.
Proof. unfold poke. now destruct (objects w !! o). Qed.

Lemma poke_handlers o name v w : handlers (poke o name v w) = handlers w.
Proof. unfold poke. now destruct (objects w !! o). Qed.

Lemma poke_trace o name v w obj :
  objects w !! o = Some obj ->
  trace (poke o name v w) = trace w ++ [EvSetProperty o name v].
Proof. unfold poke. now intros ->. Qed.

Lemma poke_objects_same o name v w obj :
  objects w !! o = Some obj ->
  objects (poke o name v w) !! o
  = Some (mkGObject (g_class obj) (<[name := v]> (g_properties obj))).
Proof. unfold poke. intros ->. simpl. apply lookup_insert_eq. Qed.

Lemma poke_objects_other o o' name v w :
  o <> o' -> objects (poke o name v w) !! o' = objects w !! o'.
Proof.
  intros Hne. unfold poke. destruct (objects w !! o); [|reflexivity].
  simpl. now apply lookup_insert_ne.
Qed.

(** A write keeps every object alive and leaves its class alone. *)
Lemma poke_class o name v w o' obj :
  objects w !! o' = Some obj ->
  exists obj', objects (poke o name v w) !! o' = Some obj' /\ g_class obj' = g_class obj.
Proof.
  intros Hobj. destruct (decide (o = o')) as [->|Hne].
  - erewrite poke_objects_same by eassumption. eauto.
  - rewrite poke_objects_other by assumption. eauto.
Qed.

Lemma peek_poke_same o name v w obj :
  objects w !! o = Some obj -> peek (poke o name v w) o name = Some v.
Proof.
  intros Hobj. unfold peek. erewrite poke_objects_same by eassumption.
  simpl. apply lookup_insert_eq.
Qed.

Lemma peek_poke_other o name v w o' name' :
  (o = o' -> name <> name') -> peek (poke o name v w) o' name' = peek w o' name'.
Proof.
  intros Hne. unfold peek. destruct (decide (o = o')) as [->|Ho].
  - destruct (objects w !! o') as [obj|] eqn:Hobj.
    + erewrite poke_objects_same by eassumption. simpl.
      apply lookup_insert_ne. now apply Hne.
    + unfold poke. now rewrite Hobj, Hobj.
  - now rewrite poke_objects_other.
Qed.

(** Normalisation of world terms: setters and projections only. *)
Ltac world_norm :=
  cbv beta iota zeta delta
    [with_registry set_objects set_bindings set_handlers set_weak_refs
     set_qdata set_g_list_cells set_next_addr set_handler_seq set_trace
     objects bindings handlers weak_refs qdata g_list_cells next_addr handler_seq trace
     with_ref_count with_source with_target with_pspecs with_transforms
     with_source_notify with_target_notify with_is_frozen
     ref_count source target source_property target_property source_pspec target_pspec
     transform_s2t transform_t2s flags source_notify target_notify transform_data
     notify is_frozen].

(** Disconnecting a handler by the id kept in the binding, where the C
    code does so under a condition: the handlers of the object that carry
    the id go. *)
Lemma disconnect_when (c : bool) o id w obj :
  objects w !! o = Some obj ->
  when c (g_signal_handler_disconnect (Some o) id) w
  = Ok tt (set_handlers
             (fun h => if c
                       then <[o := List.filter (fun hc => negb (fst hc =? id)) (h !!! o)]> h
                       else h)
             w).
Proof.
  intros Ho. unfold when, g_signal_handler_disconnect, bind, get_object, modify, ret.
  destruct c; simpl; [now rewrite Ho|now destruct w].
Qed.

(** On an endpoint that is already [NULL] nothing is disconnected. *)
Lemma disconnect_none (c : bool) id w :
  when c (g_signal_handler_disconnect None id) w = Ok tt w.
Proof. unfold when, g_signal_handler_disconnect, ret. now destruct c. Qed.

(** One step of running teardown code on an explicit world. *)
Ltac teardown_step :=
  first
    [ erewrite disconnect_when by (cbn [objects]; eassumption)
    | rewrite disconnect_none
    | progress simpl
    | progress world_norm
    | progress unfold weak_unbind, g_object_ref, g_object_unref, g_binding_finalize,
        remove_binding_qdata, g_list_remove, g_object_get_qdata, g_object_weak_unref,
        log,
        g_binding_get_source, g_binding_get_target, g_binding_get_flags,
        g_binding_get_source_property, g_binding_get_target_property,
        load_cell, store_cell, free_cell, assign, put_binding, get_binding,
        modify, get_world, get_object, ret, bind
    | rewrite lookup_insert_eq
    | rewrite lookup_delete_eq
    | rewrite lookup_total_insert_eq
    | rewrite lookup_total_insert_ne by congruence
    | rewrite lookup_total_delete_ne by congruence
    | rewrite lookup_insert_ne by (congruence || lia)
    | rewrite lookup_delete_ne by (congruence || lia)
    | rewrite bool_decide_eq_true_2 by reflexivity
    | rewrite bool_decide_eq_false_2 by congruence
    | rewrite Nat.eqb_refl | rewrite Pos.eqb_refl
    | rewrite decide_True by reflexivity ].

(** ** The flags word and the handler ids *)

Lemma flags_mask : flags_class_mask g_binding_flags_get_type = G_BINDING_BIDIRECTIONAL.
Proof. reflexivity. Qed.

(** [g_object_new] keeps the two registered values and nothing else. *)
Lemma g_object_new_flags_registered fl :
  fl = G_BINDING_DEFAULT \/ fl = G_BINDING_BIDIRECTIONAL -> g_object_new_flags fl = fl.
Proof. intros [->| ->]; reflexivity. Qed.

Lemma g_object_new_flags_kept fl :
  g_object_new_flags fl <> 0 -> fl = G_BINDING_BIDIRECTIONAL.
Proof.
  unfold g_object_new_flags. rewrite flags_mask.
  destruct (Z.land fl (Z.lnot G_BINDING_BIDIRECTIONAL) =? 0) eqn:E; [|congruence].
  intros Hne. apply Z.eqb_eq in E.
  rewrite <- Z.ldiff_land in E.
  change G_BINDING_BIDIRECTIONAL with (Z.ones 1) in E.
  rewrite Z.ldiff_ones_r in E by lia.
  rewrite Z.shiftl_mul_pow2, Z.shiftr_div_pow2 in E by lia.
  change (2 ^ 1) with 2 in E. change G_BINDING_BIDIRECTIONAL with 1.
  pose proof (Z.div_mod fl 2 ltac:(lia)) as Hdm.
  pose proof (Z.mod_pos_bound fl 2 ltac:(lia)) as Hb. lia.
Qed.

(** A binding is bidirectional exactly when it was asked for with
    [G_BINDING_BIDIRECTIONAL] and nothing else. *)
Lemma bidirectional_iff fl : bidirectional fl = true <-> fl = G_BINDING_BIDIRECTIONAL.
Proof.
  split; [|intros ->; reflexivity].
  unfold bidirectional. intros Hb. apply g_object_new_flags_kept.
  intros E. rewrite E in Hb. discriminate.
Qed.

(** The checks of [g_object_bind_property_full] look at the word as it was
    passed. *)
Lemma bidirectional_requested fl :
  bidirectional fl = true -> has_flag fl G_BINDING_BIDIRECTIONAL = true.
Proof. intros Hb. now apply bidirectional_iff in Hb as ->. Qed.

Lemma guint_small n : 0 <= n < 2 ^ 32 -> guint n = n.
Proof. intros Hn. unfold guint. now apply Z.mod_small. Qed.

(** Handler ids that fit the [guint] fields of the binding. *)
Lemma guint_handler_ids (hseq : positive) :
  Z.pos (Pos.succ hseq) < 2 ^ 32 ->
  guint (Z.pos hseq) = Z.pos hseq /\ guint (Z.pos (Pos.succ hseq)) = Z.pos (Pos.succ hseq).
Proof. intros Hs. split; apply guint_small; lia. Qed.

Section Propagation.
Context `{GTypeSystem}.

Lemma wired_poke w A B b L pa pb f g o name v :
  Wired w A B b L pa pb f g -> Wired (poke o name v w) A B b L pa pb f g.
Proof.
  intros [Wbnd Wunf Wsrc Wtgt Wsp Wtp Wspec Wtpec Ws2t Wt2s WA WB Wdist Wra Wwb Wbi Wh].
  constructor; rewrite ?poke_bindings, ?poke_handlers; try assumption.
  - destruct WA as (oa & Hoa & Hfa).
    destruct (poke_class o name v w A oa Hoa) as (oa' & Hoa' & Hc).
    exists oa'. now rewrite Hc.
  - destruct WB as (ob & Hob & Hfb).
    destruct (poke_class o name v w B ob Hob) as (ob' & Hob' & Hc).
    exists ob'. now rewrite Hc.
Qed.

(** ** Emission: when does it start over *)

Lemma notified_again_trace gobject pspec w w' t :
  trace w' = trace w ++ t ->
  notified_again gobject pspec w w' = existsb (renotifies gobject pspec) t.
Proof.
  intros Ht. unfold notified_again. rewrite Ht.
  now rewrite drop_app_length.
Qed.

Lemma notified_again_same gobject pspec w : notified_again gobject pspec w w = false.
Proof. rewrite (notified_again_trace _ _ w w []); [reflexivity|now rewrite app_nil_r]. Qed.

Lemma renotifies_other gobject pspec o name v :
  (o = gobject -> name <> pspec_name pspec) ->
  renotifies gobject pspec (EvSetProperty o name v) = false.
Proof.
  intros Hne. simpl. destruct (Nat.eqb_spec o gobject) as [E|E]; [|reflexivity].
  simpl. apply String.eqb_neq. now apply Hne.
Qed.

Lemma renotifies_same gobject pspec v :
  renotifies gobject pspec (EvSetProperty gobject (pspec_name pspec) v) = true.
Proof. simpl. now rewrite Nat.eqb_refl, String.eqb_refl. Qed.

Lemma notified_again_poke gobject pspec w o name v obj :
  objects w !! o = Some obj ->
  (o = gobject -> name <> pspec_name pspec) ->
  notified_again gobject pspec w (poke o name v w) = false.
Proof.
  intros Ho Hne.
  rewrite (notified_again_trace _ _ _ _ [EvSetProperty o name v])
    by (eapply poke_trace; eassumption).
  cbn [existsb]. now rewrite renotifies_other.
Qed.

Section Guard.
Variable set_property : option nat -> string -> GValue -> M unit.

Lemma emit_handlers_cons gobject pspec id c hs w w' :
  invoke set_property gobject pspec c w = Ok tt w' ->
  g_signal_emit_handlers set_property gobject pspec ((id, c) :: hs) w
  = if notified_again gobject pspec w w'
    then Ok true w'
    else g_signal_emit_handlers set_property gobject pspec hs w'.
Proof.
  intros Hc. cbn [g_signal_emit_handlers]. unfold bind, get_world. rewrite Hc.
  now destruct (notified_again gobject pspec w w').
Qed.

(** A pass in which no handler changes the world. *)
Lemma emit_handlers_quiet gobject pspec hs w :
  Forall (fun hc => invoke set_property gobject pspec (snd hc) w = Ok tt w) hs ->
  g_signal_emit_handlers set_property gobject pspec hs w = Ok false w.
Proof.
  induction 1 as [|[id c] hs Hc _ IH]; [reflexivity|].
  simpl in Hc. rewrite (emit_handlers_cons _ _ _ _ _ _ _ Hc), notified_again_same.
  exact IH.
Qed.

(** An emission whose first pass is not interrupted ends with that pass. *)
Lemma emit_notify_once restarts gobject pspec w w' :
  g_signal_emit_handlers set_property gobject pspec (handlers w !!! gobject) w
  = Ok false w' ->
  g_signal_emit_notify set_property restarts gobject pspec w = Ok tt w'.
Proof.
  intros Hpass. destruct restarts; cbn [g_signal_emit_notify];
    unfold bind, get_world; now rewrite Hpass.
Qed.

(** An emission that has to start over. *)
Lemma emit_notify_again restarts gobject pspec w w' :
  g_signal_emit_handlers set_property gobject pspec (handlers w !!! gobject) w
  = Ok true w' ->
  g_signal_emit_notify set_property (S restarts) gobject pspec w
  = g_signal_emit_notify set_property restarts gobject pspec w'.
Proof.
  intros Hpass. cbn [g_signal_emit_notify].
  unfold bind at 1 2. unfold get_world at 1. now rewrite Hpass.
Qed.

Lemma emit_notify_quiet restarts gobject pspec w :
  Forall (fun hc => invoke set_property gobject pspec (snd hc) w = Ok tt w)
    (handlers w !!! gobject) ->
  g_signal_emit_notify set_property restarts gobject pspec w = Ok tt w.
Proof. intros Hq. apply emit_notify_once. now apply emit_handlers_quiet. Qed.

(** ** The guard *)

Lemma on_source_notify_frozen gobject pspec b w L :
  bindings w !! b = Some L -> is_frozen L = true ->
  on_source_notify set_property gobject pspec b w = Ok tt w.
Proof.
  intros Hb Hf. unfold on_source_notify, bind, get_binding. now rewrite Hb, Hf.
Qed.

Lemma on_target_notify_frozen gobject pspec b w L :
  bindings w !! b = Some L -> is_frozen L = true ->
  on_target_notify set_property gobject pspec b w = Ok tt w.
Proof.
  intros Hb Hf. unfold on_target_notify, bind, get_binding. now rewrite Hb, Hf.
Qed.

Lemma invoke_frozen gobject pspec c b w L :
  bindings w !! b = Some L -> is_frozen L = true -> closure_binding c = b ->
  invoke set_property gobject pspec c w = Ok tt w.
Proof.
  intros Hb Hf Hc. destruct c as [b'|b']; simpl in Hc; subst b'; simpl.
  - eapply on_source_notify_frozen; eassumption.
  - eapply on_target_notify_frozen; eassumption.
Qed.

Lemma emit_frozen restarts gobject pspec b L w :
  bindings w !! b = Some L -> is_frozen L = true ->
  Forall (fun hc => closure_binding (snd hc) = b) (handlers w !!! gobject) ->
  g_signal_emit_notify set_property restarts gobject pspec w = Ok tt w.
Proof.
  intros Hb Hf Hall. apply emit_notify_quiet.
  eapply Forall_impl; [exact Hall|]. intros [id c] Hc.
  eapply invoke_frozen; eassumption.
Qed.

(** A notification for another property is ignored. *)
Lemma on_source_notify_other_name gobject pspec b w L :
  bindings w !! b = Some L ->
  pspec_name pspec <> source_property L ->
  on_source_notify set_property gobject pspec b w = Ok tt w.
Proof.
  intros Hb Hne. unfold on_source_notify, bind, get_binding. rewrite Hb.
  destruct (is_frozen L); [reflexivity|].
  unfold g_intern_static_string, g_intern_string.
  replace (if has_flag (pspec_flags pspec) G_PARAM_STATIC_NAME
           then pspec_name pspec else pspec_name pspec) with (pspec_name pspec)
    by now destruct (has_flag _ _).
  apply String.eqb_neq in Hne. now rewrite Hne.
Qed.

Lemma on_target_notify_other_name gobject pspec b w L :
  bindings w !! b = Some L ->
  pspec_name pspec <> target_property L ->
  on_target_notify set_property gobject pspec b w = Ok tt w.
Proof.
  intros Hb Hne. unfold on_target_notify, bind, get_binding. rewrite Hb.
  destruct (is_frozen L); [reflexivity|].
  unfold g_intern_static_string, g_intern_string.
  replace (if has_flag (pspec_flags pspec) G_PARAM_STATIC_NAME
           then pspec_name pspec else pspec_name pspec) with (pspec_name pspec)
    by now destruct (has_flag _ _).
  apply String.eqb_neq in Hne. now rewrite Hne.
Qed.

(** A handler whose transformation reports failure leaves the world as it
    is, whatever the world and whatever the setter. *)
Lemma on_source_notify_declined gobject pspec b w L pa pb f sv :
  bindings w !! b = Some L ->
  source_pspec L = Some pa -> target_pspec L = Some pb -> transform_s2t L = Some f ->
  g_object_get_property (source L) (pspec_name pa)
    (g_value_init (G_PARAM_SPEC_VALUE_TYPE pa)) w = Ok sv w ->
  fst (f b sv (g_value_init (G_PARAM_SPEC_VALUE_TYPE pb)) (transform_data L)) = false ->
  on_source_notify set_property gobject pspec b w = Ok tt w.
Proof.
  intros Hb Hpa Hpb Hf Hget Hfail.
  unfold on_source_notify. unfold bind at 1. unfold get_binding at 1. rewrite Hb.
  destruct (is_frozen L); [reflexivity|].
  destruct (negb _); [reflexivity|].
  rewrite Hpa, Hpb, Hf. cbv beta iota zeta. unfold bind at 1. rewrite Hget.
  destruct (f b sv _ _) as [res tv]. simpl in Hfail. now subst res.
Qed.

Lemma on_target_notify_declined gobject pspec b w L pa pb g sv :
  bindings w !! b = Some L ->
  source_pspec L = Some pa -> target_pspec L = Some pb -> transform_t2s L = Some g ->
  g_object_get_property (target L) (pspec_name pb)
    (g_value_init (G_PARAM_SPEC_VALUE_TYPE pb)) w = Ok sv w ->
  fst (g b sv (g_value_init (G_PARAM_SPEC_VALUE_TYPE pa)) (transform_data L)) = false ->
  on_target_notify set_property gobject pspec b w = Ok tt w.
Proof.
  intros Hb Hpa Hpb Hg Hget Hfail.
  unfold on_target_notify. unfold bind at 1. unfold get_binding at 1. rewrite Hb.
  destruct (is_frozen L); [reflexivity|].
  destruct (negb _); [reflexivity|].
  rewrite Hpa, Hpb, Hg. cbv beta iota zeta. unfold bind at 1. rewrite Hget.
  destruct (g b sv _ _) as [res tv]. simpl in Hfail. now subst res.
Qed.

End Guard.

Lemma forall_closures_A w A B b L pa pb f g :
  Wired w A B b L pa pb f g ->
  Forall (fun hc => closure_binding (snd hc) = b) (handlers w !!! A).
Proof.
  intros HW. destruct (wired_handlers _ _ _ _ _ _ _ _ _ HW) as (ia & ib & -> & _).
  unfold back_handlers.
  destruct (decide (A = B)), (two_way L); repeat constructor.
Qed.

Lemma forall_closures_B w A B b L pa pb f g :
  Wired w A B b L pa pb f g ->
  Forall (fun hc => closure_binding (snd hc) = b) (handlers w !!! B).
Proof.
  intros HW. destruct (wired_handlers _ _ _ _ _ _ _ _ _ HW) as (ia & ib & _ & ->).
  unfold back_handlers.
  destruct (decide (A = B)), (two_way L); repeat constructor.
Qed.

(** One step of the setter: the value is stored; then [notify] is emitted
    to the handlers of the object, unless an emission for this property of
    this object is in progress. *)
Lemma set_property_in_step k em O name v w p obj :
  objects w !! O = Some obj ->
  g_object_class_find_property (g_class obj) name = Some p ->
  writable_now p = true ->
  g_object_set_property_in (S k) em (Some O) name v w
  = if emission_find em O name
    then Ok tt (poke O name v w)
    else g_signal_emit_notify (g_object_set_property_in k ((O, name) :: em)) k O p
           (poke O name v w).
Proof.
  intros Hobj Hfind Hw.
  pose proof (find_property_name _ _ _ Hfind) as Hname.
  cbn [g_object_set_property_in]. unfold bind at 1. unfold get_object at 1.
  rewrite Hobj, Hfind.
  unfold writable_now in Hw. rewrite Hw.
  unfold store_property, log, modify, bind, get_object. rewrite Hobj.
  cbv beta. rewrite Hname.
  change (set_trace (fun t => t ++ [EvSetProperty O name v])
            (set_objects (insert O
               (mkGObject (g_class obj) (<[name := v]> (g_properties obj)))) w))
    with (match Some obj with
          | Some obj =>
              set_trace (fun t => t ++ [EvSetProperty O name v])
                (set_objects (insert O
                   (mkGObject (g_class obj) (<[name := v]> (g_properties obj)))) w)
          | None => w
          end).
  rewrite <- Hobj. fold (poke O name v w).
  now destruct (emission_find em O name).
Qed.

(** The same for a call from outside every emission. *)
Lemma set_property_step k O name v w p obj :
  objects w !! O = Some obj ->
  g_object_class_find_property (g_class obj) name = Some p ->
  writable_now p = true ->
  g_object_set_property (S k) (Some O) name v w
  = g_signal_emit_notify (g_object_set_property_in k [(O, name)]) k O p
      (poke O name v w).
Proof.
  intros Hobj Hfind Hw. unfold g_object_set_property.
  now rewrite (set_property_in_step k [] O name v w p obj Hobj Hfind Hw).
Qed.

(** A property that cannot be written is left alone, silently. *)
Lemma set_property_in_not_writable k em O name v w p obj :
  objects w !! O = Some obj ->
  g_object_class_find_property (g_class obj) name = Some p ->
  writable_now p = false ->
  g_object_set_property_in (S k) em (Some O) name v w = Ok tt w.
Proof.
  intros Hobj Hfind Hw.
  cbn [g_object_set_property_in]. unfold bind at 1. unfold get_object at 1.
  rewrite Hobj, Hfind.
  unfold writable_now in Hw. now rewrite Hw.
Qed.

Lemma set_property_not_writable k O name v w p obj :
  objects w !! O = Some obj ->
  g_object_class_find_property (g_class obj) name = Some p ->
  writable_now p = false ->
  g_object_set_property (S k) (Some O) name v w = Ok tt w.
Proof. apply set_property_in_not_writable. Qed.

Local Arguments g_object_set_property_in : simpl never.
Local Arguments g_object_set_property : simpl never.

(** While the binding is frozen, a write to an object that only carries
    handlers of that binding stores the value and nothing else happens. *)
Lemma set_property_frozen k em O name v w p obj b L :
  objects w !! O = Some obj ->
  g_object_class_find_property (g_class obj) name = Some p ->
  writable_now p = true ->
  bindings w !! b = Some L -> is_frozen L = true ->
  Forall (fun hc => closure_binding (snd hc) = b) (handlers w !!! O) ->
  g_object_set_property_in (S k) em (Some O) name v w = Ok tt (poke O name v w).
Proof.
  intros Hobj Hfind Hw Hb Hfr Hall.
  erewrite set_property_in_step by eassumption.
  destruct (emission_find em O name); [reflexivity|].
  apply (emit_frozen _ _ _ _ b L).
  - now rewrite poke_bindings.
  - exact Hfr.
  - rewrite poke_handlers. exact Hall.
Qed.

Lemma thaw b L O name v w :
  bindings w !! b = Some L -> is_frozen L = false ->
  set_bindings (insert b (with_is_frozen false (with_is_frozen true L)))
    (poke O name v (set_bindings (insert b (with_is_frozen true L)) w))
  = poke O name v w.
Proof.
  intros Hb Hf.
  assert (HL : with_is_frozen false (with_is_frozen true L) = L).
  { destruct L. simpl in Hf. subst. reflexivity. }
  rewrite HL. unfold poke. simpl.
  destruct (objects w !! O); unfold_setters; simpl;
    rewrite insert_insert_eq, (insert_id _ _ _ Hb); now destruct w.
Qed.

Lemma intern_name pspec :
  (if has_flag (pspec_flags pspec) G_PARAM_STATIC_NAME
   then g_intern_static_string (pspec_name pspec)
   else g_intern_string (pspec_name pspec)) = pspec_name pspec.
Proof. now destruct (has_flag _ _). Qed.

Lemma get_property_run A name value w oa pa :
  objects w !! A = Some oa ->
  g_object_class_find_property (g_class oa) name = Some pa ->
  readable pa = true ->
  g_object_get_property (Some A) name value w
  = Ok (default value (peek w A name)) w.
Proof.
  intros Ho Hp Hr. unfold g_object_get_property, bind, get_object, ret, peek.
  rewrite Ho, Hp. unfold readable in Hr. rewrite Hr.
  now rewrite (find_property_name _ _ _ Hp).
Qed.

(** A source handler that finds its flag clear and its own property
    notified reads the source, transforms, and writes under the flag:
    in any world, with any setter. *)
Lemma on_source_notify_run sp gobject pspec b w L A oa pa pb f :
  bindings w !! b = Some L -> is_frozen L = false ->
  pspec_name pspec = source_property L ->
  source_pspec L = Some pa -> target_pspec L = Some pb -> transform_s2t L = Some f ->
  source L = Some A -> objects w !! A = Some oa ->
  g_object_class_find_property (g_class oa) (pspec_name pa) = Some pa ->
  readable pa = true ->
  on_source_notify sp gobject pspec b w
  = (let (res, tv) :=
       f b (default (g_value_init (G_PARAM_SPEC_VALUE_TYPE pa)) (peek w A (pspec_name pa)))
         (g_value_init (G_PARAM_SPEC_VALUE_TYPE pb)) (transform_data L) in
     if res
     then guarded sp b (target L) (pspec_name pb) (g_param_value_validate pb tv) w
     else Ok tt w).
Proof.
  intros Hb Hf Hname Hspa Hspb Hs2t Hsrc Ho Hp Hr.
  unfold on_source_notify. unfold bind at 1. unfold get_binding at 1.
  rewrite Hb, Hf, intern_name, Hname.
  rewrite String.eqb_refl. change (negb true) with false.
  rewrite Hspa, Hspb, Hs2t, Hsrc.
  cbv beta iota zeta. unfold bind at 1.
  rewrite (get_property_run A (pspec_name pa) _ w oa pa Ho Hp Hr).
  destruct (f b _ _ _) as [res tv]. destruct res; [|reflexivity].
  unfold guarded, assign, put_binding, modify, get_binding, bind.
  rewrite Hb. simpl. rewrite lookup_insert_eq. reflexivity.
Qed.

(** The same for the target handler. *)
Lemma on_target_notify_run sp gobject pspec b w L B ob pa pb g :
  bindings w !! b = Some L -> is_frozen L = false ->
  pspec_name pspec = target_property L ->
  source_pspec L = Some pa -> target_pspec L = Some pb -> transform_t2s L = Some g ->
  target L = Some B -> objects w !! B = Some ob ->
  g_object_class_find_property (g_class ob) (pspec_name pb) = Some pb ->
  readable pb = true ->
  on_target_notify sp gobject pspec b w
  = (let (res, tv) :=
       g b (default (g_value_init (G_PARAM_SPEC_VALUE_TYPE pb)) (peek w B (pspec_name pb)))
         (g_value_init (G_PARAM_SPEC_VALUE_TYPE pa)) (transform_data L) in
     if res
     then guarded sp b (source L) (pspec_name pa) (g_param_value_validate pa tv) w
     else Ok tt w).
Proof.
  intros Hb Hf Hname Hspa Hspb Ht2s Htgt Ho Hp Hr.
  unfold on_target_notify. unfold bind at 1. unfold get_binding at 1.
  rewrite Hb, Hf, intern_name, Hname.
  rewrite String.eqb_refl. change (negb true) with false.
  rewrite Hspa, Hspb, Ht2s, Htgt.
  cbv beta iota zeta. unfold bind at 1.
  rewrite (get_property_run B (pspec_name pb) _ w ob pb Ho Hp Hr).
  destruct (g b _ _ _) as [res tv]. destruct res; [|reflexivity].
  unfold guarded, assign, put_binding, modify, get_binding, bind.
  rewrite Hb. simpl. rewrite lookup_insert_eq. reflexivity.
Qed.

Lemma on_source_notify_guarded set_property gobject pspec w A B b L pa pb f g :
  Wired w A B b L pa pb f g ->
  pspec_name pspec = pspec_name pa ->
  on_source_notify set_property gobject pspec b w
  = (let source_value :=
       default (g_value_init (G_PARAM_SPEC_VALUE_TYPE pa)) (peek w A (pspec_name pa)) in
     let (res, target_value) :=
       f b source_value (g_value_init (G_PARAM_SPEC_VALUE_TYPE pb)) (transform_data L) in
     if res
     then guarded set_property b (Some B) (pspec_name pb)
            (g_param_value_validate pb target_value) w
     else Ok tt w).
Proof.
  intros HW Hname.
  pose proof HW as [Wbnd Wunf Wsrc Wtgt Wsp Wtp Wspec Wtpec Ws2t Wt2s WA WB Wdist Wra Wwb Wbi Wh].
  destruct WA as (oa & Hoa & Hfa).
  rewrite (on_source_notify_run set_property gobject pspec b w L A oa pa pb f)
    by (assumption || congruence).
  now rewrite Wtgt.
Qed.

Lemma on_target_notify_guarded set_property gobject pspec w A B b L pa pb f g :
  Wired w A B b L pa pb f g ->
  two_way L = true ->
  pspec_name pspec = pspec_name pb ->
  on_target_notify set_property gobject pspec b w
  = (let source_value :=
       default (g_value_init (G_PARAM_SPEC_VALUE_TYPE pb)) (peek w B (pspec_name pb)) in
     let (res, target_value) :=
       g b source_value (g_value_init (G_PARAM_SPEC_VALUE_TYPE pa)) (transform_data L) in
     if res
     then guarded set_property b (Some A) (pspec_name pa)
            (g_param_value_validate pa target_value) w
     else Ok tt w).
Proof.
  intros HW Hbi Hname.
  pose proof HW as [Wbnd Wunf Wsrc Wtgt Wsp Wtp Wspec Wtpec Ws2t Wt2s WA WB Wdist Wra Wwb Wbi Wh].
  destruct WB as (ob & Hob & Hfb). destruct (Wbi Hbi) as [_ Hrb].
  rewrite (on_target_notify_run set_property gobject pspec b w L B ob pa pb g)
    by (assumption || congruence).
  now rewrite Wsrc.
Qed.

(** The guarded write in a wired world, with the real setter. *)
Lemma guarded_write_wired k em O name v w A B b L pa pb f g p obj :
  Wired w A B b L pa pb f g ->
  O = A \/ O = B ->
  objects w !! O = Some obj ->
  g_object_class_find_property (g_class obj) name = Some p ->
  writable_now p = true ->
  guarded (g_object_set_property_in (S k) em) b (Some O) name v w
  = Ok tt (poke O name v w).
Proof.
  intros HW HO Hobj Hfind Hw.
  pose proof HW as [Wbnd Wunf Wsrc Wtgt Wsp Wtp Wspec Wtpec Ws2t Wt2s WA WB Wdist Wra Wwb Wbi Wh].
  unfold guarded, assign, put_binding, modify, get_binding, bind.
  rewrite Wbnd.
  erewrite (set_property_frozen k em O name v _ p obj b (with_is_frozen true L)).
  - rewrite poke_bindings. simpl. rewrite lookup_insert_eq. now rewrite thaw.
  - exact Hobj.
  - exact Hfind.
  - exact Hw.
  - simpl. apply lookup_insert_eq.
  - reflexivity.
  - simpl. destruct HO as [->| ->].
    + eapply forall_closures_A; eassumption.
    + eapply forall_closures_B; eassumption.
Qed.

(** The source handler in a wired world: one guarded write to the target. *)
Lemma on_source_notify_fires k em gobject pspec w A B b L pa pb f g :
  Wired w A B b L pa pb f g ->
  pspec_name pspec = pspec_name pa ->
  on_source_notify (g_object_set_property_in (S k) em) gobject pspec b w
  = Ok tt (forward A B b L pa pb f w).
Proof.
  intros HW Hname.
  rewrite (on_source_notify_guarded _ gobject pspec w A B b L pa pb f g HW Hname).
  unfold forward. cbv zeta.
  destruct (f b _ _ _) as [res tv]. destruct res; [|reflexivity].
  destruct (wired_B _ _ _ _ _ _ _ _ _ HW) as (ob & Hob & Hfb).
  eapply guarded_write_wired; try eassumption.
  - now right.
  - exact (wired_writable_target _ _ _ _ _ _ _ _ _ HW).
Qed.

(** The target handler of a bidirectional binding: one guarded write to the
    source. *)
Lemma on_target_notify_fires k em gobject pspec w A B b L pa pb f g :
  Wired w A B b L pa pb f g ->
  two_way L = true ->
  pspec_name pspec = pspec_name pb ->
  on_target_notify (g_object_set_property_in (S k) em) gobject pspec b w
  = Ok tt (backward A B b L pa pb g w).
Proof.
  intros HW Hbi Hname.
  rewrite (on_target_notify_guarded _ gobject pspec w A B b L pa pb f g HW Hbi Hname).
  unfold backward. cbv zeta.
  destruct (g b _ _ _) as [res tv]. destruct res; [|reflexivity].
  destruct (wired_A _ _ _ _ _ _ _ _ _ HW) as (oa & Hoa & Hfa).
  eapply guarded_write_wired; try eassumption.
  - now left.
  - exact (proj1 (wired_bidirectional _ _ _ _ _ _ _ _ _ HW Hbi)).
Qed.

Lemma wired_forward w A B b L pa pb f g :
  Wired w A B b L pa pb f g -> Wired (forward A B b L pa pb f w) A B b L pa pb f g.
Proof.
  intros HW. unfold forward. destruct (f b _ _ _) as [[] tv]; [|exact HW].
  now apply wired_poke.
Qed.

Lemma wired_backward w A B b L pa pb f g :
  Wired w A B b L pa pb f g -> Wired (backward A B b L pa pb g w) A B b L pa pb f g.
Proof.
  intros HW. unfold backward. destruct (g b _ _ _) as [[] tv]; [|exact HW].
  now apply wired_poke.
Qed.

(** Neither propagation makes the emission that caused it start over: the
    write goes to the other bound property. *)
Lemma forward_not_again w A B b L pa pb f g :
  Wired w A B b L pa pb f g ->
  notified_again A pa w (forward A B b L pa pb f w) = false.
Proof.
  intros HW. unfold forward. destruct (f b _ _ _) as [[] tv];
    [|apply notified_again_same].
  destruct (wired_B _ _ _ _ _ _ _ _ _ HW) as (ob & Hob & _).
  eapply notified_again_poke; [exact Hob|].
  intros E Hn. symmetry in E, Hn.
  exact (wired_distinct _ _ _ _ _ _ _ _ _ HW E Hn).
Qed.

Lemma backward_not_again w A B b L pa pb f g :
  Wired w A B b L pa pb f g ->
  notified_again B pb w (backward A B b L pa pb g w) = false.
Proof.
  intros HW. unfold backward. destruct (g b _ _ _) as [[] tv];
    [|apply notified_again_same].
  destruct (wired_A _ _ _ _ _ _ _ _ _ HW) as (oa & Hoa & _).
  eapply notified_again_poke; [exact Hoa|].
  exact (wired_distinct _ _ _ _ _ _ _ _ _ HW).
Qed.

(** An external write to the source property of a wired binding: the
    value is stored and propagated once. *)
Lemma external_write_source k v w A B b L pa pb f g :
  Wired w A B b L pa pb f g ->
  writable_now pa = true ->
  g_object_set_property (S (S k)) (Some A) (pspec_name pa) v w
  = Ok tt (forward A B b L pa pb f (poke A (pspec_name pa) v w)).
Proof.
  intros HW Hwa.
  destruct (wired_A _ _ _ _ _ _ _ _ _ HW) as (oa & Hoa & Hfa).
  erewrite set_property_step by eassumption.
  pose proof (wired_poke _ _ _ _ _ _ _ _ _ A (pspec_name pa) v HW) as HW1.
  pose proof (wired_forward _ _ _ _ _ _ _ _ _ HW1) as HW2.
  apply emit_notify_once.
  destruct (wired_handlers _ _ _ _ _ _ _ _ _ HW1) as (ia & ib & -> & _).
  erewrite emit_handlers_cons
    by (cbn [invoke]; eapply on_source_notify_fires; [exact HW1|reflexivity]).
  rewrite (forward_not_again _ _ _ _ _ _ _ _ _ HW1).
  apply emit_handlers_quiet.
  destruct (decide (A = B)) as [HAB|HAB]; [|constructor].
  unfold back_handlers. destruct (two_way L); constructor; [|constructor].
  cbn [snd invoke].
  apply (on_target_notify_other_name _ _ _ _ _ L (wired_binding _ _ _ _ _ _ _ _ _ HW2)).
  rewrite (wired_target_property _ _ _ _ _ _ _ _ _ HW).
  now apply (wired_distinct _ _ _ _ _ _ _ _ _ HW).
Qed.

(** An external write to the target property: propagated once when the
    binding is bidirectional, not at all otherwise. *)
Lemma external_write_target k v w A B b L pa pb f g :
  Wired w A B b L pa pb f g ->
  g_object_set_property (S (S k)) (Some B) (pspec_name pb) v w
  = Ok tt (if two_way L
           then backward A B b L pa pb g (poke B (pspec_name pb) v w)
           else poke B (pspec_name pb) v w).
Proof.
  intros HW.
  destruct (wired_B _ _ _ _ _ _ _ _ _ HW) as (ob & Hob & Hfb).
  pose proof (wired_writable_target _ _ _ _ _ _ _ _ _ HW) as Hwb.
  erewrite set_property_step by eassumption.
  pose proof (wired_poke _ _ _ _ _ _ _ _ _ B (pspec_name pb) v HW) as HW1.
  apply emit_notify_once.
  destruct (wired_handlers _ _ _ _ _ _ _ _ _ HW1) as (ia & ib & _ & ->).
  assert (Hskip : forall hs,
    g_signal_emit_handlers (g_object_set_property_in (S k) [(B, pspec_name pb)]) B pb
      ((if decide (A = B) then [(ia, OnSourceNotify b)] else []) ++ hs)
      (poke B (pspec_name pb) v w)
    = g_signal_emit_handlers (g_object_set_property_in (S k) [(B, pspec_name pb)]) B pb hs
        (poke B (pspec_name pb) v w)).
  { intros hs. destruct (decide (A = B)) as [HAB|HAB]; [|reflexivity].
    cbn [app]. erewrite emit_handlers_cons.
    - now rewrite notified_again_same.
    - cbn [invoke].
      apply (on_source_notify_other_name _ _ _ _ _ L
               (wired_binding _ _ _ _ _ _ _ _ _ HW1)).
      rewrite (wired_source_property _ _ _ _ _ _ _ _ _ HW).
      intros Heq. now apply (wired_distinct _ _ _ _ _ _ _ _ _ HW HAB). }
  rewrite Hskip. unfold back_handlers.
  destruct (two_way L) eqn:Hbi; [|reflexivity].
  erewrite emit_handlers_cons
    by (cbn [invoke]; eapply on_target_notify_fires;
        [exact HW1|exact Hbi|reflexivity]).
  now rewrite (backward_not_again _ _ _ _ _ _ _ _ _ HW1).
Qed.

Lemma writable_now_false pspec :
  writable_now pspec = true ->
  has_flag (pspec_flags pspec) G_PARAM_CONSTRUCT_ONLY
  || negb (has_flag (pspec_flags pspec) G_PARAM_WRITABLE) = false.
Proof.
  unfold writable_now. intros Hw. apply andb_true_iff in Hw. destruct Hw as [-> Hco].
  apply negb_true_iff in Hco. now rewrite Hco.
Qed.

Lemma bind_run w src sp tgt tp flags tto tfrom ud n so to pa pb :
  objects w !! src = Some so -> objects w !! tgt = Some to ->
  g_object_class_find_property (g_class so) sp = Some pa ->
  g_object_class_find_property (g_class to) tp = Some pb ->
  bool_decide (src = tgt) && String.eqb sp tp = false ->
  readable pa = true -> writable_now pb = true ->
  (has_flag flags G_BINDING_BIDIRECTIONAL = true ->
   writable_now pa = true /\ readable pb = true) ->
  match g_object_bind_property_full (Some src) sp (Some tgt) tp flags tto tfrom ud n w with
  | Ok r w1 =>
      r = inr (next_addr w)
      /\ (exists q c na,
          w1 = with_registry q c na
                 (bound_world w src tgt
                    (bound_binding w src tgt pa pb sp tp flags tto tfrom ud n) flags))
      /\ (registry_wf w -> registry_wf w1)
  | Crash => ~ registry_wf w
  | OutOfFuel => False
  end.
Proof.
  intros Hso Hto Hpa Hpb Hne Hra Hwb Hbi.
  destruct w as [objs bnds hs wr qd cells na hseq tr]. simpl in *.
  assert (Hne' : bool_decide (Some src = Some tgt) && (sp =? tp)%string = false).
  { rewrite <- Hne. f_equal. apply bool_decide_ext. split; congruence. }
  assert (Hwa : has_flag flags G_BINDING_BIDIRECTIONAL &&
          (has_flag (pspec_flags pa) G_PARAM_CONSTRUCT_ONLY
           || negb (has_flag (pspec_flags pa) G_PARAM_WRITABLE)) = false).
  { destruct (has_flag flags G_BINDING_BIDIRECTIONAL) eqn:Eb; [|reflexivity].
    destruct (Hbi eq_refl) as [Hw _]. now apply writable_now_false. }
  pose proof (writable_now_false _ Hwb) as Hwb'.
  assert (Hrb : has_flag flags G_BINDING_BIDIRECTIONAL
                && negb (has_flag (pspec_flags pb) G_PARAM_READABLE) = false).
  { destruct (has_flag flags G_BINDING_BIDIRECTIONAL) eqn:Eb; [|reflexivity].
    destruct (Hbi eq_refl) as [_ Hr]. unfold readable in Hr. now rewrite Hr. }
  unfold readable in Hra.
  unfold g_object_bind_property_full, g_object_new_binding, g_binding_constructed,
    g_assert, assign, put_binding, get_binding, g_signal_connect, g_object_weak_ref,
    g_intern_string, alloc, modify, bind, get_world, get_object, ret.
  repeat first
    [ progress simpl
    | rewrite Hso | rewrite Hto | rewrite Hne' | rewrite Hpa | rewrite Hpb
    | rewrite Hra | rewrite Hwa | rewrite Hwb' | rewrite Hrb
    | rewrite lookup_insert_eq ].
  unfold registry_wf. simpl qdata. simpl g_list_cells.
  match goal with
  | |- context [add_binding_qdata src na ?W] =>
      pose proof (add_binding_qdata_spec src na W) as Hf1;
      destruct (add_binding_qdata src na W) as [[] w1| |]
  end;
    unfold registry_wf in Hf1; simpl in Hf1; rewrite Hso in Hf1;
    specialize (Hf1 (ex_intro _ so eq_refl)); [|exact Hf1..].
  destruct Hf1 as [(q1 & c1 & n1 & ->) Hwf1]. simpl in Hwf1.
  unfold bound_world, bound_binding, bound_handlers, bound_weak_refs, bidirectional.
  destruct (has_flag (g_object_new_flags flags) G_BINDING_BIDIRECTIONAL) eqn:Eb;
    repeat first
      [ progress simpl
      | rewrite Hso | rewrite Hto
      | rewrite lookup_insert_eq ];
    match goal with
    | |- context [add_binding_qdata tgt na ?W] =>
        pose proof (add_binding_qdata_spec tgt na W) as Hf2;
        destruct (add_binding_qdata tgt na W) as [[] w2| |]
    end;
    unfold registry_wf in Hf2; simpl in Hf2; rewrite Hto in Hf2;
    specialize (Hf2 (ex_intro _ to eq_refl));
    try (intros Hwf; apply Hf2, Hwf1, Hwf);
    try (exact Hf2);
    destruct Hf2 as [(q2 & c2 & n2 & ->) Hwf2]; simpl in Hwf2;
    repeat first [ progress simpl | rewrite lookup_insert_eq ];
    (split; [reflexivity|]);
    (split; [|intros Hwf; apply Hwf2, Hwf1, Hwf]);
    exists q2, c2, n2;
    world_norm; rewrite ?insert_insert_eq; reflexivity.
Qed.

(** The last step of a successful request can only answer with the binding. *)
Lemma bind_tail_not_warning (m : M nat) (f : nat -> GBinding -> GBinding) w e w' :
  (let! binding := m in assign binding (f binding) ;> ret (inr binding)) w
  <> Ok (inl e : BindWarning + nat) w'.
Proof.
  unfold assign, get_binding, put_binding, modify, ret, bind. cbv beta. intros Hrun.
  destruct (m w) as [b w1| |]; simpl in Hrun; [|discriminate..].
  destruct (bindings w1 !! b); simpl in Hrun; discriminate.
Qed.

Theorem bind_failure_is_atomic source sp target tp flags tto tfrom ud n w e w' :
  g_object_bind_property_full source sp target tp flags tto tfrom ud n w
  = Ok (inl e) w' ->
  w' = w.
Proof.
  unfold g_object_bind_property_full.
  unfold bind at 1. unfold get_world.
  destruct source as [src|], target as [tgt|];
    try (unfold ret; intros [= _ <-]; reflexivity).
  destruct (negb _); [unfold ret; intros [= _ <-]; reflexivity|].
  destruct (_ && _); [unfold ret; intros [= _ <-]; reflexivity|].
  unfold bind at 1. unfold get_object at 1.
  destruct (objects w !! src) as [so|]; [|discriminate].
  destruct (g_object_class_find_property (g_class so) sp) as [pa|];
    [|unfold ret; intros [= _ <-]; reflexivity].
  destruct (negb _); [unfold ret; intros [= _ <-]; reflexivity|].
  destruct (_ && _); [unfold ret; intros [= _ <-]; reflexivity|].
  unfold bind at 1. unfold get_object at 1.
  destruct (objects w !! tgt) as [to|]; [|discriminate].
  destruct (g_object_class_find_property (g_class to) tp) as [pb|];
    [|unfold ret; intros [= _ <-]; reflexivity].
  destruct (_ || _); [unfold ret; intros [= _ <-]; reflexivity|].
  destruct (_ && _); [unfold ret; intros [= _ <-]; reflexivity|].
  intros Hrun. exfalso. revert Hrun.
  apply (bind_tail_not_warning _
           (fun _ => with_transforms (Some (default default_transform_to tto))
                       (Some (default default_transform_from tfrom)) ud n)).
Qed.

Lemma bind_rejects w src sp tgt tp flags tto tfrom ud n so to :
  objects w !! src = Some so -> objects w !! tgt = Some to ->
  bind_preconditions so to src sp tgt tp flags = false ->
  exists e, g_object_bind_property_full (Some src) sp (Some tgt) tp flags tto tfrom ud n w
            = Ok (inl e) w.
Proof.
  intros Hso Hto.
  unfold bind_preconditions, g_object_bind_property_full, bind, get_world, get_object, ret.
  simpl. rewrite Hso, Hto. simpl.
  replace (bool_decide (Some src = Some tgt)) with (bool_decide (src = tgt)).
  2:{ apply bool_decide_ext. split; congruence. }
  destruct (bool_decide (src = tgt) && (sp =? tp)%string) eqn:Esame; [eauto|].
  rewrite Hso.
  destruct (g_object_class_find_property (g_class so) sp) as [pa|]; [|eauto].
  unfold readable, writable_now.
  destruct (has_flag (pspec_flags pa) G_PARAM_READABLE); simpl; [|eauto].
  destruct (has_flag flags G_BINDING_BIDIRECTIONAL) eqn:Eb; simpl.
  - destruct (has_flag (pspec_flags pa) G_PARAM_CONSTRUCT_ONLY),
             (has_flag (pspec_flags pa) G_PARAM_WRITABLE); simpl; eauto;
      rewrite Hto;
      (destruct (g_object_class_find_property (g_class to) tp) as [pb|]; [|eauto]);
      destruct (has_flag (pspec_flags pb) G_PARAM_CONSTRUCT_ONLY),
               (has_flag (pspec_flags pb) G_PARAM_WRITABLE),
               (has_flag (pspec_flags pb) G_PARAM_READABLE); simpl; eauto; discriminate.
  - rewrite Hto.
    destruct (g_object_class_find_property (g_class to) tp) as [pb|]; [|eauto].
    destruct (has_flag (pspec_flags pb) G_PARAM_CONSTRUCT_ONLY),
             (has_flag (pspec_flags pb) G_PARAM_WRITABLE); simpl; eauto; discriminate.
Qed.


Lemma bind_dead w src sp tgt tp flags tto tfrom ud n :
  objects w !! src = None \/ objects w !! tgt = None ->
  g_object_bind_property_full (Some src) sp (Some tgt) tp flags tto tfrom ud n w
  = Ok (inl PreconditionFailed) w.
Proof.
  intros Hdead.
  unfold g_object_bind_property_full, bind, get_world, G_IS_OBJECT.
  destruct Hdead as [Hd|Hd]; rewrite Hd.
  - rewrite bool_decide_eq_false_2; [reflexivity|]. intros [? ?]. discriminate.
  - rewrite (bool_decide_eq_false_2 (is_Some None)); [|intros [? ?]; discriminate].
    now rewrite andb_false_r.
Qed.

(** A returned binding means that every check of
    [g_object_bind_property_full] passed. *)
Lemma bind_success_preconditions w src sp tgt tp fl tto tfrom ud n b w1 :
  g_object_bind_property_full (Some src) sp (Some tgt) tp fl tto tfrom ud n w
  = Ok (inr b) w1 ->
  exists so to pa pb,
    objects w !! src = Some so /\ objects w !! tgt = Some to
    /\ g_object_class_find_property (g_class so) sp = Some pa
    /\ g_object_class_find_property (g_class to) tp = Some pb
    /\ bool_decide (src = tgt) && String.eqb sp tp = false
    /\ readable pa = true /\ writable_now pb = true
    /\ (has_flag fl G_BINDING_BIDIRECTIONAL = true ->
        writable_now pa = true /\ readable pb = true).
Proof.
  intros Hrun.
  destruct (objects w !! src) as [oa|] eqn:HA;
    [|rewrite bind_dead in Hrun by (now left); discriminate].
  destruct (objects w !! tgt) as [ob|] eqn:HB;
    [|rewrite bind_dead in Hrun by (now right); discriminate].
  destruct (bind_preconditions oa ob src sp tgt tp fl) eqn:Hpre.
  2:{ destruct (bind_rejects w src sp tgt tp fl tto tfrom ud n oa ob HA HB Hpre) as [e He].
      congruence. }
  unfold bind_preconditions in Hpre.
  destruct (g_object_class_find_property (g_class oa) sp) as [pa|] eqn:Hpa; [|discriminate].
  destruct (g_object_class_find_property (g_class ob) tp) as [pb|] eqn:Hpb; [|discriminate].
  apply andb_true_iff in Hpre. destruct Hpre as [Hpre Hbi].
  apply andb_true_iff in Hpre. destruct Hpre as [Hpre Hwb].
  apply andb_true_iff in Hpre. destruct Hpre as [Hne Hra].
  apply negb_true_iff in Hne.
  exists oa, ob, pa, pb. repeat split; try assumption.
  - rewrite H0 in Hbi. simpl in Hbi. now apply andb_true_iff in Hbi.
  - rewrite H0 in Hbi. simpl in Hbi. now apply andb_true_iff in Hbi.
Qed.

(** A successful request leaves a wired world. *)
Lemma bind_wired w0 A x B y flags tto tfrom ud n b w1 :
  g_object_bind_property_full (Some A) x (Some B) y flags tto tfrom ud n w0
  = Ok (inr b) w1 ->
  handlers w0 !!! A = [] -> handlers w0 !!! B = [] ->
  exists L pa pb,
    Wired w1 A B b L pa pb
      (default default_transform_to tto) (default default_transform_from tfrom)
    /\ L = bound_binding w0 A B pa pb x y flags tto tfrom ud n
    /\ pspec_name pa = x /\ pspec_name pb = y
    /\ b = next_addr w0
    /\ objects w1 = objects w0 /\ trace w1 = trace w0
    /\ handlers w1 = bound_handlers w0 A B flags.
Proof.
  intros Hrun HhA HhB.
  destruct (objects w0 !! A) as [oa|] eqn:HA;
    [|rewrite bind_dead in Hrun by (now left); discriminate].
  destruct (objects w0 !! B) as [ob|] eqn:HB;
    [|rewrite bind_dead in Hrun by (now right); discriminate].
  destruct (bind_preconditions oa ob A x B y flags) eqn:Hpre.
  2:{ destruct (bind_rejects w0 A x B y flags tto tfrom ud n oa ob HA HB Hpre) as [e He].
      congruence. }
  unfold bind_preconditions in Hpre.
  destruct (g_object_class_find_property (g_class oa) x) as [pa|] eqn:Hpa; [|discriminate].
  destruct (g_object_class_find_property (g_class ob) y) as [pb|] eqn:Hpb; [|discriminate].
  apply andb_true_iff in Hpre. destruct Hpre as [Hpre Hbi].
  apply andb_true_iff in Hpre. destruct Hpre as [Hpre Hwb].
  apply andb_true_iff in Hpre. destruct Hpre as [Hne Hra].
  apply negb_true_iff in Hne.
  assert (Hbi' : has_flag flags G_BINDING_BIDIRECTIONAL = true ->
                 writable_now pa = true /\ readable pb = true).
  { intros Hb. rewrite Hb in Hbi. simpl in Hbi. now apply andb_true_iff in Hbi. }
  pose proof (bind_run w0 A x B y flags tto tfrom ud n oa ob pa pb
                HA HB Hpa Hpb Hne Hra Hwb Hbi') as Hspec.
  rewrite Hrun in Hspec. destruct Hspec as (Hb & (q & c & n1 & ->) & _).
  injection Hb as ->.
  pose proof (find_property_name _ _ _ Hpa) as Hna.
  pose proof (find_property_name _ _ _ Hpb) as Hnb.
  exists (bound_binding w0 A B pa pb x y flags tto tfrom ud n), pa, pb.
  split; [|repeat split; assumption].
  constructor; simpl; try reflexivity; try assumption; try congruence.
  - apply lookup_insert_eq.
  - exists oa. split; [exact HA|]. now rewrite Hna.
  - exists ob. split; [exact HB|]. now rewrite Hnb.
  - intros HAB. rewrite Hna, Hnb. intros Hxy.
    rewrite bool_decide_eq_true_2 in Hne by exact HAB.
    apply String.eqb_eq in Hxy. rewrite Hxy in Hne. discriminate.
  - intros Hb. apply Hbi'. now apply bidirectional_requested.
  - exists (Z.pos (handler_seq w0)), (Z.pos (Pos.succ (handler_seq w0))).
    unfold bound_handlers, back_handlers, two_way. simpl.
    fold (bidirectional flags).
    destruct (bidirectional flags), (decide (A = B)) as [<-|HAB];
      rewrite ?lookup_total_insert_eq, ?HhA; split; try reflexivity.
    + rewrite lookup_total_insert_ne by congruence.
      now rewrite lookup_total_insert_eq.
    + rewrite lookup_total_insert_ne by exact HAB. now rewrite HhB.
    + rewrite lookup_total_insert_ne by exact HAB. now rewrite HhB.
Qed.





End Propagation.

(** ** Construction: when a binding is made *)

Lemma registry_wf_empty w : qdata w = ∅ -> g_list_cells w = ∅ -> registry_wf w.
Proof.
  intros Hq Hc. unfold registry_wf, registry_ok, cells_closed. rewrite Hq, Hc. split.
  - intros o p Hp. now rewrite lookup_empty in Hp.
  - intros p c pp Hp. now rewrite lookup_empty in Hp.
Qed.

Section Claims.
Context `{GTypeSystem}.
Local Arguments g_object_set_property : simpl never.

(** C7: a request that fails leaves no trace.  Whatever the arguments,
    when [g_object_bind_property_full] answers with a warning the world
    after the call is the world before it: no binding, no handler, no
    destruction hook and no registry entry has been made; and a request
    between two live objects that misses a validation precondition does
    answer with a warning. *)
Theorem bind_failure_leaves_world_untouched
    (source : option nat) (source_property : string)
    (target : option nat) (target_property : string) (flags : Z)
    (transform_to transform_from : option GBindingTransformFunc)
    (user_data : gpointer) (notify : option nat) (w : World) :
  (forall e w',
     g_object_bind_property_full source source_property target target_property flags
       transform_to transform_from user_data notify w = Ok (inl e) w' ->
     w' = w)
  /\ (forall src tgt src_obj tgt_obj,
        source = Some src -> target = Some tgt ->
        objects w !! src = Some src_obj -> objects w !! tgt = Some tgt_obj ->
        bind_preconditions src_obj tgt_obj src source_property tgt target_property flags
        = false ->
        exists e,
          g_object_bind_property_full source source_property target target_property flags
            transform_to transform_from user_data notify w = Ok (inl e) w).
Proof.
  split.
  - intros e w'. apply bind_failure_is_atomic.
  - intros src tgt so to -> -> Hso Hto Hpre. now apply bind_rejects with so to.
Qed.

(** On a registry without dangling pointers a binding is returned exactly
    when the validation preconditions hold: for two live objects the request
    returns a new, live binding when [bind_preconditions] holds, and a
    warning and the unchanged world when it does not.  The registry is not
    always of that kind: see [bind_with_preconditions_reads_freed_cell]. *)
Theorem bind_returns_link_iff_preconditions
    (w : World) (src : nat) (source_property : string)
    (tgt : nat) (target_property : string) (flags : Z)
    (transform_to transform_from : option GBindingTransformFunc)
    (user_data : gpointer) (notify : option nat) (src_obj tgt_obj : GObject) :
  objects w !! src = Some src_obj -> objects w !! tgt = Some tgt_obj ->
  registry_wf w ->
  (bind_preconditions src_obj tgt_obj src source_property tgt target_property flags = true ->
   exists binding w1,
     g_object_bind_property_full (Some src) source_property (Some tgt) target_property
       flags transform_to transform_from user_data notify w = Ok (inr binding) w1
     /\ is_Some (bindings w1 !! binding))
  /\ (bind_preconditions src_obj tgt_obj src source_property tgt target_property flags
      = false ->
      exists e,
        g_object_bind_property_full (Some src) source_property (Some tgt) target_property
          flags transform_to transform_from user_data notify w = Ok (inl e) w).
Proof.
  intros Hso Hto Hwf. split; intros Hpre.
  - unfold bind_preconditions in Hpre.
    destruct (g_object_class_find_property (g_class src_obj) source_property)
      as [pa|] eqn:Hpa; [|discriminate].
    destruct (g_object_class_find_property (g_class tgt_obj) target_property)
      as [pb|] eqn:Hpb; [|discriminate].
    apply andb_true_iff in Hpre. destruct Hpre as [Hpre Hbi].
    apply andb_true_iff in Hpre. destruct Hpre as [Hpre Hwb].
    apply andb_true_iff in Hpre. destruct Hpre as [Hne Hra].
    apply negb_true_iff in Hne.
    assert (Hbi' : has_flag flags G_BINDING_BIDIRECTIONAL = true ->
                   writable_now pa = true /\ readable pb = true).
    { intros Hb. rewrite Hb in Hbi. simpl in Hbi. now apply andb_true_iff in Hbi. }
    pose proof (bind_run w src source_property tgt target_property flags
                  transform_to transform_from user_data notify src_obj tgt_obj pa pb
                  Hso Hto Hpa Hpb Hne Hra Hwb Hbi') as Hspec.
    destruct (g_object_bind_property_full _ _ _ _ _ _ _ _ _ w) as [r w1| |].
    + destruct Hspec as (-> & (q & c & n1 & ->) & _).
      exists (next_addr w). eexists. split; [reflexivity|].
      simpl. rewrite lookup_insert_eq. eauto.
    + now destruct Hspec.
    + destruct Hspec.
  - now apply bind_rejects with src_obj tgt_obj.
Qed.

End Claims.

(** ** A binding at work *)

Section BoundLink.
Context `{GTypeSystem}.
Local Arguments g_object_set_property : simpl never.

Variables (w0 w1 : World) (A B b : nat) (x y : string) (fl : Z).
Variables (transform_to transform_from : option GBindingTransformFunc).
Variables (user_data : gpointer) (destroy : option nat).
Variables (oa ob : GObject) (pa pb : GParamSpec).

Hypothesis Hbind :
  g_object_bind_property_full (Some A) x (Some B) y fl transform_to transform_from
    user_data destroy w0 = Ok (inr b) w1.
Hypothesis HhA : handlers w0 !!! A = [].
Hypothesis HhB : handlers w0 !!! B = [].
Hypothesis HoA : objects w0 !! A = Some oa.
Hypothesis HoB : objects w0 !! B = Some ob.
Hypothesis Hpa : g_object_class_find_property (g_class oa) x = Some pa.
Hypothesis Hpb : g_object_class_find_property (g_class ob) y = Some pb.

Let f := default default_transform_to transform_to.
Let g := default default_transform_from transform_from.
Let L := bound_binding w0 A B pa pb x y fl transform_to transform_from user_data destroy.

Lemma link_wired : Wired w1 A B b L pa pb f g.
Proof.
  destruct (bind_wired _ _ _ _ _ _ _ _ _ _ _ _ Hbind HhA HhB)
    as (L' & pa' & pb' & HW & HL & Hx & Hy & Hb & Hobj & Htr & Hh).
  destruct (wired_A _ _ _ _ _ _ _ _ _ HW) as (oa' & Hoa' & Hfa).
  destruct (wired_B _ _ _ _ _ _ _ _ _ HW) as (ob' & Hob' & Hfb).
  rewrite Hobj in Hoa', Hob'. rewrite HoA in Hoa'. rewrite HoB in Hob'.
  injection Hoa' as <-. injection Hob' as <-.
  rewrite Hx, Hpa in Hfa. rewrite Hy, Hpb in Hfb.
  injection Hfa as <-. injection Hfb as <-.
  subst L'. exact HW.
Qed.

Lemma link_names : pspec_name pa = x /\ pspec_name pb = y.
Proof. split; eapply find_property_name; eassumption. Qed.

Lemma link_direction : two_way L = bidirectional fl.
Proof. reflexivity. Qed.

Lemma written_wired w : written_from A B x y w1 w -> Wired w A B b L pa pb f g.
Proof.
  destruct link_names as [Hx Hy].
  induction 1 as [|k v w w' _ IH Hrun|k v w w' _ IH Hrun].
  - exact link_wired.
  - destruct (writable_now pa) eqn:Hwa.
    + rewrite <- Hx in Hrun. rewrite (external_write_source _ _ _ _ _ _ _ _ _ _ _ IH Hwa) in Hrun.
      injection Hrun as <-. now apply wired_forward, wired_poke.
    + destruct (wired_A _ _ _ _ _ _ _ _ _ IH) as (oa' & Hoa' & Hfa).
      rewrite <- Hx in Hrun.
      rewrite (set_property_not_writable _ _ _ _ _ _ _ Hoa' Hfa Hwa) in Hrun.
      now injection Hrun as <-.
  - rewrite <- Hy in Hrun. rewrite (external_write_target _ _ _ _ _ _ _ _ _ _ _ IH) in Hrun.
    injection Hrun as <-.
    destruct (two_way L); [apply wired_backward|]; now apply wired_poke.
Qed.


Lemma distinct_ends : A = B -> x <> y.
Proof.
  destruct link_names as [Hx Hy]. rewrite <- Hx, <- Hy.
  exact (wired_distinct _ _ _ _ _ _ _ _ _ link_wired).
Qed.

(** The forward propagation once the value just written is known. *)
Lemma forward_after_poke w v :
  Wired w A B b L pa pb f g ->
  forward A B b L pa pb f (poke A x v w)
  = (let (res, tv) :=
       f b v (g_value_init (G_PARAM_SPEC_VALUE_TYPE pb)) user_data in
     if res then poke B y (g_param_value_validate pb tv) (poke A x v w)
     else poke A x v w).
Proof.
  intros HW. destruct link_names as [Hx Hy].
  destruct (wired_A _ _ _ _ _ _ _ _ _ HW) as (oa' & Hoa' & _).
  unfold forward. rewrite Hx, Hy, (peek_poke_same _ _ _ _ _ Hoa'). reflexivity.
Qed.

Lemma backward_after_poke w v :
  Wired w A B b L pa pb f g ->
  backward A B b L pa pb g (poke B y v w)
  = (let (res, tv) :=
       g b v (g_value_init (G_PARAM_SPEC_VALUE_TYPE pa)) user_data in
     if res then poke A x (g_param_value_validate pa tv) (poke B y v w)
     else poke B y v w).
Proof.
  intros HW. destruct link_names as [Hx Hy].
  destruct (wired_B _ _ _ _ _ _ _ _ _ HW) as (ob' & Hob' & _).
  unfold backward. rewrite Hx, Hy, (peek_poke_same _ _ _ _ _ Hob'). reflexivity.
Qed.

Lemma live_A w : Wired w A B b L pa pb f g -> exists o, objects w !! A = Some o.
Proof. intros HW. destruct (wired_A _ _ _ _ _ _ _ _ _ HW) as (o & Ho & _). eauto. Qed.

Lemma live_B w : Wired w A B b L pa pb f g -> exists o, objects w !! B = Some o.
Proof. intros HW. destruct (wired_B _ _ _ _ _ _ _ _ _ HW) as (o & Ho & _). eauto. Qed.

Lemma write_source w k v :
  Wired w A B b L pa pb f g -> writable_now pa = true ->
  g_object_set_property (S (S k)) (Some A) x v w
  = Ok tt (forward A B b L pa pb f (poke A x v w)).
Proof.
  intros HW Hwa. pose proof (external_write_source k v _ _ _ _ _ _ _ _ _ HW Hwa) as Hrun.
  destruct link_names as [Hx _]. now rewrite Hx in Hrun.
Qed.


Lemma write_target w k v :
  Wired w A B b L pa pb f g ->
  g_object_set_property (S (S k)) (Some B) y v w
  = Ok tt (if bidirectional fl
           then backward A B b L pa pb g (poke B y v w)
           else poke B y v w).
Proof.
  intros HW. pose proof (external_write_target k v _ _ _ _ _ _ _ _ _ HW) as Hrun.
  destruct link_names as [_ Hy]. rewrite Hy in Hrun. exact Hrun.
Qed.



Lemma binding_unfrozen w :
  Wired w A B b L pa pb f g ->
  exists L', bindings w !! b = Some L' /\ is_frozen L' = false.
Proof.
  intros HW. exists L. split.
  - exact (wired_binding _ _ _ _ _ _ _ _ _ HW).
  - exact (wired_unfrozen _ _ _ _ _ _ _ _ _ HW).
Qed.

(** C4: a transformation that reports failure.  In any world, a handler
    whose transformation reports failure returns and leaves the world as it
    is.  And in every world reached from a fresh binding by external writes,
    a write whose transformation reports failure stores the written value
    and nothing else: the opposite property keeps its value, the only
    recorded write is the external one, the binding is still there with its
    flag cleared, and the next write whose transformation succeeds is
    propagated.  Both directions. *)
Theorem transform_failure_is_contained (w : World) :
  written_from A B x y w1 w ->
  (forall set_property gobject pspec w' L' pa' pb' f' g' sv,
      bindings w' !! b = Some L' ->
      source_pspec L' = Some pa' -> target_pspec L' = Some pb' ->
      transform_s2t L' = Some f' -> transform_t2s L' = Some g' ->
      (g_object_get_property (source L') (pspec_name pa')
         (g_value_init (G_PARAM_SPEC_VALUE_TYPE pa')) w' = Ok sv w' ->
       fst (f' b sv (g_value_init (G_PARAM_SPEC_VALUE_TYPE pb')) (transform_data L'))
       = false ->
       on_source_notify set_property gobject pspec b w' = Ok tt w')
      /\ (g_object_get_property (target L') (pspec_name pb')
            (g_value_init (G_PARAM_SPEC_VALUE_TYPE pb')) w' = Ok sv w' ->
          fst (g' b sv (g_value_init (G_PARAM_SPEC_VALUE_TYPE pa')) (transform_data L'))
          = false ->
          on_target_notify set_property gobject pspec b w' = Ok tt w'))
  /\ (forall k v,
      writable_now pa = true ->
      fst (f b v (g_value_init (G_PARAM_SPEC_VALUE_TYPE pb)) user_data) = false ->
      g_object_set_property (S (S k)) (Some A) x v w = Ok tt (poke A x v w)
      /\ peek (poke A x v w) B y = peek w B y
      /\ trace (poke A x v w) = trace w ++ [EvSetProperty A x v]
      /\ (exists L', bindings (poke A x v w) !! b = Some L' /\ is_frozen L' = false)
      /\ written_from A B x y w1 (poke A x v w)
      /\ (forall k' v' tv',
            f b v' (g_value_init (G_PARAM_SPEC_VALUE_TYPE pb)) user_data = (true, tv') ->
            exists w3,
              g_object_set_property (S (S k')) (Some A) x v' (poke A x v w) = Ok tt w3
              /\ peek w3 B y = Some (g_param_value_validate pb tv')))
  /\ (bidirectional fl = true ->
      forall k v,
        fst (g b v (g_value_init (G_PARAM_SPEC_VALUE_TYPE pa)) user_data) = false ->
        g_object_set_property (S (S k)) (Some B) y v w = Ok tt (poke B y v w)
        /\ peek (poke B y v w) A x = peek w A x
        /\ trace (poke B y v w) = trace w ++ [EvSetProperty B y v]
        /\ (exists L', bindings (poke B y v w) !! b = Some L' /\ is_frozen L' = false)
        /\ written_from A B x y w1 (poke B y v w)
        /\ (forall k' v' tv',
              g b v' (g_value_init (G_PARAM_SPEC_VALUE_TYPE pa)) user_data = (true, tv') ->
              exists w3,
                g_object_set_property (S (S k')) (Some B) y v' (poke B y v w) = Ok tt w3
                /\ peek w3 A x = Some (g_param_value_validate pa tv'))).
Proof.
  intros Hreach. pose proof (written_wired w Hreach) as HW.
  destruct (live_A w HW) as [oa' Hoa']. destruct (live_B w HW) as [ob' Hob'].
  split; [|split].
  - intros sp gobject pspec w' L' pa' pb' f' g' sv Hb Hspa Hspb Hf Hg. split.
    + intros Hget Hfail. eapply on_source_notify_declined; eassumption.
    + intros Hget Hfail. eapply on_target_notify_declined; eassumption.
  - intros k v Hwa Hfail.
    assert (Hrun : g_object_set_property (S (S k)) (Some A) x v w = Ok tt (poke A x v w)).
    { rewrite (write_source w k v HW Hwa), (forward_after_poke w v HW).
      destruct (f b v _ user_data) as [res tv]. simpl in Hfail. now subst res. }
    assert (Hreach' : written_from A B x y w1 (poke A x v w)).
    { eapply written_source; eassumption. }
    pose proof (written_wired _ Hreach') as HW'.
    split; [exact Hrun|]. split; [|split; [|split; [|split]]].
    + apply peek_poke_other. intros HAB. now apply distinct_ends.
    + eapply poke_trace; eassumption.
    + now apply binding_unfrozen.
    + exact Hreach'.
    + intros k' v' tv' Hok.
      rewrite (write_source _ k' v' HW' Hwa), (forward_after_poke _ v' HW'), Hok.
      eexists. split; [reflexivity|].
      destruct (live_B _ (wired_poke _ _ _ _ _ _ _ _ _ A x v' HW')) as [ob2 Hob2].
      eapply peek_poke_same; eassumption.
  - intros Hbi k v Hfail.
    assert (Hrun : g_object_set_property (S (S k)) (Some B) y v w = Ok tt (poke B y v w)).
    { rewrite (write_target w k v HW), Hbi, (backward_after_poke w v HW).
      destruct (g b v _ user_data) as [res tv]. simpl in Hfail. now subst res. }
    assert (Hreach' : written_from A B x y w1 (poke B y v w)).
    { eapply written_target; eassumption. }
    pose proof (written_wired _ Hreach') as HW'.
    split; [exact Hrun|]. split; [|split; [|split; [|split]]].
    + apply peek_poke_other. intros HBA Hyx. symmetry in HBA, Hyx.
      now apply (distinct_ends HBA).
    + eapply poke_trace; eassumption.
    + now apply binding_unfrozen.
    + exact Hreach'.
    + intros k' v' tv' Hok.
      rewrite (write_target _ k' v' HW'), Hbi, (backward_after_poke _ v' HW'), Hok.
      eexists. split; [reflexivity|].
      destruct (live_A _ (wired_poke _ _ _ _ _ _ _ _ _ B y v' HW')) as [oa2 Hoa2].
      eapply peek_poke_same; eassumption.
Qed.


End BoundLink.

(** ** The guard flag *)

Section GuardFlag.
Context `{GTypeSystem}.

Variables (w0 w1 : World) (A B b : nat) (x y : string) (fl : Z).
Variables (transform_to transform_from : option GBindingTransformFunc).
Variables (user_data : gpointer) (destroy : option nat).
Variables (oa ob : GObject) (pa pb : GParamSpec).

Hypothesis Hbind :
  g_object_bind_property_full (Some A) x (Some B) y fl transform_to transform_from
    user_data destroy w0 = Ok (inr b) w1.
Hypothesis HoA : objects w0 !! A = Some oa.
Hypothesis HoB : objects w0 !! B = Some ob.
Hypothesis Hpa : g_object_class_find_property (g_class oa) x = Some pa.
Hypothesis Hpb : g_object_class_find_property (g_class ob) y = Some pb.

Let f := default default_transform_to transform_to.
Let g := default default_transform_from transform_from.
Let L := bound_binding w0 A B pa pb x y fl transform_to transform_from user_data destroy.


End GuardFlag.

(** ** Teardown of a binding between two distinct, fresh endpoints

    The endpoints have no registry entry, no handlers and no weak references
    before the call, so the world after [g_object_bind_property_full] is
    known explicitly and the destruction of either endpoint can be run. *)

Section FreshLink.
Context `{GTypeSystem}.

(** The world after a successful bind between two distinct objects
    without registry entries, written out. *)
Lemma bind_run_fresh w src sp tgt tp fl tto tfrom ud n so to pa pb :
  objects w !! src = Some so -> objects w !! tgt = Some to ->
  g_object_class_find_property (g_class so) sp = Some pa ->
  g_object_class_find_property (g_class to) tp = Some pb ->
  bool_decide (src = tgt) && String.eqb sp tp = false ->
  readable pa = true -> writable_now pb = true ->
  (has_flag fl G_BINDING_BIDIRECTIONAL = true ->
   writable_now pa = true /\ readable pb = true) ->
  src <> tgt -> qdata w !! src = None -> qdata w !! tgt = None ->
  g_object_bind_property_full (Some src) sp (Some tgt) tp fl tto tfrom ud n w
  = Ok (inr (next_addr w))
      (fresh_registry w src tgt
         (bound_world w src tgt
            (bound_binding w src tgt pa pb sp tp fl tto tfrom ud n) fl)).
Proof.
  intros Hso Hto Hpa Hpb Hne Hra Hwb Hbi Hst HqA HqB.
  destruct w as [objs bnds hs wr qd cells na hseq tr]. simpl in *.
  assert (Hne' : bool_decide (Some src = Some tgt) && (sp =? tp)%string = false).
  { rewrite <- Hne. f_equal. apply bool_decide_ext. split; congruence. }
  assert (Hwa : has_flag fl G_BINDING_BIDIRECTIONAL &&
          (has_flag (pspec_flags pa) G_PARAM_CONSTRUCT_ONLY
           || negb (has_flag (pspec_flags pa) G_PARAM_WRITABLE)) = false).
  { destruct (has_flag fl G_BINDING_BIDIRECTIONAL) eqn:Eb; [|reflexivity].
    destruct (Hbi eq_refl) as [Hw _]. now apply writable_now_false. }
  pose proof (writable_now_false _ Hwb) as Hwb'.
  assert (Hrb : has_flag fl G_BINDING_BIDIRECTIONAL
                && negb (has_flag (pspec_flags pb) G_PARAM_READABLE) = false).
  { destruct (has_flag fl G_BINDING_BIDIRECTIONAL) eqn:Eb; [|reflexivity].
    destruct (Hbi eq_refl) as [_ Hr]. unfold readable in Hr. now rewrite Hr. }
  assert (HqB' : forall p, <[src := p]> qd !! tgt = None).
  { intros p. now rewrite lookup_insert_ne. }
  unfold readable in Hra.
  unfold g_object_bind_property_full, g_object_new_binding, g_binding_constructed,
    add_binding_qdata, g_object_get_qdata, g_object_set_qdata, g_list_prepend,
    store_cell, g_assert, assign, put_binding, get_binding, g_signal_connect,
    g_object_weak_ref, g_intern_string, alloc, modify, bind, get_world, get_object, ret.
  unfold fresh_registry, bound_world, bound_binding, bound_handlers,
    bound_weak_refs, bidirectional.
  destruct (has_flag (g_object_new_flags fl) G_BINDING_BIDIRECTIONAL) eqn:Eb;
    repeat first
      [ progress simpl
      | rewrite Hso | rewrite Hto | rewrite Hne' | rewrite Hpa | rewrite Hpb
      | rewrite Hra | rewrite Hwb'
      | progress rewrite Hwa | progress rewrite Hrb
      | rewrite HqA | rewrite HqB' | rewrite Eb
      | rewrite lookup_insert_eq ];
    world_norm; rewrite ?insert_insert_eq; reflexivity.
Qed.


Section Teardown.
Variables (w0 w1 : World) (A B : nat) (x y : string) (fl : Z).
Variables (tto tfrom : option GBindingTransformFunc) (ud : gpointer).
Variables (destroy : option nat) (b : nat).
Hypothesis Hrun :
  g_object_bind_property_full (Some A) x (Some B) y fl tto tfrom ud destroy w0
  = Ok (inr b) w1.
Hypothesis HAB : A <> B.
Hypothesis HhA : handlers w0 !!! A = [].
Hypothesis HhB : handlers w0 !!! B = [].
Hypothesis HwA : weak_refs w0 !!! A = [].
Hypothesis HwB : weak_refs w0 !!! B = [].
Hypothesis HqA : qdata w0 !! A = None.
Hypothesis HqB : qdata w0 !! B = None.

(** The binding sits at the first free address and the world is the
    explicit one. *)
Lemma fresh_bind_world :
  exists so to pa pb,
    objects w0 !! A = Some so /\ objects w0 !! B = Some to /\ b = next_addr w0
    /\ w1 = fresh_registry w0 A B
              (bound_world w0 A B
                 (bound_binding w0 A B pa pb x y fl tto tfrom ud destroy) fl).
Proof.
  destruct (bind_success_preconditions _ _ _ _ _ _ _ _ _ _ _ _ Hrun)
    as (so & to & pa & pb & Hso & Hto & Hpa & Hpb & Hne & Hra & Hwb & Hbi).
  exists so, to, pa, pb.
  pose proof Hrun as Hrun'.
  rewrite (bind_run_fresh w0 A x B y fl tto tfrom ud destroy so to pa pb
             Hso Hto Hpa Hpb Hne Hra Hwb Hbi HAB HqA HqB) in Hrun'.
  injection Hrun' as <- <-. auto.
Qed.

Ltac teardown_run Hso Hto :=
  repeat first [ rewrite Hso | rewrite Hto | rewrite HwA | rewrite HwB
               | rewrite HhA | rewrite HhB | rewrite <- app_assoc | teardown_step ].

(** X13: the caller took a reference before the source is destroyed: the
    binding stays allocated, both endpoint accessors answer NULL, the names
    are those of construction and the flags accessor answers with the flags
    word as [g_object_new] took it, and the user data is not released
    yet. *)
Lemma held_link_survives_source :
  exists w',
    (g_object_ref b ;> g_object_destroy A) w1 = Ok tt w'
    /\ g_binding_get_source b w' = Ok None w'
    /\ g_binding_get_target b w' = Ok None w'
    /\ g_binding_get_source_property b w' = Ok x w'
    /\ g_binding_get_target_property b w' = Ok y w'
    /\ g_binding_get_flags b w' = Ok (g_object_new_flags fl) w'
    /\ trace w' = trace w1.
Proof.
  destruct fresh_bind_world as (so & to & pa & pb & Hso & Hto & -> & ->).
  destruct w0 as [objs bnds hs wr qd cells na hseq tr]. simpl in *.
  unfold fresh_registry, bound_world, bound_binding, bound_handlers,
    bound_weak_refs, released, g_object_destroy.
  destruct (bidirectional fl) eqn:Eb;
    (eexists; split;
     [ teardown_run Hso Hto; reflexivity
     | teardown_run Hso Hto; repeat split; reflexivity ]).
Qed.

(** X14: the caller took a reference before the target is destroyed: the
    binding stays allocated, both endpoint accessors answer NULL, the names
    are those of construction and the flags accessor answers with the flags
    word as [g_object_new] took it, and the user data is not released
    yet. *)
Lemma held_link_survives_target :
  exists w',
    (g_object_ref b ;> g_object_destroy B) w1 = Ok tt w'
    /\ g_binding_get_source b w' = Ok None w'
    /\ g_binding_get_target b w' = Ok None w'
    /\ g_binding_get_source_property b w' = Ok x w'
    /\ g_binding_get_target_property b w' = Ok y w'
    /\ g_binding_get_flags b w' = Ok (g_object_new_flags fl) w'
    /\ trace w' = trace w1.
Proof.
  destruct fresh_bind_world as (so & to & pa & pb & Hso & Hto & -> & ->).
  destruct w0 as [objs bnds hs wr qd cells na hseq tr]. simpl in *.
  unfold fresh_registry, bound_world, bound_binding, bound_handlers,
    bound_weak_refs, released, g_object_destroy.
  destruct (bidirectional fl) eqn:Eb;
    (eexists; split;
     [ teardown_run Hso Hto; reflexivity
     | teardown_run Hso Hto; repeat split; reflexivity ]).
Qed.

(** The ids of the two handlers fit the [guint] fields that keep them. *)
Hypothesis Hid : Z.pos (Pos.succ (handler_seq w0)) < 2 ^ 32.

(** X11: the source is destroyed first, the handler ids fitting the fields
    of the binding.  [weak_unbind] runs once: the handler and the weak
    reference on the target are gone, the user data is released once and the
    binding is finalized right after, and the binding is freed; the qdata of
    the target still holds the address of the list cell that
    [remove_binding_qdata] has freed. *)
Lemma teardown_source_first :
  exists w',
    g_object_destroy A w1 = Ok tt w'
    /\ handlers w' !!! B = []
    /\ weak_refs w' !!! B = []
    /\ bindings w' !! b = None
    /\ trace w' = trace w1 ++ released destroy ud ++ [EvFinalize b]
    /\ qdata w' !! B = Some (S (S b))
    /\ g_list_cells w' !! S (S b) = None.
Proof.
  destruct fresh_bind_world as (so & to & pa & pb & Hso & Hto & -> & ->).
  destruct (guint_handler_ids _ Hid) as [Es Et].
  destruct w0 as [objs bnds hs wr qd cells na hseq tr]. simpl in *.
  unfold fresh_registry, bound_world, bound_binding, bound_handlers,
    bound_weak_refs, released, g_object_destroy.
  world_norm. rewrite Es, ?Et.
  destruct (bidirectional fl) eqn:Eb, destroy as [n|];
    (eexists; split;
     [ teardown_run Hso Hto; reflexivity
     | teardown_run Hso Hto; repeat split; reflexivity ]).
Qed.

(** X12: the target is destroyed first, the handler ids fitting the fields
    of the binding.  [weak_unbind] runs once: the handler and the weak
    reference on the source are gone, the user data is released once and the
    binding is finalized right after, and the binding is freed; the qdata of
    the source still holds the address of the list cell that
    [remove_binding_qdata] has freed. *)
Lemma teardown_target_first :
  exists w',
    g_object_destroy B w1 = Ok tt w'
    /\ handlers w' !!! A = []
    /\ weak_refs w' !!! A = []
    /\ bindings w' !! b = None
    /\ trace w' = trace w1 ++ released destroy ud ++ [EvFinalize b]
    /\ qdata w' !! A = Some (S b)
    /\ g_list_cells w' !! S b = None.
Proof.
  destruct fresh_bind_world as (so & to & pa & pb & Hso & Hto & -> & ->).
  destruct (guint_handler_ids _ Hid) as [Es Et].
  destruct w0 as [objs bnds hs wr qd cells na hseq tr]. simpl in *.
  unfold fresh_registry, bound_world, bound_binding, bound_handlers,
    bound_weak_refs, released, g_object_destroy.
  world_norm. rewrite Es, ?Et.
  destruct (bidirectional fl) eqn:Eb, destroy as [n|];
    (eexists; split;
     [ teardown_run Hso Hto; reflexivity
     | teardown_run Hso Hto; repeat split; reflexivity ]).
Qed.

End Teardown.

End FreshLink.

(** ** The registry of bindings, on concrete runs *)

Section RegistryRuns.
Existing Instance Sample.types.

(** C6, on the code: the second binding made on an object that already has
    one.  Both calls succeed, the second binding is at address 7; the
    registry entry of the shared source still lists the first binding only,
    because [add_binding_qdata] drops the new start of the list. *)
Theorem second_binding_missing_from_registry :
  exists w,
    Sample.two_bindings_one_source Sample.world3 = Ok (inr 7%nat) w
    /\ bindings w !! 4%nat <> None /\ bindings w !! 7%nat <> None
    /\ registry_entry w 1 = Some [4%nat]
    /\ registry_entry w 2 = Some [4%nat]
    /\ registry_entry w 3 = Some [7%nat].
Proof.
  eexists. split; [vm_compute; reflexivity|].
  repeat split; vm_compute; congruence.
Qed.

(** The removal side of the same defect: after the creator has released the
    only binding of an object, the qdata of both endpoints still holds the
    address of the freed cell. *)
Example unbind_leaves_registry_dangling :
  exists w,
    Sample.bind_then_unbind Sample.world3 = Ok tt w
    /\ bindings w !! 4%nat = None
    /\ qdata w !! 1%nat = Some 5%nat /\ g_list_cells w !! 5%nat = None
    /\ qdata w !! 2%nat = Some 6%nat /\ g_list_cells w !! 6%nat = None.
Proof. eexists. split; [vm_compute; reflexivity|]. repeat split. Qed.

(** C3, on the code: a binding request that meets every validation
    precondition and returns no binding.  A binding between [1.x] and [2.y]
    was made and released by its creator; both objects are alive and the
    preconditions of a new binding between the same two properties hold.
    The registry pointer of the source still holds the address of the cell
    that [remove_binding_qdata] freed, and [add_binding_qdata] hands it to
    [g_list_prepend], which dereferences it: undefined behaviour instead of
    a binding. *)
Theorem bind_with_preconditions_reads_freed_cell :
  exists w,
    Sample.bind_then_unbind Sample.world3 = Ok tt w
    /\ objects w !! 1%nat = Some Sample.fresh
    /\ objects w !! 2%nat = Some Sample.fresh
    /\ bind_preconditions Sample.fresh Sample.fresh 1 "x" 2 "y" G_BINDING_DEFAULT = true
    /\ qdata w !! 1%nat = Some 5%nat /\ g_list_cells w !! 5%nat = None
    /\ g_object_bind_property (Some 1%nat) "x" (Some 2%nat) "y" G_BINDING_DEFAULT w = Crash
    /\ Sample.bind_unbind_bind Sample.world3 = Crash.
Proof. eexists. split; [vm_compute; reflexivity|]. repeat split. Qed.

(** C2, on the code: a bidirectional binding whose source is destroyed
    first.  The handler on the surviving target is disconnected, its
    destruction hook is dropped, the release callback runs once and before
    the finalization; but the qdata of the target keeps the address of the
    cell that held the binding, a cell [g_list_remove] has freed. *)
Theorem teardown_leaves_registry_dangling :
  exists w,
    Sample.bind_then_destroy_source Sample.world3 = Ok tt w
    /\ handlers w !!! 2%nat = []
    /\ weak_refs w !!! 2%nat = []
    /\ trace w = [EvDestroyNotify 9 42; EvFinalize 4]
    /\ bindings w !! 4%nat = None
    /\ qdata w !! 2%nat = Some 6%nat
    /\ g_list_cells w !! 6%nat = None
    /\ registry_entry w 2 = None.
Proof. eexists. split; [vm_compute; reflexivity|]. repeat split. Qed.

(** C10, on the code: a binding between two properties of one object, on
    which the caller holds a reference of its own.  The object carries two
    destruction hooks for the binding, so [weak_unbind] runs twice and drops
    two references: the binding is finalized under the caller, and the
    accessors are applied to a freed binding. *)
Theorem same_object_teardown_drops_callers_reference :
  exists w,
    Sample.bind_same_object_then_destroy Sample.world3 = Ok tt w
    /\ trace w = [EvFinalize 4]
    /\ bindings w !! 4%nat = None
    /\ g_binding_get_source 4 w = Crash
    /\ g_binding_get_target 4 w = Crash
    /\ g_binding_get_source_property 4 w = Crash
    /\ g_binding_get_flags 4 w = Crash.
Proof. eexists. split; [vm_compute; reflexivity|]. repeat split. Qed.

(** With two distinct endpoints the reference of the caller survives the
    teardown and the accessors answer as C10 says. *)
Example distinct_endpoints_teardown_keeps_callers_reference :
  exists w,
    Sample.bind_then_destroy_target Sample.world3 = Ok tt w
    /\ g_binding_get_source 4 w = Ok None w
    /\ g_binding_get_target 4 w = Ok None w
    /\ g_binding_get_source_property 4 w = Ok "x" w
    /\ g_binding_get_target_property 4 w = Ok "y" w
    /\ g_binding_get_flags 4 w = Ok G_BINDING_DEFAULT w.
Proof. eexists. split; [vm_compute; reflexivity|]. repeat split. Qed.

End RegistryRuns.

(** ** The theorems at work on the three endpoints *)

Section Witnesses.
Existing Instance Sample.types.
Import Sample.

Lemma bind_failure_leaves_world_untouched_witness :
  world3 = world3
  /\ exists e,
       g_object_bind_property_full (Some 1%nat) "x" (Some 1%nat) "x" G_BINDING_DEFAULT
         None None 0 None world3 = Ok (inl e) world3.
Proof.
  destruct (bind_failure_leaves_world_untouched (Some 1%nat) "x" (Some 1%nat) "x"
              G_BINDING_DEFAULT None None 0 None world3) as [Hsame Hwarn].
  split.
  - apply (Hsame SameProperty world3). vm_compute. reflexivity.
  - apply (Hwarn 1%nat 1%nat fresh fresh); reflexivity.
Defined.

Lemma bind_returns_link_iff_preconditions_witness :
  (exists binding w1,
     g_object_bind_property_full (Some 1%nat) "x" (Some 2%nat) "y" G_BINDING_BIDIRECTIONAL
       None None 0 None world3 = Ok (inr binding) w1
     /\ is_Some (bindings w1 !! binding))
  /\ exists e,
       g_object_bind_property_full (Some 1%nat) "x" (Some 2%nat) "nope"
         G_BINDING_BIDIRECTIONAL None None 0 None world3 = Ok (inl e) world3.
Proof.
  split.
  - apply (bind_returns_link_iff_preconditions world3 1 "x" 2 "y" G_BINDING_BIDIRECTIONAL
             None None 0 None fresh fresh);
      [reflexivity|reflexivity|apply registry_wf_empty; reflexivity|reflexivity].
  - apply (bind_returns_link_iff_preconditions world3 1 "x" 2 "nope"
             G_BINDING_BIDIRECTIONAL None None 0 None fresh fresh);
      [reflexivity|reflexivity|apply registry_wf_empty; reflexivity|reflexivity].
Defined.



Lemma transform_failure_is_contained_witness :
  g_object_set_property 2 (Some 1%nat) "x" (int_value 5) bound_even_only
  = Ok tt (poke 1 "x" (int_value 5) bound_even_only)
  /\ peek (poke 1 "x" (int_value 5) bound_even_only) 2 "y" = peek bound_even_only 2 "y"
  /\ exists w3,
       g_object_set_property 2 (Some 1%nat) "x" (int_value 8)
         (poke 1 "x" (int_value 5) bound_even_only) = Ok tt w3
       /\ peek w3 2 "y" = Some (int_value 8).
Proof.
  assert (Hbind :
    g_object_bind_property_full (Some 1%nat) "x" (Some 2%nat) "y" G_BINDING_DEFAULT
      (Some even_only) None 0 None world3 = Ok (inr 4%nat) bound_even_only)
    by (vm_compute; reflexivity).
  destruct (transform_failure_is_contained world3 bound_even_only 1 2 4 "x" "y"
              G_BINDING_DEFAULT (Some even_only) None 0 None fresh fresh px py
              Hbind eq_refl eq_refl eq_refl eq_refl eq_refl eq_refl
              bound_even_only (written_none _ _ _ _ _))
    as (_ & Hfwd & _).
  destruct (Hfwd 0%nat (int_value 5) eq_refl eq_refl)
    as (Hrun & Hkeep & _ & _ & _ & Hnext).
  split; [exact Hrun|]. split; [exact Hkeep|].
  exact (Hnext 0%nat (int_value 8) (int_value 8) eq_refl).
Defined.



(** What the defect of the default transformation does to a binding: the
    target held 3, a string is written to the source, and the target is
    overwritten with the zero-filled value. *)
Example string_into_int_overwrites_target :
  exists w,
    string_into_int world3 = Ok tt w
    /\ peek w 2 "y" = Some (int_value 0)
    /\ trace w
       = [EvSetProperty 2 "y" (int_value 3);
          EvSetProperty 1 "label" (mkGValue G_TYPE_STRING 7);
          EvSetProperty 2 "y" (int_value 0)].
Proof. eexists. split; [vm_compute; reflexivity|]. split; reflexivity. Qed.

End Witnesses.

(** * Further properties of the code *)

(** ** The default transformation and the class of bindings *)

Section DefaultTransformFailure.
Context `{GTypeSystem}.

(** X1: the default transformation reports failure in one situation only:
    the type of the source value is neither the destination type nor derived
    from it, the two types are not compatible, a conversion between them is
    registered, and that conversion fails.  The destination value is then
    the one passed in.  In every other situation the answer is [TRUE]. *)
Theorem default_transform_fails_only_after_failed_conversion value_a value_b :
  (fst (default_transform value_a value_b) = false
   <-> g_type_is_a (G_VALUE_TYPE value_a) (G_VALUE_TYPE value_b) = false
       /\ g_value_type_compatible (G_VALUE_TYPE value_a) (G_VALUE_TYPE value_b) = false
       /\ g_value_type_transformable (G_VALUE_TYPE value_a) (G_VALUE_TYPE value_b) = true
       /\ g_value_transform value_a value_b = None)
  /\ (fst (default_transform value_a value_b) = false ->
      snd (default_transform value_a value_b) = value_b).
Proof.
  unfold default_transform.
  destruct (g_type_is_a _ _), (g_value_type_compatible _ _),
    (g_value_type_transformable _ _), (g_value_transform value_a value_b);
    simpl; (split; [split; [intros E|intros (E1 & E2 & E3 & E4)]|intros E]);
    try discriminate; try reflexivity; repeat split; reflexivity.
Qed.

End DefaultTransformFailure.

Section BindingClass.
Context `{GTypeSystem}.

Lemma binding_class_flags t name pspec :
  g_object_class_find_property (g_binding_class t) name = Some pspec ->
  readable pspec = true /\ writable_now pspec = false.
Proof.
  intros Hfind. apply find_some in Hfind. destruct Hfind as [Hin _].
  simpl in Hin.
  repeat (destruct Hin as [<-|Hin]; [split; reflexivity|]).
  contradiction.
Qed.

(** X20: every property installed by [g_binding_class_init] is readable and
    construct-only.  For an instance of that class used as an endpoint: a
    binding request with it as the target is refused, whatever property is
    named; so is a bidirectional request with it as the source; and a
    property write after construction changes nothing. *)
Theorem binding_properties_are_construct_only t w src sp tgt tp fl tto tfrom ud n obj :
  g_class obj = g_binding_class t ->
  (forall name pspec,
     g_object_class_find_property (g_class obj) name = Some pspec ->
     readable pspec = true /\ writable_now pspec = false)
  /\ (objects w !! tgt = Some obj ->
      exists e, g_object_bind_property_full (Some src) sp (Some tgt) tp fl
                  tto tfrom ud n w = Ok (inl e) w)
  /\ (objects w !! src = Some obj -> has_flag fl G_BINDING_BIDIRECTIONAL = true ->
      exists e, g_object_bind_property_full (Some src) sp (Some tgt) tp fl
                  tto tfrom ud n w = Ok (inl e) w)
  /\ (forall k o name v, objects w !! o = Some obj ->
      g_object_set_property (S k) (Some o) name v w = Ok tt w).
Proof.
  intros Hclass. split; [|split; [|split]].
  - intros name pspec. rewrite Hclass. apply binding_class_flags.
  - intros Htgt. destruct (objects w !! src) as [so|] eqn:Hsrc.
    + apply (bind_rejects w src sp tgt tp fl tto tfrom ud n so obj Hsrc Htgt).
      unfold bind_preconditions.
      destruct (g_object_class_find_property (g_class so) sp) as [pa|]; [|reflexivity].
      destruct (g_object_class_find_property (g_class obj) tp) as [pb|] eqn:Hpb;
        [|reflexivity].
      rewrite Hclass in Hpb. destruct (binding_class_flags _ _ _ Hpb) as [_ ->].
      now rewrite andb_false_r.
    + exists PreconditionFailed. apply bind_dead. now left.
  - intros Hsrc Hbi. destruct (objects w !! tgt) as [to|] eqn:Htgt.
    + apply (bind_rejects w src sp tgt tp fl tto tfrom ud n obj to Hsrc Htgt).
      unfold bind_preconditions.
      destruct (g_object_class_find_property (g_class obj) sp) as [pa|] eqn:Hpa;
        [|reflexivity].
      destruct (g_object_class_find_property (g_class to) tp) as [pb|]; [|reflexivity].
      rewrite Hclass in Hpa. destruct (binding_class_flags _ _ _ Hpa) as [_ ->].
      rewrite Hbi. simpl. now rewrite andb_false_r.
    + exists PreconditionFailed. apply bind_dead. now right.
  - intros k o name v Ho.
    destruct (g_object_class_find_property (g_class obj) name) as [p|] eqn:Hp.
    + apply (set_property_not_writable k o name v w p obj Ho Hp).
      rewrite Hclass in Hp. now destruct (binding_class_flags _ _ _ Hp).
    + unfold g_object_set_property. simpl. unfold bind, get_object. now rewrite Ho, Hp.
Qed.

End BindingClass.

(** ** What a binding request leaves behind *)

Section BindEffects.
Context `{GTypeSystem}.

(** X2: what a successful binding request does, in any world.  The new
    binding sits at the first free address with one reference, the two
    endpoints, the interned names, the descriptors found in the classes, the
    flags word as [g_object_new] takes it (0 for a word with a bit outside
    the registered values), the given transformation functions (the default
    ones for [NULL]), the user data and its release callback, flag cleared,
    and the ids of its handlers cut to the width of the [guint] fields.  One
    [notify] handler is connected to the source, one to the target exactly
    when the stored flags say bidirectional, and [weak_unbind] is registered
    once on each side.  No property is read or written and nothing is
    logged: the target is not brought in line with the source when the
    binding is made. *)
Theorem bind_connects_and_writes_nothing
    w0 src sp tgt tp fl tto tfrom ud destroy b w1 :
  g_object_bind_property_full (Some src) sp (Some tgt) tp fl tto tfrom ud destroy w0
  = Ok (inr b) w1 ->
  b = next_addr w0
  /\ objects w1 = objects w0
  /\ trace w1 = trace w0
  /\ handlers w1 = bound_handlers w0 src tgt fl
  /\ weak_refs w1 = bound_weak_refs w0 src tgt
  /\ exists so to pa pb,
       objects w0 !! src = Some so /\ objects w0 !! tgt = Some to
       /\ g_object_class_find_property (g_class so) sp = Some pa
       /\ g_object_class_find_property (g_class to) tp = Some pb
       /\ bindings w1
          = <[b := bound_binding w0 src tgt pa pb sp tp fl tto tfrom ud destroy]>
              (bindings w0).
Proof.
  intros Hrun.
  destruct (bind_success_preconditions _ _ _ _ _ _ _ _ _ _ _ _ Hrun)
    as (so & to & pa & pb & Hso & Hto & Hpa & Hpb & Hne & Hra & Hwb & Hbi).
  pose proof (bind_run w0 src sp tgt tp fl tto tfrom ud destroy so to pa pb
                Hso Hto Hpa Hpb Hne Hra Hwb Hbi) as Hspec.
  rewrite Hrun in Hspec. destruct Hspec as (Hb & (q & c & na & ->) & _).
  injection Hb as ->.
  repeat split; try reflexivity.
  exists so, to, pa, pb. repeat split; assumption || reflexivity.
Qed.

End BindEffects.

(** ** The registry, one call at a time *)

Lemma g_list_elements_nil k cells : g_list_elements k cells None = Some [].
Proof. now destruct k. Qed.

Lemma g_list_elements_more_fuel k k' cells h l :
  (k <= k')%nat ->
  g_list_elements k cells h = Some l -> g_list_elements k' cells h = Some l.
Proof.
  revert k' h l. induction k as [|k IH]; intros k' h l Hle Hrun.
  - destruct h as [p|]; [discriminate|]. simpl in Hrun. now destruct k'.
  - destruct k' as [|k']; [lia|]. destruct h as [p|]; [|exact Hrun].
    simpl in *. destruct (cells !! p) as [c|]; [|discriminate].
    destruct (g_list_elements k cells (g_next c)) as [tl|] eqn:Etl; [|discriminate].
    rewrite (IH k' _ tl) by (lia || assumption). exact Hrun.
Qed.

Lemma g_list_elements_agree k (cells cells' : gmap nat GList) h l :
  (forall q c, cells !! q = Some c ->
     exists c', cells' !! q = Some c' /\ g_data c' = g_data c /\ g_next c' = g_next c) ->
  g_list_elements k cells h = Some l -> g_list_elements k cells' h = Some l.
Proof.
  intros Hag. revert h l. induction k as [|k IH]; intros h l Hrun.
  - exact Hrun.
  - destruct h as [p|]; [|exact Hrun]. simpl in *.
    destruct (cells !! p) as [c|] eqn:Ec; [|discriminate].
    destruct (Hag p c Ec) as (c' & -> & Hd & Hn). rewrite Hd, Hn.
    destruct (g_list_elements k cells (g_next c)) as [tl|] eqn:Etl; [|discriminate].
    now rewrite (IH _ tl Etl).
Qed.

(** X3: the first binding of an object.  An object without a registry entry
    receives a list of its own that holds exactly the binding, and the
    entries of the other objects stay as they are. *)
Theorem first_binding_creates_entry o b w :
  is_Some (objects w !! o) -> qdata w !! o = None ->
  exists w',
    add_binding_qdata o b w = Ok tt w'
    /\ registry_entry w' o = Some [b]
    /\ forall o', o' <> o -> qdata w' !! o' = qdata w !! o'.
Proof.
  intros [obj Ho] Hq. destruct w as [objs bnds hs wr qd cells na hseq tr]. simpl in *.
  unfold add_binding_qdata, g_object_get_qdata, g_list_prepend, g_object_set_qdata,
    alloc, store_cell, get_object, modify, ret, bind.
  simpl. rewrite Ho. simpl. rewrite Hq. simpl. rewrite Ho. simpl.
  eexists. split; [reflexivity|]. split.
  - unfold registry_entry. world_norm.
    rewrite lookup_insert_eq. cbn [g_list_elements].
    rewrite lookup_insert_eq. cbn [g_next g_data].
    now rewrite g_list_elements_nil.
  - intros o' Hne. world_norm. now rewrite lookup_insert_ne by congruence.
Qed.

(** X4: a later binding of the same object.  When the object has an entry
    already, the new cell is linked in front of the list but the pointer kept
    by the object is not moved to it: the entry read from the object lists
    the same bindings as before the call, whatever binding was added. *)
Theorem later_binding_is_not_registered o b w p c l :
  is_Some (objects w !! o) ->
  qdata w !! o = Some p ->
  g_list_cells w !! p = Some c -> g_prev c = None ->
  g_list_cells w !! next_addr w = None ->
  registry_entry w o = Some l ->
  exists w',
    add_binding_qdata o b w = Ok tt w'
    /\ qdata w' = qdata w
    /\ registry_entry w' o = Some l.
Proof.
  intros [obj Ho] Hq Hc Hprev Hfresh Hl.
  destruct w as [objs bnds hs wr qd cells na hseq tr]. simpl in *.
  assert (Hne : na <> p) by congruence.
  unfold add_binding_qdata, g_object_get_qdata, g_list_prepend,
    alloc, store_cell, load_cell, get_object, modify, ret, bind.
  simpl. rewrite Ho. simpl. rewrite Hq. simpl. rewrite Hc. simpl.
  rewrite Hprev. simpl. rewrite lookup_insert_ne by congruence. rewrite Hc. simpl.
  eexists. split; [reflexivity|]. split; [reflexivity|].
  unfold registry_entry in *. world_norm. cbn [qdata g_list_cells] in Hl.
  rewrite Hq in *.
  apply g_list_elements_more_fuel with (k := S (size cells)).
  - rewrite map_size_insert_Some
      by (rewrite lookup_insert_ne by congruence; now rewrite Hc).
    rewrite map_size_insert_None by assumption. lia.
  - revert Hl. apply g_list_elements_agree. intros q cq Hcq.
    destruct (decide (q = p)) as [->|Hqp].
    + rewrite lookup_insert_eq. rewrite Hc in Hcq. injection Hcq as <-.
      eexists. split; [reflexivity|]. now split.
    + rewrite lookup_insert_ne by congruence.
      rewrite lookup_insert_ne by congruence. now exists cq.
Qed.

(** X5: removal of the binding at the start of the list an object points
    to.  The cell is unlinked and freed and the pointer kept by the object
    still holds its address: no entry can be read from the object any more. *)
Theorem removal_leaves_pointer_to_freed_cell o b w p c :
  is_Some (objects w !! o) ->
  qdata w !! o = Some p ->
  g_list_cells w !! p = Some c -> g_data c = b ->
  (forall q, g_prev c = Some q \/ g_next c = Some q -> is_Some (g_list_cells w !! q)) ->
  exists w',
    remove_binding_qdata (Some o) b w = Ok tt w'
    /\ qdata w' !! o = Some p
    /\ g_list_cells w' !! p = None
    /\ registry_entry w' o = None.
Proof.
  intros [obj Ho] Hq Hc Hd Hlive.
  destruct w as [objs bnds hs wr qd cells na hseq tr]. simpl in *.
  unfold remove_binding_qdata, g_object_get_qdata, g_list_remove, get_world,
    get_object, ret, bind.
  simpl. rewrite Ho. simpl. rewrite Hq. simpl.
  unfold load_cell, store_cell, free_cell, modify, ret, bind. simpl.
  rewrite Hc. simpl. rewrite Hd, Nat.eqb_refl. simpl.
  assert (Hdone : forall cells' : gmap nat GList,
    exists w',
      Ok tt (mkWorld objs bnds hs wr qd (delete p cells') na hseq tr) = Ok tt w'
      /\ qdata w' !! o = Some p
      /\ g_list_cells w' !! p = None
      /\ registry_entry w' o = None).
  { intros cells'. eexists. split; [reflexivity|]. cbn [qdata g_list_cells].
    split; [assumption|]. split; [apply lookup_delete_eq|].
    unfold registry_entry. cbn [qdata g_list_cells]. rewrite Hq.
    cbn [g_list_elements]. now rewrite lookup_delete_eq. }
  destruct (g_prev c) as [pp|] eqn:Hprev; simpl.
  - destruct (Hlive pp (or_introl eq_refl)) as [pc Hpc]. rewrite Hpc. simpl.
    destruct (g_next c) as [nn|] eqn:Hnext; simpl.
    + destruct (decide (nn = pp)) as [->|Hnp].
      * rewrite lookup_insert_eq. simpl. apply Hdone.
      * rewrite lookup_insert_ne by congruence.
        destruct (Hlive nn (or_intror eq_refl)) as [nc Hnc]. rewrite Hnc. simpl.
        apply Hdone.
    + apply Hdone.
  - destruct (g_next c) as [nn|] eqn:Hnext; simpl.
    + destruct (Hlive nn (or_intror eq_refl)) as [nc Hnc]. rewrite Hnc. simpl.
      apply Hdone.
    + apply Hdone.
Qed.

(** ** Property writes in a world with any number of bindings *)

Lemma written_only_refl w : written_only w w.
Proof.
  split; try reflexivity.
  - intros o. now destruct (objects w !! o).
  - exists []. now rewrite app_nil_r.
Qed.

Lemma written_only_trans w1 w2 w3 :
  written_only w1 w2 -> written_only w2 w3 -> written_only w1 w3.
Proof.
  intros [? ? ? ? ? ? ? Hobj1 Htr1] [? ? ? ? ? ? ? Hobj2 Htr2].
  split; try congruence.
  - intros o. specialize (Hobj1 o). specialize (Hobj2 o).
    destruct (objects w1 !! o), (objects w2 !! o), (objects w3 !! o);
      try contradiction; try exact I. congruence.
  - destruct Htr1 as (t1 & E1 & F1), Htr2 as (t2 & E2 & F2).
    exists (t1 ++ t2). split.
    + now rewrite E2, E1, app_assoc.
    + rewrite forallb_app. now rewrite F1, F2.
Qed.

Lemma written_only_poke o name v w : written_only w (poke o name v w).
Proof.
  unfold poke. destruct (objects w !! o) as [obj|] eqn:E;
    [|apply written_only_refl].
  split; try reflexivity.
  - intros o'. simpl. destruct (decide (o' = o)) as [->|Hne].
    + now rewrite E, lookup_insert_eq.
    + rewrite lookup_insert_ne by congruence. now destruct (objects w !! o').
  - simpl. now exists [EvSetProperty o name v].
Qed.

Lemma thaw_binding L :
  is_frozen L = false -> with_is_frozen false (with_is_frozen true L) = L.
Proof. destruct L. simpl. now intros ->. Qed.

Section Cascade.
Context `{GTypeSystem}.
Local Arguments g_object_set_property : simpl never.

Lemma get_property_pure object name value w :
  match g_object_get_property object name value w with
  | Ok _ w' => w' = w
  | Crash => True
  | OutOfFuel => False
  end.
Proof.
  unfold g_object_get_property. destruct object as [o|]; [|reflexivity].
  unfold bind, get_object, ret. destruct (objects w !! o) as [obj|]; [|exact I].
  destruct (g_object_class_find_property (g_class obj) name) as [p|]; [|reflexivity].
  now destruct (has_flag (pspec_flags p) G_PARAM_READABLE).
Qed.

Lemma guarded_values_only (set_property : option nat -> string -> GValue -> M unit)
    b L object name v w :
  (forall w0, values_only w0 (set_property object name v w0)) ->
  bindings w !! b = Some L -> is_frozen L = false ->
  values_only w (guarded set_property b object name v w).
Proof.
  intros IH Hb Hf. unfold guarded, assign, get_binding, put_binding, modify, bind.
  rewrite Hb. simpl.
  specialize (IH (set_bindings (insert b (with_is_frozen true L)) w)).
  destruct (set_property object name v _) as [[] w3| |] eqn:Erun; simpl in *;
    try exact I.
  destruct IH as [Hbs Hhs Hwr Hq Hc Hn Hs Hobj Htr]. simpl in *.
  rewrite Hbs, lookup_insert_eq. simpl.
  split; simpl; try assumption.
  rewrite Hbs, insert_insert_eq, thaw_binding by assumption.
  now apply insert_id.
Qed.

Lemma on_source_notify_values_only set_property gobject pspec b w :
  (forall object name v w0, values_only w0 (set_property object name v w0)) ->
  values_only w (on_source_notify set_property gobject pspec b w).
Proof.
  intros IH. unfold on_source_notify.
  unfold bind at 1. unfold get_binding at 1.
  destruct (bindings w !! b) as [L|] eqn:Hb; [|exact I].
  destruct (is_frozen L) eqn:Hf; [apply written_only_refl|].
  destruct (negb _); [apply written_only_refl|].
  destruct (source_pspec L) as [pa|]; [|exact I].
  destruct (target_pspec L) as [pb|]; [|exact I].
  destruct (transform_s2t L) as [f|]; [|exact I].
  unfold bind at 1.
  pose proof (get_property_pure (source L) (pspec_name pa)
                (g_value_init (G_PARAM_SPEC_VALUE_TYPE pa)) w) as Hget.
  destruct (g_object_get_property _ _ _ w) as [sv w'| |]; [subst w'|exact I|contradiction].
  destruct (f b sv _ _) as [res tv]. destruct res; [|apply written_only_refl].
  pose proof (guarded_values_only set_property b L (target L) (pspec_name pb)
                (g_param_value_validate pb tv) w (IH _ _ _) Hb Hf) as Hg.
  unfold guarded, assign, get_binding, put_binding, modify, bind in Hg |- *.
  rewrite Hb in Hg |- *. simpl in Hg |- *. rewrite lookup_insert_eq. simpl.
  exact Hg.
Qed.

Lemma on_target_notify_values_only set_property gobject pspec b w :
  (forall object name v w0, values_only w0 (set_property object name v w0)) ->
  values_only w (on_target_notify set_property gobject pspec b w).
Proof.
  intros IH. unfold on_target_notify.
  unfold bind at 1. unfold get_binding at 1.
  destruct (bindings w !! b) as [L|] eqn:Hb; [|exact I].
  destruct (is_frozen L) eqn:Hf; [apply written_only_refl|].
  destruct (negb _); [apply written_only_refl|].
  destruct (source_pspec L) as [pa|]; [|exact I].
  destruct (target_pspec L) as [pb|]; [|exact I].
  destruct (transform_t2s L) as [f|]; [|exact I].
  unfold bind at 1.
  pose proof (get_property_pure (target L) (pspec_name pb)
                (g_value_init (G_PARAM_SPEC_VALUE_TYPE pb)) w) as Hget.
  destruct (g_object_get_property _ _ _ w) as [sv w'| |]; [subst w'|exact I|contradiction].
  destruct (f b sv _ _) as [res tv]. destruct res; [|apply written_only_refl].
  pose proof (guarded_values_only set_property b L (source L) (pspec_name pa)
                (g_param_value_validate pa tv) w (IH _ _ _) Hb Hf) as Hg.
  unfold guarded, assign, get_binding, put_binding, modify, bind in Hg |- *.
  rewrite Hb in Hg |- *. simpl in Hg |- *. rewrite lookup_insert_eq. simpl.
  exact Hg.
Qed.

Lemma values_only_bind {A B} w (m : M A) (n : A -> M B) :
  values_only w (m w) ->
  (forall a w', written_only w w' -> values_only w' (n a w')) ->
  values_only w ((let! a := m in n a) w).
Proof.
  intros Hm Hn. unfold bind. destruct (m w) as [a w'| |]; simpl in *; try exact I.
  specialize (Hn a w' Hm). destruct (n a w') as [c w''| |]; simpl in *; try exact I.
  eapply written_only_trans; eassumption.
Qed.

Lemma emit_handlers_values_only set_property gobject pspec hs w :
  (forall object name v w0, values_only w0 (set_property object name v w0)) ->
  values_only w (g_signal_emit_handlers set_property gobject pspec hs w).
Proof.
  intros IH. revert w. induction hs as [|[id c] hs IHhs]; intros w;
    cbn [g_signal_emit_handlers].
  - apply written_only_refl.
  - unfold bind at 1. unfold get_world at 1.
    apply values_only_bind.
    + destruct c; simpl;
        [apply on_source_notify_values_only|apply on_target_notify_values_only];
        exact IH.
    + intros _ w' _. unfold bind, get_world.
      destruct (notified_again gobject pspec w w'); [apply written_only_refl|].
      apply IHhs.
Qed.

Lemma emit_notify_values_only set_property restarts gobject pspec w :
  (forall object name v w0, values_only w0 (set_property object name v w0)) ->
  values_only w (g_signal_emit_notify set_property restarts gobject pspec w).
Proof.
  intros IH. revert w. induction restarts as [|restarts IHr]; intros w;
    cbn [g_signal_emit_notify]; unfold bind at 1; unfold get_world at 1;
    apply values_only_bind; try (apply emit_handlers_values_only; exact IH);
    intros [] w' _; try exact I; try apply written_only_refl.
  apply IHr.
Qed.

Lemma set_property_in_values_only k em object name v w :
  values_only w (g_object_set_property_in k em object name v w).
Proof.
  revert em object name v w. induction k as [|k IH]; intros em object name v w.
  - exact I.
  - destruct object as [o|]; [|apply written_only_refl].
    destruct (objects w !! o) as [obj|] eqn:Ho.
    2:{ cbn [g_object_set_property_in]. unfold bind, get_object. now rewrite Ho. }
    destruct (g_object_class_find_property (g_class obj) name) as [p|] eqn:Hp.
    2:{ cbn [g_object_set_property_in]. unfold bind, get_object. rewrite Ho, Hp.
        apply written_only_refl. }
    destruct (writable_now p) eqn:Hw.
    + rewrite (set_property_in_step k em o name v w p obj Ho Hp Hw).
      destruct (emission_find em o name); [apply written_only_poke|].
      pose proof (emit_notify_values_only
                    (g_object_set_property_in k ((o, name) :: em)) k o p
                    (poke o name v w) (fun object name v w0 => IH _ object name v w0))
        as Hemit.
      destruct (g_signal_emit_notify _ k o p (poke o name v w)) as [[] w'| |];
        try exact I.
      exact (written_only_trans _ _ _ (written_only_poke o name v w) Hemit).
    + rewrite (set_property_in_not_writable k em o name v w p obj Ho Hp Hw).
      apply written_only_refl.
Qed.

(** X6: a property write, with everything the notification handlers of any
    number of bindings do in reaction, changes property values and the trace
    only.  Every guard flag is as it was before the write (none is left
    set), no binding, handler, destruction hook or registry cell is added or
    removed, the same objects exist with their classes, and the trace grows
    by property writes. *)
Theorem property_write_changes_values_only k object name v w w' :
  g_object_set_property k object name v w = Ok tt w' -> written_only w w'.
Proof.
  intros Hrun. pose proof (set_property_in_values_only k [] object name v w) as Hb.
  unfold g_object_set_property in Hrun. now rewrite Hrun in Hb.
Qed.

End Cascade.

Section RegistryInvariant.
Context `{GTypeSystem}.

(** X25: no dangling registry pointer is created by a binding request or by
    a property write.  In a world where the registry pointer of every object
    and the back pointer of every list cell lead to live cells, the same
    holds after a successful binding request and after a property write with
    all the propagation it causes. *)
Theorem registry_stays_well_formed w :
  registry_wf w ->
  (forall src sp tgt tp fl tto tfrom ud n b w1,
      g_object_bind_property_full (Some src) sp (Some tgt) tp fl tto tfrom ud n w
      = Ok (inr b) w1 ->
      registry_wf w1)
  /\ (forall k object name v w',
        g_object_set_property k object name v w = Ok tt w' -> registry_wf w').
Proof.
  intros Hwf. split.
  - intros src sp tgt tp fl tto tfrom ud n b w1 Hrun.
    destruct (bind_success_preconditions _ _ _ _ _ _ _ _ _ _ _ _ Hrun)
      as (so & to & pa & pb & Hso & Hto & Hpa & Hpb & Hne & Hra & Hwb & Hbi).
    pose proof (bind_run w src sp tgt tp fl tto tfrom ud n so to pa pb
                  Hso Hto Hpa Hpb Hne Hra Hwb Hbi) as Hspec.
    rewrite Hrun in Hspec. destruct Hspec as (_ & _ & Hkeep). now apply Hkeep.
  - intros k object name v w' Hrun.
    pose proof (set_property_in_values_only k [] object name v w) as Hb.
    unfold g_object_set_property in Hrun. rewrite Hrun in Hb. simpl in Hb.
    unfold registry_wf in *. now rewrite (wo_qdata _ _ Hb), (wo_cells _ _ Hb).
Qed.

End RegistryInvariant.

(** ** One binding at work: other properties and both directions *)

Section OtherProperties.
Context `{GTypeSystem}.
Local Arguments g_object_set_property : simpl never.

Lemma wired_ignores_other_name k O z pz v w A B b L pa pb f g obj :
  Wired w A B b L pa pb f g ->
  O = A \/ O = B ->
  objects w !! O = Some obj ->
  g_object_class_find_property (g_class obj) z = Some pz ->
  writable_now pz = true ->
  (O = A -> z <> pspec_name pa) -> (O = B -> z <> pspec_name pb) ->
  g_object_set_property (S k) (Some O) z v w = Ok tt (poke O z v w).
Proof.
  intros HW HO Hobj Hpz Hw HzA HzB.
  rewrite (set_property_step k O z v w pz obj Hobj Hpz Hw).
  pose proof (wired_poke _ _ _ _ _ _ _ _ _ O z v HW) as HW'.
  pose proof (find_property_name _ _ _ Hpz) as Hname.
  pose proof (wired_binding _ _ _ _ _ _ _ _ _ HW') as Hb.
  set (sp := g_object_set_property_in k [(O, z)]).
  assert (Hsrc : O = A ->
            on_source_notify sp O pz b (poke O z v w) = Ok tt (poke O z v w)).
  { intros E. apply (on_source_notify_other_name _ _ _ _ _ L Hb).
    rewrite Hname, (wired_source_property _ _ _ _ _ _ _ _ _ HW). now apply HzA. }
  assert (Htgt : O = B ->
            on_target_notify sp O pz b (poke O z v w) = Ok tt (poke O z v w)).
  { intros E. apply (on_target_notify_other_name _ _ _ _ _ L Hb).
    rewrite Hname, (wired_target_property _ _ _ _ _ _ _ _ _ HW). now apply HzB. }
  destruct (wired_handlers _ _ _ _ _ _ _ _ _ HW') as (ia & ib & HA & HB).
  assert (Hback : O = B ->
            Forall (fun hc => invoke sp O pz (snd hc) (poke O z v w)
                              = Ok tt (poke O z v w))
              (back_handlers ib b L)).
  { intros E. unfold back_handlers. destruct (two_way L); constructor; [|constructor].
    now apply Htgt. }
  apply emit_notify_quiet.
  destruct HO as [E|E].
  - replace (handlers (poke O z v w) !!! O) with (handlers (poke O z v w) !!! A)
      by now rewrite <- E.
    rewrite HA. constructor; [now apply Hsrc|].
    destruct (decide (A = B)) as [E'|E']; [|constructor].
    apply Hback. congruence.
  - replace (handlers (poke O z v w) !!! O) with (handlers (poke O z v w) !!! B)
      by now rewrite <- E.
    rewrite HB. apply Forall_app. split; [|now apply Hback].
    destruct (decide (A = B)) as [E'|E']; constructor; [|constructor].
    apply Hsrc. congruence.
Qed.

Variables (w0 w1 : World) (A B b : nat) (x y : string) (fl : Z).
Variables (transform_to transform_from : option GBindingTransformFunc).
Variables (user_data : gpointer) (destroy : option nat).

Hypothesis Hbind :
  g_object_bind_property_full (Some A) x (Some B) y fl transform_to transform_from
    user_data destroy w0 = Ok (inr b) w1.
Hypothesis HhA : handlers w0 !!! A = [].
Hypothesis HhB : handlers w0 !!! B = [].

(** X8: a binding reacts to its two properties only.  In every world
    reached from a fresh binding by writes to the bound properties, a write
    to any other writable property of either endpoint stores the value and
    does nothing else: the handlers compare the name of the notified
    property with theirs and return. *)
Theorem other_properties_are_not_propagated (w : World) :
  written_from A B x y w1 w ->
  forall O k z pz v obj,
    O = A \/ O = B ->
    objects w !! O = Some obj ->
    g_object_class_find_property (g_class obj) z = Some pz ->
    writable_now pz = true ->
    (O = A -> z <> x) -> (O = B -> z <> y) ->
    g_object_set_property (S k) (Some O) z v w = Ok tt (poke O z v w).
Proof.
  intros Hreach O k z pz v obj HO Hobj Hpz Hw HzA HzB.
  destruct (bind_success_preconditions _ _ _ _ _ _ _ _ _ _ _ _ Hbind)
    as (so & to & pa & pb & Hso & Hto & Hpa & Hpb & _).
  pose proof (written_wired w0 w1 A B b x y fl transform_to transform_from user_data
                destroy so to pa pb Hbind HhA HhB Hso Hto Hpa Hpb w Hreach) as HW.
  pose proof (find_property_name _ _ _ Hpa) as Hx.
  pose proof (find_property_name _ _ _ Hpb) as Hy.
  eapply wired_ignores_other_name; try eassumption.
  - now rewrite Hx.
  - now rewrite Hy.
Qed.

End OtherProperties.

Section BoundBothWays.
Context `{GTypeSystem}.
Local Arguments g_object_set_property : simpl never.

Variables (w0 w1 : World) (A B b : nat) (x y : string) (fl : Z).
Variables (transform_to transform_from : option GBindingTransformFunc).
Variables (user_data : gpointer) (destroy : option nat).
Variables (oa ob : GObject) (pa pb : GParamSpec).

Hypothesis Hbind :
  g_object_bind_property_full (Some A) x (Some B) y fl transform_to transform_from
    user_data destroy w0 = Ok (inr b) w1.
Hypothesis HhA : handlers w0 !!! A = [].
Hypothesis HhB : handlers w0 !!! B = [].
Hypothesis HoA : objects w0 !! A = Some oa.
Hypothesis HoB : objects w0 !! B = Some ob.
Hypothesis Hpa : g_object_class_find_property (g_class oa) x = Some pa.
Hypothesis Hpb : g_object_class_find_property (g_class ob) y = Some pb.

Let g := default default_transform_from transform_from.
Let f := default default_transform_to transform_to.

(** X10: the way back of a bidirectional binding, one made with the flags
    word [G_BINDING_BIDIRECTIONAL] (a word with further bits is stored as 0
    by [g_object_new] and gives a one-way binding).  A write of [v] to the
    target property stays in the target property and is carried to the source
    through [transform_from]: when the transformation reports success the
    source holds the validated result and the trace shows the two writes;
    when it reports failure the source keeps its value. *)
Theorem bidirectional_binding_carries_target_writes_back (w : World) :
  bidirectional fl = true ->
  written_from A B x y w1 w ->
  forall k v, exists w2,
    g_object_set_property (S (S k)) (Some B) y v w = Ok tt w2
    /\ peek w2 B y = Some v
    /\ (forall tv,
          g b v (g_value_init (G_PARAM_SPEC_VALUE_TYPE pa)) user_data = (true, tv) ->
          peek w2 A x = Some (g_param_value_validate pa tv)
          /\ trace w2 = trace w ++ [EvSetProperty B y v;
                                    EvSetProperty A x (g_param_value_validate pa tv)])
    /\ (forall tv,
          g b v (g_value_init (G_PARAM_SPEC_VALUE_TYPE pa)) user_data = (false, tv) ->
          peek w2 A x = peek w A x
          /\ trace w2 = trace w ++ [EvSetProperty B y v]).
Proof.
  intros Hbi Hreach k v.
  pose proof (written_wired w0 w1 A B b x y fl transform_to transform_from user_data
                destroy oa ob pa pb Hbind HhA HhB HoA HoB Hpa Hpb w Hreach) as HW.
  pose proof (distinct_ends w0 w1 A B b x y fl transform_to transform_from user_data
                destroy oa ob pa pb Hbind HhA HhB HoA HoB Hpa Hpb) as Hdist.
  rewrite (write_target w0 A B b x y fl transform_to transform_from user_data destroy
             oa ob pa pb Hpa Hpb w k v HW), Hbi.
  rewrite (backward_after_poke w0 A B b x y fl transform_to transform_from user_data
             destroy oa ob pa pb Hpa Hpb w v HW).
  fold g.
  destruct (wired_A _ _ _ _ _ _ _ _ _ HW) as (oa' & Hoa' & _).
  destruct (wired_B _ _ _ _ _ _ _ _ _ HW) as (ob' & Hob' & _).
  pose proof (wired_poke _ _ _ _ _ _ _ _ _ B y v HW) as HW1.
  destruct (wired_A _ _ _ _ _ _ _ _ _ HW1) as (oa1 & Hoa1 & _).
  assert (Hkeep : forall tv, peek (poke A x tv (poke B y v w)) B y = Some v).
  { intros tv. rewrite peek_poke_other.
    - eapply peek_poke_same; eassumption.
    - intros E. now apply Hdist. }
  assert (Hok : forall tv,
    g b v (g_value_init (G_PARAM_SPEC_VALUE_TYPE pa)) user_data = (true, tv) ->
    peek (poke A x (g_param_value_validate pa tv) (poke B y v w)) A x
    = Some (g_param_value_validate pa tv)).
  { intros tv _. eapply peek_poke_same; eassumption. }
  destruct (g b v (g_value_init (G_PARAM_SPEC_VALUE_TYPE pa)) user_data)
    as [[] tv0] eqn:Eg.
  - eexists. split; [reflexivity|]. split; [apply Hkeep|].
    split.
    + intros tv E. injection E as <-. split; [now apply Hok|].
      rewrite (poke_trace _ _ _ _ _ Hoa1), (poke_trace _ _ _ _ _ Hob').
      now rewrite <- app_assoc.
    + intros tv E. discriminate.
  - eexists. split; [reflexivity|]. split; [eapply peek_poke_same; eassumption|].
    split.
    + intros tv E. discriminate.
    + intros tv _. split; [|eapply poke_trace; eassumption].
      apply peek_poke_other. intros E. symmetry in E. intros Hyx. symmetry in Hyx.
      now apply (Hdist E).
Qed.


(** X9: the way forward of a bidirectional binding, without echo.  A write
    of [v] to the source property is carried to the target through
    [transform_to]; the write it induces on the target is not carried back,
    so the source holds exactly [v] afterwards, also when the two
    transformations are not inverse to each other. *)
Theorem source_write_reaches_target_without_echo (w : World) :
  has_flag fl G_BINDING_BIDIRECTIONAL = true ->
  written_from A B x y w1 w ->
  forall k v, exists w2,
    g_object_set_property (S (S k)) (Some A) x v w = Ok tt w2
    /\ peek w2 A x = Some v
    /\ (forall tv,
          f b v (g_value_init (G_PARAM_SPEC_VALUE_TYPE pb)) user_data = (true, tv) ->
          peek w2 B y = Some (g_param_value_validate pb tv)
          /\ trace w2 = trace w ++ [EvSetProperty A x v;
                                    EvSetProperty B y (g_param_value_validate pb tv)])
    /\ (forall tv,
          f b v (g_value_init (G_PARAM_SPEC_VALUE_TYPE pb)) user_data = (false, tv) ->
          peek w2 B y = peek w B y
          /\ trace w2 = trace w ++ [EvSetProperty A x v]).
Proof.
  intros Hbi Hreach k v.
  pose proof (written_wired w0 w1 A B b x y fl transform_to transform_from user_data
                destroy oa ob pa pb Hbind HhA HhB HoA HoB Hpa Hpb w Hreach) as HW.
  pose proof (distinct_ends w0 w1 A B b x y fl transform_to transform_from user_data
                destroy oa ob pa pb Hbind HhA HhB HoA HoB Hpa Hpb) as Hdist.
  assert (Hwa : writable_now pa = true).
  { destruct (bind_success_preconditions _ _ _ _ _ _ _ _ _ _ _ _ Hbind)
      as (so & to & pa' & pb' & Hso & _ & Hpa' & _ & _ & _ & _ & Hraw).
    rewrite HoA in Hso. injection Hso as <-.
    rewrite Hpa in Hpa'. injection Hpa' as <-. now destruct (Hraw Hbi). }
  rewrite (write_source w0 A B b x y fl transform_to transform_from user_data destroy
             oa ob pa pb Hpa Hpb w k v HW Hwa).
  rewrite (forward_after_poke w0 A B b x y fl transform_to transform_from user_data
             destroy oa ob pa pb Hpa Hpb w v HW).
  fold f.
  destruct (wired_A _ _ _ _ _ _ _ _ _ HW) as (oa' & Hoa' & _).
  pose proof (wired_poke _ _ _ _ _ _ _ _ _ A x v HW) as HW1.
  destruct (wired_B _ _ _ _ _ _ _ _ _ HW1) as (ob1 & Hob1 & _).
  destruct (f b v (g_value_init (G_PARAM_SPEC_VALUE_TYPE pb)) user_data)
    as [[] tv0] eqn:Ef.
  - eexists. split; [reflexivity|]. split; [|split].
    + rewrite peek_poke_other; [eapply peek_poke_same; eassumption|].
      intros E Hyx. symmetry in E, Hyx. now apply (Hdist E).
    + intros tv E. injection E as <-. split; [eapply peek_poke_same; eassumption|].
      rewrite (poke_trace _ _ _ _ _ Hob1), (poke_trace _ _ _ _ _ Hoa').
      now rewrite <- app_assoc.
    + intros tv E. discriminate.
  - eexists. split; [reflexivity|]. split; [eapply peek_poke_same; eassumption|].
    split.
    + intros tv E. discriminate.
    + intros tv _. split; [|eapply poke_trace; eassumption].
      apply peek_poke_other. intros E. now apply Hdist.
Qed.

End BoundBothWays.

(** ** Several bindings at work: chains, cycles and fan-out *)

Section Chains.
Context `{GTypeSystem}.
Local Arguments g_object_set_property : simpl never.

Lemma poke_set_bindings o name v f w :
  poke o name v (set_bindings f w) = set_bindings f (poke o name v w).
Proof. unfold poke. simpl. now destruct (objects w !! o). Qed.

Lemma set_bindings_thaw b L w :
  bindings w !! b = Some L -> is_frozen L = false ->
  set_bindings (insert b (with_is_frozen false (with_is_frozen true L)))
    (set_bindings (insert b (with_is_frozen true L)) w) = w.
Proof.
  intros Hb Hf. destruct w. unfold set_bindings. simpl in *. f_equal.
  rewrite insert_insert_eq. destruct L. simpl in *. subst. now apply insert_id.
Qed.

(** The write of a handler whose destination has no handler that reacts:
    none at all, or those of bindings whose flag is set. *)
Lemma guarded_quiet k em b L O name p obj v w :
  bindings w !! b = Some L -> is_frozen L = false ->
  objects w !! O = Some obj ->
  g_object_class_find_property (g_class obj) name = Some p ->
  writable_now p = true ->
  (forall sp w', bindings w' = <[b := with_is_frozen true L]> (bindings w) ->
     handlers w' = handlers w ->
     g_signal_emit_notify sp k O p w' = Ok tt w') ->
  guarded (g_object_set_property_in (S k) em) b (Some O) name v w
  = Ok tt (poke O name v w).
Proof.
  intros Hb Hf Ho Hp Hw Hquiet.
  unfold guarded, assign, get_binding, put_binding, modify, bind. rewrite Hb.
  cbv beta iota.
  rewrite (set_property_in_step k em O name v
             (set_bindings (insert b (with_is_frozen true L)) w) p obj Ho Hp Hw).
  assert (Hstep :
    (if emission_find em O name
     then Ok tt (poke O name v (set_bindings (insert b (with_is_frozen true L)) w))
     else g_signal_emit_notify (g_object_set_property_in k ((O, name) :: em)) k O p
            (poke O name v (set_bindings (insert b (with_is_frozen true L)) w)))
    = Ok tt (poke O name v (set_bindings (insert b (with_is_frozen true L)) w))).
  { destruct (emission_find em O name); [reflexivity|].
    apply Hquiet; [now rewrite poke_bindings|now rewrite poke_handlers]. }
  rewrite Hstep. rewrite poke_bindings.
  change (bindings (set_bindings (insert b (with_is_frozen true L)) w))
    with (<[b := with_is_frozen true L]> (bindings w)).
  rewrite lookup_insert_eq.
  rewrite poke_set_bindings.
  rewrite set_bindings_thaw; [reflexivity|now rewrite poke_bindings|assumption].
Qed.

(** A handler whose write runs out of fuel, and the emission around it. *)
Lemma guarded_out_of_fuel sp b L object name v w :
  bindings w !! b = Some L ->
  sp object name v (set_bindings (insert b (with_is_frozen true L)) w) = OutOfFuel ->
  guarded sp b object name v w = OutOfFuel.
Proof.
  intros Hb Hsp. unfold guarded, assign, get_binding, put_binding, modify, bind.
  rewrite Hb. cbv beta iota. now rewrite Hsp.
Qed.

Lemma emit_handlers_out_of_fuel sp gobject pspec id c hs w :
  invoke sp gobject pspec c w = OutOfFuel ->
  g_signal_emit_handlers sp gobject pspec ((id, c) :: hs) w = OutOfFuel.
Proof.
  intros Hc. cbn [g_signal_emit_handlers]. unfold bind, get_world. now rewrite Hc.
Qed.

Lemma emit_notify_out_of_fuel sp restarts gobject pspec w :
  g_signal_emit_handlers sp gobject pspec (handlers w !!! gobject) w = OutOfFuel ->
  g_signal_emit_notify sp restarts gobject pspec w = OutOfFuel.
Proof.
  intros Hpass. destruct restarts; cbn [g_signal_emit_notify];
    unfold bind, get_world; now rewrite Hpass.
Qed.

(** An emission in progress for another property, or on another object, does
    not concern a write. *)
Lemma emission_find_other o n em O name :
  (O = o -> name <> n) ->
  emission_find ((o, n) :: em) O name = emission_find em O name.
Proof.
  intros Hne. unfold emission_find. cbn [existsb fst snd].
  destruct (Nat.eqb_spec o O) as [E|E]; [|reflexivity].
  destruct (String.eqb_spec n name) as [E'|E']; [|reflexivity].
  symmetry in E, E'. now contradiction (Hne E).
Qed.

Variables (w0 w1 w2 : World) (A B Q b1 b2 : nat) (x y q : string) (fl1 fl2 : Z).
Variables (tto1 tfrom1 tto2 tfrom2 : option GBindingTransformFunc).
Variables (ud1 ud2 : gpointer) (destroy1 destroy2 : option nat).
Variables (oa ob oq : GObject) (pa pb pq : GParamSpec).

Hypothesis Hbind1 :
  g_object_bind_property_full (Some A) x (Some B) y fl1 tto1 tfrom1 ud1 destroy1 w0
  = Ok (inr b1) w1.
Hypothesis Hbind2 :
  g_object_bind_property_full (Some B) y (Some Q) q fl2 tto2 tfrom2 ud2 destroy2 w1
  = Ok (inr b2) w2.
Hypothesis Hone1 : bidirectional fl1 = false.
Hypothesis Hone2 : bidirectional fl2 = false.
Hypothesis HAB : A <> B.
Hypothesis HQB : Q <> B.
Hypothesis HhA : handlers w0 !!! A = [].
Hypothesis HhB : handlers w0 !!! B = [].
Hypothesis HhQ : handlers w0 !!! Q = [].
Hypothesis HqA : qdata w0 !! A = None.
Hypothesis HqB : qdata w0 !! B = None.
Hypothesis HoA : objects w0 !! A = Some oa.
Hypothesis HoB : objects w0 !! B = Some ob.
Hypothesis HoQ : objects w0 !! Q = Some oq.
Hypothesis Hpa : g_object_class_find_property (g_class oa) x = Some pa.
Hypothesis Hpb : g_object_class_find_property (g_class ob) y = Some pb.
Hypothesis Hpq : g_object_class_find_property (g_class oq) q = Some pq.
Hypothesis Hwa : writable_now pa = true.

Let f1 := default default_transform_to tto1.
Let f2 := default default_transform_to tto2.
Let L1 := bound_binding w0 A B pa pb x y fl1 tto1 tfrom1 ud1 destroy1.
Let L2 := bound_binding w1 B Q pb pq y q fl2 tto2 tfrom2 ud2 destroy2.

Lemma two_bindings_world :
  b1 <> b2
  /\ bindings w2 !! b1 = Some L1 /\ bindings w2 !! b2 = Some L2
  /\ objects w2 = objects w0
  /\ trace w2 = trace w0
  /\ handlers w2 !!! A = [(Z.pos (handler_seq w0), OnSourceNotify b1)]
  /\ handlers w2 !!! B = [(Z.pos (handler_seq w1), OnSourceNotify b2)]
  /\ (Q <> A -> handlers w2 !!! Q = [])
  /\ readable pa = true /\ readable pb = true
  /\ writable_now pb = true /\ writable_now pq = true.
Proof.
  destruct (bind_success_preconditions _ _ _ _ _ _ _ _ _ _ _ _ Hbind1)
    as (so & to & pa' & pb' & Hso & Hto & Hpa' & Hpb' & Hne & Hra & Hwb & Hbi).
  rewrite HoA in Hso. injection Hso as <-. rewrite HoB in Hto. injection Hto as <-.
  rewrite Hpa in Hpa'. injection Hpa' as <-. rewrite Hpb in Hpb'. injection Hpb' as <-.
  pose proof Hbind1 as Hrun1.
  rewrite (bind_run_fresh w0 A x B y fl1 tto1 tfrom1 ud1 destroy1 oa ob pa pb
             HoA HoB Hpa Hpb Hne Hra Hwb Hbi HAB HqA HqB) in Hrun1.
  injection Hrun1 as Hb1 Hw1.
  destruct (bind_success_preconditions _ _ _ _ _ _ _ _ _ _ _ _ Hbind2)
    as (so2 & to2 & pa2 & pb2 & Hso2 & Hto2 & Hpa2 & Hpb2 & Hne2 & Hra2 & Hwb2 & Hbi2).
  assert (Hobj1 : objects w1 = objects w0) by (now rewrite <- Hw1).
  rewrite Hobj1, HoB in Hso2. injection Hso2 as <-.
  rewrite Hobj1, HoQ in Hto2. injection Hto2 as <-.
  rewrite Hpb in Hpa2. injection Hpa2 as <-. rewrite Hpq in Hpb2. injection Hpb2 as <-.
  pose proof (bind_run w1 B y Q q fl2 tto2 tfrom2 ud2 destroy2 ob oq pb pq) as Hspec.
  rewrite Hobj1 in Hspec. specialize (Hspec HoB HoQ Hpb Hpq Hne2 Hra2 Hwb2 Hbi2).
  rewrite Hbind2 in Hspec. destruct Hspec as (Hb2 & (qd & c & na & Hw2) & _).
  injection Hb2 as Hb2.
  assert (Hn1 : next_addr w1 = S (S (S (next_addr w0)))) by (now rewrite <- Hw1).
  assert (Hb12 : b1 <> b2) by (rewrite <- Hb1, Hb2, Hn1; lia).
  assert (Hbs1 : bindings w1 = <[b1 := L1]> (bindings w0)).
  { rewrite <- Hw1, <- Hb1. reflexivity. }
  assert (Hhs1 : handlers w1 = <[A := [(Z.pos (handler_seq w0), OnSourceNotify b1)]]>
                                 (handlers w0)).
  { rewrite <- Hw1, <- Hb1. unfold fresh_registry, bound_world, bound_handlers. simpl.
    now rewrite Hone1, HhA. }
  split; [exact Hb12|].
  rewrite Hw2. unfold bound_world, bound_handlers. simpl. rewrite Hone2, <- Hb2, Hbs1, Hhs1.
  split; [now rewrite lookup_insert_ne, lookup_insert_eq by congruence|].
  split; [now rewrite lookup_insert_eq|].
  split; [exact Hobj1|]. split; [now rewrite <- Hw1|].
  split; [now rewrite lookup_total_insert_ne, lookup_total_insert_eq by congruence|].
  split.
  { rewrite lookup_total_insert_eq, lookup_total_insert_ne by congruence.
    now rewrite HhB. }
  split.
  { intros HQA. rewrite !lookup_total_insert_ne by congruence. exact HhQ. }
  repeat split; assumption.
Qed.


(** What a world keeps of [w2] when property values and trace only have
    changed since. *)
Lemma written_chain w :
  written_only w2 w ->
  bindings w !! b1 = Some L1 /\ bindings w !! b2 = Some L2
  /\ handlers w = handlers w2
  /\ (exists oa', objects w !! A = Some oa' /\ g_class oa' = g_class oa)
  /\ (exists ob', objects w !! B = Some ob' /\ g_class ob' = g_class ob)
  /\ (exists oq', objects w !! Q = Some oq' /\ g_class oq' = g_class oq).
Proof.
  intros Hinv.
  destruct two_bindings_world as (_ & Fb1 & Fb2 & Fobj & _).
  assert (Hcls : forall O o, objects w0 !! O = Some o ->
            exists o', objects w !! O = Some o' /\ g_class o' = g_class o).
  { intros O o Ho. pose proof (wo_objects _ _ Hinv O) as HO.
    rewrite Fobj, Ho in HO. destruct (objects w !! O) as [o'|]; [eauto|contradiction]. }
  rewrite (wo_bindings _ _ Hinv).
  split; [exact Fb1|]. split; [exact Fb2|]. split; [exact (wo_handlers _ _ Hinv)|].
  split; [now apply Hcls|]. split; [now apply Hcls|now apply Hcls].
Qed.

(** The handler of the first binding, for any setter. *)
Lemma first_handler sp w :
  written_only w2 w ->
  on_source_notify sp A pa b1 w
  = (let (res, tv) :=
       f1 b1 (default (g_value_init (G_PARAM_SPEC_VALUE_TYPE pa)) (peek w A x))
         (g_value_init (G_PARAM_SPEC_VALUE_TYPE pb)) ud1 in
     if res
     then guarded sp b1 (Some B) y (g_param_value_validate pb tv) w
     else Ok tt w).
Proof.
  intros Hinv.
  destruct (written_chain w Hinv) as (Hb1 & _ & _ & (oa' & HoA' & HcA) & _).
  destruct two_bindings_world as (_ & _ & _ & _ & _ & _ & _ & _ & Hra & _).
  pose proof (find_property_name _ _ _ Hpa) as Hx.
  pose proof (find_property_name _ _ _ Hpb) as Hy.
  rewrite (on_source_notify_run sp A pa b1 w L1 A oa' pa pb f1
             Hb1 eq_refl Hx eq_refl eq_refl eq_refl eq_refl HoA'
             (eq_trans (f_equal (fun c => g_object_class_find_property c (pspec_name pa))
                          HcA)
                (eq_trans (f_equal _ Hx) Hpa)) Hra).
  rewrite Hx, Hy. reflexivity.
Qed.

(** The handler of the second binding, while the first one writes. *)
Lemma second_handler sp w v1 :
  written_only w2 w ->
  on_source_notify sp B pb b2
    (poke B y v1 (set_bindings (insert b1 (with_is_frozen true L1)) w))
  = (let (res, tv) :=
       f2 b2 v1 (g_value_init (G_PARAM_SPEC_VALUE_TYPE pq)) ud2 in
     if res
     then guarded sp b2 (Some Q) q (g_param_value_validate pq tv)
            (poke B y v1 (set_bindings (insert b1 (with_is_frozen true L1)) w))
     else Ok tt (poke B y v1 (set_bindings (insert b1 (with_is_frozen true L1)) w))).
Proof.
  intros Hinv.
  destruct (written_chain w Hinv) as (_ & Hb2 & _ & _ & (ob' & HoB' & HcB) & _).
  destruct two_bindings_world
    as (Hb12 & _ & _ & _ & _ & _ & _ & _ & _ & Hrb & _).
  pose proof (find_property_name _ _ _ Hpb) as Hy.
  pose proof (find_property_name _ _ _ Hpq) as Hq.
  set (wf := set_bindings (insert b1 (with_is_frozen true L1)) w).
  assert (HoBf : objects wf !! B = Some ob') by exact HoB'.
  assert (HbB2 : bindings (poke B y v1 wf) !! b2 = Some L2).
  { rewrite poke_bindings. unfold wf. simpl.
    rewrite lookup_insert_ne by exact Hb12. exact Hb2. }
  rewrite (on_source_notify_run sp B pb b2 (poke B y v1 wf) L2 B _ pb pq f2
             HbB2 eq_refl Hy eq_refl eq_refl eq_refl eq_refl
             (poke_objects_same B y v1 wf ob' HoBf)
             (eq_trans (f_equal (fun c => g_object_class_find_property c (pspec_name pb))
                          HcB)
                (eq_trans (f_equal _ Hy) Hpb)) Hrb).
  rewrite Hy, Hq, (peek_poke_same B y v1 wf ob' HoBf). reflexivity.
Qed.

(** The write of the first handler reaches the emission on the middle
    object. *)
Lemma first_write k w v1 :
  written_only w2 w ->
  g_object_set_property_in (S k) [(A, x)] (Some B) y v1
    (set_bindings (insert b1 (with_is_frozen true L1)) w)
  = g_signal_emit_notify (g_object_set_property_in k [(B, y); (A, x)]) k B pb
      (poke B y v1 (set_bindings (insert b1 (with_is_frozen true L1)) w)).
Proof.
  intros Hinv.
  destruct (written_chain w Hinv) as (_ & _ & _ & _ & (ob' & HoB' & HcB) & _).
  destruct two_bindings_world as (_ & _ & _ & _ & _ & _ & _ & _ & _ & _ & Hwb & _).
  rewrite (set_property_in_step k [(A, x)] B y v1
             (set_bindings (insert b1 (with_is_frozen true L1)) w) pb ob' HoB'
             (eq_trans (f_equal (fun c => g_object_class_find_property c y) HcB) Hpb)
             Hwb).
  rewrite emission_find_other by (intros E; symmetry in E; now contradiction HAB).
  reflexivity.
Qed.

(** One run of the handler of the first binding with fuel for the two
    nested writes: the middle property and the last one are written. *)
Lemma two_bindings_round k w tv1 tv2 :
  written_only w2 w ->
  f1 b1 (default (g_value_init (G_PARAM_SPEC_VALUE_TYPE pa)) (peek w A x))
    (g_value_init (G_PARAM_SPEC_VALUE_TYPE pb)) ud1 = (true, tv1) ->
  f2 b2 (g_param_value_validate pb tv1) (g_value_init (G_PARAM_SPEC_VALUE_TYPE pq)) ud2
  = (true, tv2) ->
  on_source_notify (g_object_set_property_in (S (S k)) [(A, x)]) A pa b1 w
  = Ok tt (poke Q q (g_param_value_validate pq tv2)
             (poke B y (g_param_value_validate pb tv1) w)).
Proof.
  intros Hinv Hf1 Hf2.
  destruct (written_chain w Hinv)
    as (HbA1 & HbA2 & Hh & (oa' & HoA' & HcA) & (ob' & HoB' & HcB) & (oq0 & HoQ' & HcQ)).
  destruct two_bindings_world
    as (Hb12 & _ & _ & _ & _ & FhA & FhB & FhQ & Hra & Hrb & Hwb & Hwq).
  set (v1 := g_param_value_validate pb tv1) in *.
  set (v2 := g_param_value_validate pq tv2).
  set (sp2 := g_object_set_property_in (S (S k)) [(A, x)]).
  set (sp1 := g_object_set_property_in (S k) [(B, y); (A, x)]).
  set (wf := set_bindings (insert b1 (with_is_frozen true L1)) w).
  set (wB := poke B y v1 wf).
  assert (HbB1 : bindings wB !! b1 = Some (with_is_frozen true L1)).
  { unfold wB. rewrite poke_bindings. unfold wf. simpl. apply lookup_insert_eq. }
  assert (HbB2 : bindings wB !! b2 = Some L2).
  { unfold wB. rewrite poke_bindings. unfold wf. simpl.
    rewrite lookup_insert_ne by exact Hb12. exact HbA2. }
  destruct (poke_class B y v1 wf Q oq0 HoQ') as (oq' & HoBQ & Hc2).
  pose proof (eq_trans Hc2 HcQ) as Hclass.
  assert (HhB' : handlers wB = handlers w2).
  { unfold wB. rewrite poke_handlers. exact Hh. }
  (* the write of the second binding finds no handler that reacts *)
  assert (H3 : guarded sp1 b2 (Some Q) q v2 wB = Ok tt (poke Q q v2 wB)).
  { apply (guarded_quiet k _ b2 L2 Q q pq oq' v2 wB HbB2 eq_refl HoBQ
             (eq_trans (f_equal (fun c => _ c q) Hclass) Hpq) Hwq).
    intros sp w' Hw' Hh'. rewrite HhB' in Hh'.
    destruct (decide (Q = A)) as [E|HQA].
    - apply (emit_frozen _ _ _ _ b1 (with_is_frozen true L1)).
      + rewrite Hw', lookup_insert_ne by congruence. exact HbB1.
      + reflexivity.
      + rewrite Hh', E, FhA. now constructor.
    - apply emit_notify_quiet. rewrite Hh', (FhQ HQA). constructor. }
  (* the handler of the second binding, and the emission on the middle object *)
  assert (H2 : on_source_notify sp1 B pb b2 wB = Ok tt (poke Q q v2 wB)).
  { unfold wB, wf. rewrite (second_handler sp1 w v1 Hinv), Hf2. exact H3. }
  assert (H2' : g_signal_emit_notify sp1 (S k) B pb wB = Ok tt (poke Q q v2 wB)).
  { apply emit_notify_once. rewrite HhB', FhB.
    rewrite (emit_handlers_cons sp1 B pb _ (OnSourceNotify b2) [] wB _ H2).
    rewrite (notified_again_poke B pb wB Q q v2 oq' HoBQ)
      by (intros E; now contradiction HQB).
    reflexivity. }
  (* the write of the first binding, under its flag *)
  rewrite (first_handler sp2 w Hinv), Hf1. fold v1.
  unfold guarded at 1. unfold bind at 1. unfold assign at 1. unfold bind at 1.
  unfold get_binding at 1. rewrite HbA1. unfold put_binding, modify. cbv beta iota.
  unfold bind at 1. unfold sp2.
  rewrite (first_write (S k) w v1 Hinv). fold wf. fold wB. fold sp1. rewrite H2'.
  unfold assign, bind, get_binding, put_binding, modify, ret.
  rewrite poke_bindings, HbB1. unfold wB, wf. rewrite !poke_set_bindings.
  rewrite set_bindings_thaw; [reflexivity| |reflexivity].
  now rewrite !poke_bindings.
Qed.

Lemma two_bindings_run k v tv1 tv2 :
  (Q = A -> q <> x) ->
  f1 b1 v (g_value_init (G_PARAM_SPEC_VALUE_TYPE pb)) ud1 = (true, tv1) ->
  f2 b2 (g_param_value_validate pb tv1) (g_value_init (G_PARAM_SPEC_VALUE_TYPE pq)) ud2
  = (true, tv2) ->
  g_object_set_property (S (S (S k))) (Some A) x v w2
  = Ok tt (poke Q q (g_param_value_validate pq tv2)
             (poke B y (g_param_value_validate pb tv1) (poke A x v w2))).
Proof.
  intros Hring Hf1 Hf2.
  destruct two_bindings_world
    as (Hb12 & Fb1 & Fb2 & Fobj & Ftr & FhA & FhB & FhQ & Hra & Hrb & Hwb & Hwq).
  pose proof (find_property_name _ _ _ Hpa) as Hx.
  assert (HoA2 : objects w2 !! A = Some oa) by (now rewrite Fobj).
  set (v1 := g_param_value_validate pb tv1) in *.
  set (v2 := g_param_value_validate pq tv2).
  set (sp2 := g_object_set_property_in (S (S k)) [(A, x)]).
  set (wA := poke A x v w2).
  pose proof (written_only_poke A x v w2) as Hinv. fold wA in Hinv.
  destruct (written_chain wA Hinv)
    as (_ & _ & _ & _ & (ob' & HoAB & _) & (oq1 & Hq1 & _)).
  assert (H0 : on_source_notify sp2 A pa b1 wA = Ok tt (poke Q q v2 (poke B y v1 wA))).
  { apply (two_bindings_round k wA tv1 tv2 Hinv); [|exact Hf2].
    unfold wA. rewrite (peek_poke_same _ _ _ _ _ HoA2). exact Hf1. }
  rewrite (set_property_step (S (S k)) A x v w2 pa oa HoA2 Hpa Hwa).
  fold sp2. fold wA. apply emit_notify_once.
  unfold wA at 1. rewrite poke_handlers, FhA.
  rewrite (emit_handlers_cons sp2 A pa _ (OnSourceNotify b1) [] wA _ H0).
  destruct (poke_class B y v1 wA Q oq1 Hq1) as (oq2 & HoQ' & _).
  rewrite (notified_again_trace A pa wA _
             [EvSetProperty B y v1; EvSetProperty Q q v2]).
  2:{ rewrite (poke_trace _ _ _ _ _ HoQ'), (poke_trace _ _ _ _ _ HoAB).
      now rewrite <- app_assoc. }
  cbn [existsb].
  rewrite (renotifies_other A pa B y v1) by (intros E; symmetry in E; now contradiction HAB).
  rewrite (renotifies_other A pa Q q v2) by (rewrite Hx; exact Hring).
  reflexivity.
Qed.

(** When the second binding leads back to the property the first one
    starts from, one pass of the emission on that property ends with the
    request to start over, or does not end for lack of fuel. *)
Lemma cycle_round k w :
  Q = A -> q = x ->
  (forall u, fst (f1 b1 u (g_value_init (G_PARAM_SPEC_VALUE_TYPE pb)) ud1) = true) ->
  (forall u, fst (f2 b2 u (g_value_init (G_PARAM_SPEC_VALUE_TYPE pq)) ud2) = true) ->
  written_only w2 w ->
  g_signal_emit_handlers (g_object_set_property_in k [(A, x)]) A pa (handlers w !!! A) w
  = OutOfFuel
  \/ exists w',
       g_signal_emit_handlers (g_object_set_property_in k [(A, x)]) A pa
         (handlers w !!! A) w = Ok true w'
       /\ written_only w2 w'.
Proof.
  intros HQ Hqx Hs1 Hs2 Hinv.
  destruct (written_chain w Hinv)
    as (HbA1 & HbA2 & Hh & _ & (ob' & HoB' & _) & (oq0 & HoQ' & _)).
  destruct two_bindings_world
    as (Hb12 & _ & _ & _ & _ & FhA & FhB & _).
  pose proof (find_property_name _ _ _ Hpa) as Hx.
  rewrite Hh, FhA.
  destruct (f1 b1 (default (g_value_init (G_PARAM_SPEC_VALUE_TYPE pa)) (peek w A x))
              (g_value_init (G_PARAM_SPEC_VALUE_TYPE pb)) ud1) as [r1 tv1] eqn:Hf1.
  pose proof (Hs1 (default (g_value_init (G_PARAM_SPEC_VALUE_TYPE pa)) (peek w A x)))
    as Hr1. rewrite Hf1 in Hr1. simpl in Hr1. subst r1.
  set (v1 := g_param_value_validate pb tv1) in *.
  destruct (f2 b2 v1 (g_value_init (G_PARAM_SPEC_VALUE_TYPE pq)) ud2)
    as [r2 tv2] eqn:Hf2.
  pose proof (Hs2 v1) as Hr2. rewrite Hf2 in Hr2. simpl in Hr2. subst r2.
  set (wf := set_bindings (insert b1 (with_is_frozen true L1)) w).
  set (wB := poke B y v1 wf).
  assert (HhB' : handlers wB = handlers w2).
  { unfold wB. rewrite poke_handlers. exact Hh. }
  assert (HbB2 : bindings wB !! b2 = Some L2).
  { unfold wB. rewrite poke_bindings. unfold wf. simpl.
    rewrite lookup_insert_ne by exact Hb12. exact HbA2. }
  destruct k as [|[|k]].
  - (* no fuel for the write of the first handler *)
    left. apply emit_handlers_out_of_fuel. cbn [invoke].
    rewrite (first_handler _ w Hinv), Hf1.
    now apply (guarded_out_of_fuel _ b1 L1).
  - (* no fuel for the write of the second handler *)
    left. apply emit_handlers_out_of_fuel. cbn [invoke].
    rewrite (first_handler _ w Hinv), Hf1. fold v1.
    apply (guarded_out_of_fuel _ b1 L1); [exact HbA1|].
    rewrite (first_write 0 w v1 Hinv). fold wf. fold wB.
    apply emit_notify_out_of_fuel. rewrite HhB', FhB.
    apply emit_handlers_out_of_fuel. cbn [invoke].
    unfold wB, wf. rewrite (second_handler _ w v1 Hinv), Hf2.
    now apply (guarded_out_of_fuel _ b2 L2).
  - (* the round is made, and the write that comes back asks for another *)
    right.
    set (v2 := g_param_value_validate pq tv2).
    exists (poke Q q v2 (poke B y v1 w)).
    pose proof (two_bindings_round k w tv1 tv2 Hinv Hf1 Hf2) as H0.
    fold v1 in H0. fold v2 in H0.
    rewrite (emit_handlers_cons _ A pa _ (OnSourceNotify b1) [] w _ H0).
    destruct (poke_class B y v1 w Q oq0 HoQ') as (oq2 & HoQ2 & _).
    rewrite (notified_again_trace A pa w _
               [EvSetProperty B y v1; EvSetProperty Q q v2]).
    2:{ rewrite (poke_trace _ _ _ _ _ HoQ2), (poke_trace _ _ _ _ _ HoB').
        now rewrite <- app_assoc. }
    cbn [existsb]. rewrite HQ, Hqx, <- Hx, renotifies_same, orb_true_r.
    split; [reflexivity|].
    eapply written_only_trans; [exact Hinv|].
    eapply written_only_trans; apply written_only_poke.
Qed.

Lemma cycle_emission k restarts w :
  Q = A -> q = x ->
  (forall u, fst (f1 b1 u (g_value_init (G_PARAM_SPEC_VALUE_TYPE pb)) ud1) = true) ->
  (forall u, fst (f2 b2 u (g_value_init (G_PARAM_SPEC_VALUE_TYPE pq)) ud2) = true) ->
  written_only w2 w ->
  g_signal_emit_notify (g_object_set_property_in k [(A, x)]) restarts A pa w = OutOfFuel.
Proof.
  intros HQ Hqx Hs1 Hs2. revert w.
  induction restarts as [|restarts IH]; intros w Hinv;
    destruct (cycle_round k w HQ Hqx Hs1 Hs2 Hinv) as [Hout|(w' & Hpass & Hinv')];
    try (now apply emit_notify_out_of_fuel).
  - cbn [g_signal_emit_notify]. unfold bind, get_world. now rewrite Hpass.
  - rewrite (emit_notify_again _ restarts A pa w w' Hpass). now apply IH.
Qed.

Lemma three_pokes O1 n1 v1 O2 n2 v2 O3 n3 v3 w o1 o2 o3 :
  objects w !! O1 = Some o1 -> objects w !! O2 = Some o2 -> objects w !! O3 = Some o3 ->
  let w' := poke O3 n3 v3 (poke O2 n2 v2 (poke O1 n1 v1 w)) in
  peek w' O3 n3 = Some v3
  /\ ((O3 = O2 -> n3 <> n2) -> peek w' O2 n2 = Some v2)
  /\ ((O3 = O1 -> n3 <> n1) -> (O2 = O1 -> n2 <> n1) -> peek w' O1 n1 = Some v1)
  /\ bindings w' = bindings w
  /\ trace w' = trace w ++ [EvSetProperty O1 n1 v1; EvSetProperty O2 n2 v2;
                            EvSetProperty O3 n3 v3].
Proof.
  intros H1 H2 H3 w'. unfold w'.
  destruct (poke_class O1 n1 v1 w O2 o2 H2) as (o2' & H2' & _).
  destruct (poke_class O1 n1 v1 w O3 o3 H3) as (o3' & H3' & _).
  destruct (poke_class O2 n2 v2 _ O3 o3' H3') as (o3'' & H3'' & _).
  split; [eapply peek_poke_same; eassumption|].
  split; [|split; [|split]].
  - intros Hne. rewrite peek_poke_other by exact Hne. eapply peek_poke_same; eassumption.
  - intros Hne3 Hne2. rewrite !peek_poke_other by assumption.
    eapply peek_poke_same; eassumption.
  - now rewrite !poke_bindings.
  - rewrite (poke_trace _ _ _ _ _ H3''), (poke_trace _ _ _ _ _ H2'),
      (poke_trace _ _ _ _ _ H1). now rewrite <- !app_assoc.
Qed.

(** X22: two one-way bindings in a row, from [A.x] to [B.y] and from [B.y]
    on to [Q.q], made on endpoints without handlers.  A write of [v] to
    [A.x] reaches [Q.q] within the same call: [B.y] receives the validated
    result of the first transformation of [v], [Q.q] the validated result of
    the second transformation of the value now in [B.y], [A.x] keeps [v],
    the bindings are as before and the trace shows the three writes in this
    order. *)
Theorem chained_bindings_propagate_through k v tv1 tv2 :
  (Q = A -> q <> x) ->
  f1 b1 v (g_value_init (G_PARAM_SPEC_VALUE_TYPE pb)) ud1 = (true, tv1) ->
  f2 b2 (g_param_value_validate pb tv1) (g_value_init (G_PARAM_SPEC_VALUE_TYPE pq)) ud2
  = (true, tv2) ->
  exists w3,
    g_object_set_property (S (S (S k))) (Some A) x v w2 = Ok tt w3
    /\ peek w3 A x = Some v
    /\ peek w3 B y = Some (g_param_value_validate pb tv1)
    /\ peek w3 Q q = Some (g_param_value_validate pq tv2)
    /\ bindings w3 = bindings w2
    /\ trace w3 = trace w2 ++ [EvSetProperty A x v;
                               EvSetProperty B y (g_param_value_validate pb tv1);
                               EvSetProperty Q q (g_param_value_validate pq tv2)].
Proof.
  intros Hne Hf1 Hf2. rewrite (two_bindings_run k v tv1 tv2 Hne Hf1 Hf2).
  eexists. split; [reflexivity|].
  destruct two_bindings_world as (_ & _ & _ & Fobj & _).
  destruct (three_pokes A x v B y (g_param_value_validate pb tv1)
              Q q (g_param_value_validate pq tv2) w2 oa ob oq)
    as (P3 & P2 & P1 & Pb & Pt); try (now rewrite Fobj).
  split; [apply P1; [exact Hne|intros E; now contradiction HAB]|].
  split; [apply P2; intros E; now contradiction HQB|].
  split; [exact P3|]. split; [exact Pb|exact Pt].
Qed.

(** X23: two one-way bindings closed into a cycle, from [A.x] to [B.y] and
    from [B.y] back to [A.x], with transformations that always report
    success.  A write to [A.x] does not come to an end: the write that comes
    back to [A.x] is stored while the emission for [A.x] is still under way,
    the guard flags are cleared on the way out, and the emission starts
    over with the new value.  No amount of fuel lets the run return. *)
Theorem cycle_of_bindings_never_settles k v :
  Q = A -> q = x ->
  (forall u, fst (f1 b1 u (g_value_init (G_PARAM_SPEC_VALUE_TYPE pb)) ud1) = true) ->
  (forall u, fst (f2 b2 u (g_value_init (G_PARAM_SPEC_VALUE_TYPE pa)) ud2) = true) ->
  g_object_set_property k (Some A) x v w2 = OutOfFuel.
Proof.
  intros HQ Hqx Hs1 Hs2.
  assert (Hpqa : pq = pa).
  { pose proof HoQ as E. rewrite HQ, HoA in E. injection E as E.
    pose proof Hpq as E'. rewrite <- E, Hqx, Hpa in E'. now injection E' as ->. }
  rewrite <- Hpqa in Hs2.
  destruct k as [|k]; [reflexivity|].
  destruct two_bindings_world as (_ & _ & _ & Fobj & _).
  assert (HoA2 : objects w2 !! A = Some oa) by (now rewrite Fobj).
  rewrite (set_property_step k A x v w2 pa oa HoA2 Hpa Hwa).
  apply (cycle_emission k k _ HQ Hqx Hs1 Hs2). apply written_only_poke.
Qed.

End Chains.

Section FanOut.
Context `{GTypeSystem}.
Local Arguments g_object_set_property : simpl never.

Variables (w0 w1 w2 : World) (A B Q b1 b2 : nat) (x y q : string) (fl1 fl2 : Z).
Variables (tto1 tfrom1 tto2 tfrom2 : option GBindingTransformFunc).
Variables (ud1 ud2 : gpointer) (destroy1 destroy2 : option nat).
Variables (oa ob oq : GObject) (pa pb pq : GParamSpec).

Hypothesis Hbind1 :
  g_object_bind_property_full (Some A) x (Some B) y fl1 tto1 tfrom1 ud1 destroy1 w0
  = Ok (inr b1) w1.
Hypothesis Hbind2 :
  g_object_bind_property_full (Some A) x (Some Q) q fl2 tto2 tfrom2 ud2 destroy2 w1
  = Ok (inr b2) w2.
Hypothesis Hone1 : bidirectional fl1 = false.
Hypothesis Hone2 : bidirectional fl2 = false.
Hypothesis HAB : A <> B.
Hypothesis HQA : Q <> A.
Hypothesis HhA : handlers w0 !!! A = [].
Hypothesis HhB : handlers w0 !!! B = [].
Hypothesis HhQ : handlers w0 !!! Q = [].
Hypothesis HqA : qdata w0 !! A = None.
Hypothesis HqB : qdata w0 !! B = None.
Hypothesis HoA : objects w0 !! A = Some oa.
Hypothesis HoB : objects w0 !! B = Some ob.
Hypothesis HoQ : objects w0 !! Q = Some oq.
Hypothesis Hpa : g_object_class_find_property (g_class oa) x = Some pa.
Hypothesis Hpb : g_object_class_find_property (g_class ob) y = Some pb.
Hypothesis Hpq : g_object_class_find_property (g_class oq) q = Some pq.
Hypothesis Hwa : writable_now pa = true.

Let f1 := default default_transform_to tto1.
Let f2 := default default_transform_to tto2.
Let L1 := bound_binding w0 A B pa pb x y fl1 tto1 tfrom1 ud1 destroy1.
Let L2 := bound_binding w1 A Q pa pq x q fl2 tto2 tfrom2 ud2 destroy2.

Lemma fan_out_world :
  b1 <> b2
  /\ bindings w2 !! b1 = Some L1 /\ bindings w2 !! b2 = Some L2
  /\ objects w2 = objects w0
  /\ handlers w2 !!! A = [(Z.pos (handler_seq w0), OnSourceNotify b1);
                          (Z.pos (handler_seq w1), OnSourceNotify b2)]
  /\ handlers w2 !!! B = []
  /\ handlers w2 !!! Q = []
  /\ readable pa = true /\ writable_now pb = true /\ writable_now pq = true.
Proof.
  destruct (bind_success_preconditions _ _ _ _ _ _ _ _ _ _ _ _ Hbind1)
    as (so & to & pa' & pb' & Hso & Hto & Hpa' & Hpb' & Hne & Hra & Hwb & Hbi).
  rewrite HoA in Hso. injection Hso as <-. rewrite HoB in Hto. injection Hto as <-.
  rewrite Hpa in Hpa'. injection Hpa' as <-. rewrite Hpb in Hpb'. injection Hpb' as <-.
  pose proof Hbind1 as Hrun1.
  rewrite (bind_run_fresh w0 A x B y fl1 tto1 tfrom1 ud1 destroy1 oa ob pa pb
             HoA HoB Hpa Hpb Hne Hra Hwb Hbi HAB HqA HqB) in Hrun1.
  injection Hrun1 as Hb1 Hw1.
  destruct (bind_success_preconditions _ _ _ _ _ _ _ _ _ _ _ _ Hbind2)
    as (so2 & to2 & pa2 & pb2 & Hso2 & Hto2 & Hpa2 & Hpb2 & Hne2 & Hra2 & Hwb2 & Hbi2).
  assert (Hobj1 : objects w1 = objects w0) by (now rewrite <- Hw1).
  rewrite Hobj1, HoA in Hso2. injection Hso2 as <-.
  rewrite Hobj1, HoQ in Hto2. injection Hto2 as <-.
  rewrite Hpa in Hpa2. injection Hpa2 as <-. rewrite Hpq in Hpb2. injection Hpb2 as <-.
  pose proof (bind_run w1 A x Q q fl2 tto2 tfrom2 ud2 destroy2 oa oq pa pq) as Hspec.
  rewrite Hobj1 in Hspec. specialize (Hspec HoA HoQ Hpa Hpq Hne2 Hra2 Hwb2 Hbi2).
  rewrite Hbind2 in Hspec. destruct Hspec as (Hb2 & (qd & c & na & Hw2) & _).
  injection Hb2 as Hb2.
  assert (Hn1 : next_addr w1 = S (S (S (next_addr w0)))) by (now rewrite <- Hw1).
  assert (Hb12 : b1 <> b2) by (rewrite <- Hb1, Hb2, Hn1; lia).
  assert (Hbs1 : bindings w1 = <[b1 := L1]> (bindings w0)).
  { rewrite <- Hw1, <- Hb1. reflexivity. }
  assert (Hhs1 : handlers w1 = <[A := [(Z.pos (handler_seq w0), OnSourceNotify b1)]]>
                                 (handlers w0)).
  { rewrite <- Hw1, <- Hb1. unfold fresh_registry, bound_world, bound_handlers. simpl.
    now rewrite Hone1, HhA. }
  split; [exact Hb12|].
  rewrite Hw2. unfold bound_world, bound_handlers. simpl. rewrite Hone2, <- Hb2, Hbs1, Hhs1.
  split; [now rewrite lookup_insert_ne, lookup_insert_eq by congruence|].
  split; [now rewrite lookup_insert_eq|].
  split; [exact Hobj1|].
  split; [now rewrite !lookup_total_insert_eq|].
  split; [now rewrite !lookup_total_insert_ne by congruence|].
  split; [now rewrite !lookup_total_insert_ne by congruence|].
  repeat split; assumption.
Qed.

Lemma fan_out_run k v tv1 tv2 :
  f1 b1 v (g_value_init (G_PARAM_SPEC_VALUE_TYPE pb)) ud1 = (true, tv1) ->
  f2 b2 v (g_value_init (G_PARAM_SPEC_VALUE_TYPE pq)) ud2 = (true, tv2) ->
  (Q = B -> q <> y) ->
  g_object_set_property (S (S k)) (Some A) x v w2
  = Ok tt (poke Q q (g_param_value_validate pq tv2)
             (poke B y (g_param_value_validate pb tv1) (poke A x v w2))).
Proof.
  intros Hf1 Hf2 Hqy.
  destruct fan_out_world
    as (Hb12 & Fb1 & Fb2 & Fobj & FhA & FhB & FhQ & Hra & Hwb & Hwq).
  pose proof (find_property_name _ _ _ Hpa) as Hx.
  pose proof (find_property_name _ _ _ Hpb) as Hy.
  pose proof (find_property_name _ _ _ Hpq) as Hq.
  assert (HoA2 : objects w2 !! A = Some oa) by (now rewrite Fobj).
  assert (HoB2 : objects w2 !! B = Some ob) by (now rewrite Fobj).
  assert (HoQ2 : objects w2 !! Q = Some oq) by (now rewrite Fobj).
  set (v1 := g_param_value_validate pb tv1).
  set (v2 := g_param_value_validate pq tv2).
  set (sp := g_object_set_property_in (S k) [(A, x)]).
  set (wA := poke A x v w2).
  set (wB := poke B y v1 wA).
  assert (HbA1 : bindings wA !! b1 = Some L1) by (unfold wA; now rewrite poke_bindings).
  assert (HoAA : objects wA !! A
                 = Some (mkGObject (g_class oa) (<[x := v]> (g_properties oa))))
    by (apply poke_objects_same; exact HoA2).
  assert (HoAB : objects wA !! B = Some ob)
    by (unfold wA; rewrite poke_objects_other by exact HAB; exact HoB2).
  assert (HbB2 : bindings wB !! b2 = Some L2)
    by (unfold wB, wA; now rewrite !poke_bindings).
  assert (HoBA : objects wB !! A
                 = Some (mkGObject (g_class oa) (<[x := v]> (g_properties oa)))).
  { unfold wB. rewrite poke_objects_other by congruence. exact HoAA. }
  destruct (poke_class A x v w2 Q oq HoQ2) as (oq1 & Hq1 & Hc1).
  destruct (poke_class B y v1 wA Q oq1 Hq1) as (oq' & HoBQ & Hc2).
  pose proof (eq_trans Hc2 Hc1) as Hclass.
  (* the first binding *)
  assert (H1 : on_source_notify sp A pa b1 wA = Ok tt wB).
  { rewrite (on_source_notify_run sp A pa b1 wA L1 A _ pa pb f1
               HbA1 eq_refl Hx eq_refl eq_refl eq_refl eq_refl HoAA
               (eq_trans (f_equal _ Hx) Hpa) Hra).
    rewrite Hx. unfold wA at 1. rewrite (peek_poke_same _ _ _ _ _ HoA2).
    change (transform_data L1) with ud1. cbn [default from_option]. unfold id.
    rewrite Hf1. change (target L1) with (Some B). rewrite Hy.
    apply (guarded_quiet k _ b1 L1 B y pb ob v1 wA HbA1 eq_refl HoAB Hpb Hwb).
    intros sp' w' _ Hh'. apply emit_notify_quiet. rewrite Hh'. unfold wA.
    rewrite poke_handlers, FhB. constructor. }
  (* the second binding *)
  assert (H2 : on_source_notify sp A pa b2 wB = Ok tt (poke Q q v2 wB)).
  { rewrite (on_source_notify_run sp A pa b2 wB L2 A _ pa pq f2
               HbB2 eq_refl Hx eq_refl eq_refl eq_refl eq_refl HoBA
               (eq_trans (f_equal _ Hx) Hpa) Hra).
    rewrite Hx. unfold wB at 1.
    rewrite peek_poke_other by (intros E; now contradiction HAB).
    unfold wA at 1. rewrite (peek_poke_same _ _ _ _ _ HoA2).
    change (transform_data L2) with ud2. cbn [default from_option]. unfold id.
    rewrite Hf2. change (target L2) with (Some Q). rewrite Hq.
    apply (guarded_quiet k _ b2 L2 Q q pq oq' v2 wB HbB2 eq_refl HoBQ
             (eq_trans (f_equal (fun c => _ c q) Hclass) Hpq) Hwq).
    intros sp' w' _ Hh'. apply emit_notify_quiet. rewrite Hh'. unfold wB, wA.
    rewrite !poke_handlers, FhQ. constructor. }
  (* the external write runs one after the other *)
  rewrite (set_property_step (S k) A x v w2 pa oa HoA2 Hpa Hwa).
  fold sp. fold wA. apply emit_notify_once.
  unfold wA at 1. rewrite poke_handlers, FhA.
  rewrite (emit_handlers_cons sp A pa _ (OnSourceNotify b1) _ wA _ H1).
  unfold wB at 1.
  rewrite (notified_again_poke A pa wA B y v1 ob HoAB)
    by (intros E; symmetry in E; now contradiction HAB).
  rewrite (emit_handlers_cons sp A pa _ (OnSourceNotify b2) [] wB _ H2).
  rewrite (notified_again_poke A pa wB Q q v2 oq' HoBQ)
    by (intros E; now contradiction HQA).
  reflexivity.
Qed.

(** X24: two one-way bindings of one source property, to [B.y] and to
    [Q.q].  A write of [v] to [A.x] runs the two handlers in the order the
    bindings were made; each transforms [v] itself, and both targets are
    written within the same call. *)
Theorem fan_out_reaches_both_targets k v tv1 tv2 :
  (Q = B -> q <> y) ->
  f1 b1 v (g_value_init (G_PARAM_SPEC_VALUE_TYPE pb)) ud1 = (true, tv1) ->
  f2 b2 v (g_value_init (G_PARAM_SPEC_VALUE_TYPE pq)) ud2 = (true, tv2) ->
  exists w3,
    g_object_set_property (S (S k)) (Some A) x v w2 = Ok tt w3
    /\ peek w3 A x = Some v
    /\ peek w3 B y = Some (g_param_value_validate pb tv1)
    /\ peek w3 Q q = Some (g_param_value_validate pq tv2)
    /\ bindings w3 = bindings w2
    /\ trace w3 = trace w2 ++ [EvSetProperty A x v;
                               EvSetProperty B y (g_param_value_validate pb tv1);
                               EvSetProperty Q q (g_param_value_validate pq tv2)].
Proof.
  intros Hqy Hf1 Hf2. rewrite (fan_out_run k v tv1 tv2 Hf1 Hf2 Hqy).
  eexists. split; [reflexivity|].
  destruct fan_out_world as (_ & _ & _ & Fobj & _).
  destruct (three_pokes A x v B y (g_param_value_validate pb tv1)
              Q q (g_param_value_validate pq tv2) w2 oa ob oq)
    as (P3 & P2 & P1 & Pb & Pt); try (now rewrite Fobj).
  split; [apply P1; [intros E; now contradiction HQA|intros E; now contradiction HAB]|].
  split; [apply P2; exact Hqy|].
  split; [exact P3|]. split; [exact Pb|exact Pt].
Qed.

End FanOut.

(** ** Release by the creator, and the order of destruction *)

Section Hooks.
Context `{GTypeSystem}.

Lemma destroy_without_hooks o obj w :
  objects w !! o = Some obj -> weak_refs w !!! o = [] ->
  g_object_destroy o w
  = Ok tt (set_objects (delete o) (set_qdata (delete o)
             (set_weak_refs (delete o) (set_handlers (delete o) w)))).
Proof.
  intros Ho Hw. unfold g_object_destroy, get_object, get_world, modify, bind.
  rewrite Ho, Hw. reflexivity.
Qed.

Lemma bind_reads_source_entry w src sp tgt tp fl tto tfrom ud n so to pa pb p :
  objects w !! src = Some so -> objects w !! tgt = Some to ->
  g_object_class_find_property (g_class so) sp = Some pa ->
  g_object_class_find_property (g_class to) tp = Some pb ->
  bool_decide (src = tgt) && String.eqb sp tp = false ->
  readable pa = true -> writable_now pb = true ->
  (has_flag fl G_BINDING_BIDIRECTIONAL = true ->
   writable_now pa = true /\ readable pb = true) ->
  qdata w !! src = Some p -> g_list_cells w !! p = None ->
  g_object_bind_property_full (Some src) sp (Some tgt) tp fl tto tfrom ud n w = Crash.
Proof.
  intros Hso Hto Hpa Hpb Hne Hra Hwb Hbi Hq Hc.
  destruct w as [objs bnds hs wr qd cells na hseq tr]. simpl in *.
  assert (Hne' : bool_decide (Some src = Some tgt) && (sp =? tp)%string = false).
  { rewrite <- Hne. f_equal. apply bool_decide_ext. split; congruence. }
  assert (Hwa : has_flag fl G_BINDING_BIDIRECTIONAL &&
          (has_flag (pspec_flags pa) G_PARAM_CONSTRUCT_ONLY
           || negb (has_flag (pspec_flags pa) G_PARAM_WRITABLE)) = false).
  { destruct (has_flag fl G_BINDING_BIDIRECTIONAL) eqn:Eb; [|reflexivity].
    destruct (Hbi eq_refl) as [Hw _]. now apply writable_now_false. }
  pose proof (writable_now_false _ Hwb) as Hwb'.
  assert (Hrb : has_flag fl G_BINDING_BIDIRECTIONAL
                && negb (has_flag (pspec_flags pb) G_PARAM_READABLE) = false).
  { destruct (has_flag fl G_BINDING_BIDIRECTIONAL) eqn:Eb; [|reflexivity].
    destruct (Hbi eq_refl) as [_ Hr]. unfold readable in Hr. now rewrite Hr. }
  unfold readable in Hra.
  unfold g_object_bind_property_full, g_object_new_binding, g_binding_constructed,
    add_binding_qdata, g_object_get_qdata, g_object_set_qdata, g_list_prepend,
    load_cell, store_cell, g_assert, assign, put_binding, get_binding, g_signal_connect,
    g_object_weak_ref, g_intern_string, alloc, modify, bind, get_world, get_object, ret.
  destruct (has_flag fl G_BINDING_BIDIRECTIONAL) eqn:Eb; simpl in Hwa, Hrb;
    destruct (has_flag (g_object_new_flags fl) G_BINDING_BIDIRECTIONAL) eqn:Es;
    repeat first
      [ progress simpl
      | rewrite Hso | rewrite Hto | rewrite Hne' | rewrite Hpa | rewrite Hpb
      | rewrite Hra | rewrite Hwb'
      | progress rewrite Hwa | progress rewrite Hrb
      | rewrite Hq | rewrite Hc | rewrite Eb | rewrite Es
      | rewrite lookup_insert_eq ];
    reflexivity.
Qed.

End Hooks.

Section Unbind.
Context `{GTypeSystem}.
Local Arguments g_object_set_property : simpl never.

Variables (w0 w1 : World) (A B : nat) (x y : string) (fl : Z).
Variables (tto tfrom : option GBindingTransformFunc) (ud : gpointer).
Variables (destroy : option nat) (b : nat).
Hypothesis Hrun :
  g_object_bind_property_full (Some A) x (Some B) y fl tto tfrom ud destroy w0
  = Ok (inr b) w1.
Hypothesis HAB : A <> B.
Hypothesis HhA : handlers w0 !!! A = [].
Hypothesis HhB : handlers w0 !!! B = [].
Hypothesis HwA : weak_refs w0 !!! A = [].
Hypothesis HwB : weak_refs w0 !!! B = [].
Hypothesis HqA : qdata w0 !! A = None.
Hypothesis HqB : qdata w0 !! B = None.

Lemma fresh_bind_facts :
  exists so to pa pb,
    objects w0 !! A = Some so /\ objects w0 !! B = Some to
    /\ g_object_class_find_property (g_class so) x = Some pa
    /\ g_object_class_find_property (g_class to) y = Some pb
    /\ bool_decide (A = B) && String.eqb x y = false
    /\ readable pa = true /\ writable_now pb = true
    /\ (has_flag fl G_BINDING_BIDIRECTIONAL = true ->
        writable_now pa = true /\ readable pb = true)
    /\ b = next_addr w0
    /\ w1 = fresh_registry w0 A B
              (bound_world w0 A B
                 (bound_binding w0 A B pa pb x y fl tto tfrom ud destroy) fl).
Proof.
  destruct (bind_success_preconditions _ _ _ _ _ _ _ _ _ _ _ _ Hrun)
    as (so & to & pa & pb & Hso & Hto & Hpa & Hpb & Hne & Hra & Hwb & Hbi).
  exists so, to, pa, pb.
  pose proof Hrun as Hrun'.
  rewrite (bind_run_fresh w0 A x B y fl tto tfrom ud destroy so to pa pb
             Hso Hto Hpa Hpb Hne Hra Hwb Hbi HAB HqA HqB) in Hrun'.
  injection Hrun' as <- <-. repeat split; try assumption; now apply Hbi.
Qed.

Ltac unbind_run Hso Hto :=
  repeat first [ rewrite Hso | rewrite Hto | rewrite HwA | rewrite HwB
               | rewrite HhA | rewrite HhB | rewrite <- app_assoc | teardown_step ].

(** The world after the release, whatever the handler ids are. *)
Lemma unbind_world :
  exists so to pa pb,
    (g_object_class_find_property (g_class so) x = Some pa
     /\ g_object_class_find_property (g_class to) y = Some pb
     /\ bool_decide (A = B) && String.eqb x y = false
     /\ readable pa = true /\ writable_now pb = true
     /\ (has_flag fl G_BINDING_BIDIRECTIONAL = true ->
         writable_now pa = true /\ readable pb = true))
    /\ exists w',
      g_object_unref b w1 = Ok tt w'
      /\ weak_refs w' !!! A = [] /\ weak_refs w' !!! B = []
      /\ bindings w' !! b = None
      /\ objects w' = objects w1
      /\ trace w' = trace w1 ++ released destroy ud ++ [EvFinalize b]
      /\ qdata w' !! A = Some (S b) /\ g_list_cells w' !! S b = None
      /\ qdata w' !! B = Some (S (S b)) /\ g_list_cells w' !! S (S b) = None
      /\ objects w' !! A = Some so /\ objects w' !! B = Some to.
Proof.
  destruct fresh_bind_facts
    as (so & to & pa & pb & Hso & Hto & Hpa & Hpb & Hne & Hra & Hwb & Hbi & -> & ->).
  exists so, to, pa, pb. split; [repeat split; assumption || now apply Hbi|].
  clear Hpa Hpb Hne Hra Hwb Hbi Hrun.
  destruct w0 as [objs bnds hs wr qd cells na hseq tr]. simpl in *.
  unfold fresh_registry, bound_world, bound_binding, bound_handlers,
    bound_weak_refs, released.
  world_norm.
  destruct (bidirectional fl) eqn:Eb, destroy as [n|];
    (eexists; split;
     [ unbind_run Hso Hto; reflexivity
     | unbind_run Hso Hto; repeat split; solve [reflexivity | assumption] ]).
Qed.

(** X17: after the release the destruction of either endpoint does not
    reach the binding again: nothing is logged (the user data is not
    released a second time), and the other endpoint keeps its handlers. *)
Theorem destruction_after_unbind_is_silent :
  exists w',
    g_object_unref b w1 = Ok tt w'
    /\ (exists w'', g_object_destroy A w' = Ok tt w''
                    /\ trace w'' = trace w' /\ bindings w'' = bindings w'
                    /\ handlers w'' !!! B = handlers w' !!! B)
    /\ (exists w'', g_object_destroy B w' = Ok tt w''
                    /\ trace w'' = trace w' /\ bindings w'' = bindings w'
                    /\ handlers w'' !!! A = handlers w' !!! A).
Proof.
  destruct unbind_world as (so & to & pa & pb & _
    & w' & Hu & F3 & F4 & _ & _ & _ & _ & _ & _ & _ & Hso & Hto).
  exists w'. split; [exact Hu|]. split.
  - rewrite (destroy_without_hooks A so w' Hso F3). eexists. split; [reflexivity|].
    repeat split. simpl. now rewrite lookup_total_delete_ne by congruence.
  - rewrite (destroy_without_hooks B to w' Hto F4). eexists. split; [reflexivity|].
    repeat split. simpl. now rewrite lookup_total_delete_ne by congruence.
Qed.

(** X18: release, then the same binding request again.  The registry
    pointer of the source still holds the address of the cell that
    [remove_binding_qdata] freed, and [add_binding_qdata] hands it to
    [g_list_prepend], which dereferences it: undefined behaviour. *)
Theorem rebind_after_unbind_reads_freed_cell :
  exists w',
    g_object_unref b w1 = Ok tt w'
    /\ g_object_bind_property_full (Some A) x (Some B) y fl tto tfrom ud destroy w'
       = Crash.
Proof.
  destruct unbind_world as (so & to & pa & pb & (Hpa & Hpb & Hne & Hra & Hwb & Hbi)
    & w' & Hu & _ & _ & _ & _ & _ & Hq & Hc & _ & _ & Hso & Hto).
  exists w'. split; [exact Hu|].
  now apply (bind_reads_source_entry w' A x B y fl tto tfrom ud destroy so to pa pb (S b)).
Qed.


Lemma survivor_after_source :
  exists to w',
    g_object_destroy A w1 = Ok tt w'
    /\ trace w' = trace w1 ++ released destroy ud ++ [EvFinalize b]
    /\ objects w' !! B = Some to /\ weak_refs w' !!! B = [].
Proof.
  destruct fresh_bind_facts
    as (so & to & pa & pb & Hso & Hto & _ & _ & _ & _ & _ & _ & -> & ->).
  exists to. clear Hrun.
  destruct w0 as [objs bnds hs wr qd cells na hseq tr]. simpl in *.
  unfold fresh_registry, bound_world, bound_binding, bound_handlers,
    bound_weak_refs, released, g_object_destroy.
  world_norm.
  destruct (bidirectional fl) eqn:Eb, destroy as [n|];
    (eexists; split;
     [ unbind_run Hso Hto; reflexivity
     | unbind_run Hso Hto; repeat split; solve [reflexivity | assumption] ]).
Qed.

Lemma survivor_after_target :
  exists so w',
    g_object_destroy B w1 = Ok tt w'
    /\ trace w' = trace w1 ++ released destroy ud ++ [EvFinalize b]
    /\ objects w' !! A = Some so /\ weak_refs w' !!! A = [].
Proof.
  destruct fresh_bind_facts
    as (so & to & pa & pb & Hso & Hto & _ & _ & _ & _ & _ & _ & -> & ->).
  exists so. clear Hrun.
  destruct w0 as [objs bnds hs wr qd cells na hseq tr]. simpl in *.
  unfold fresh_registry, bound_world, bound_binding, bound_handlers,
    bound_weak_refs, released, g_object_destroy.
  world_norm.
  destruct (bidirectional fl) eqn:Eb, destroy as [n|];
    (eexists; split;
     [ unbind_run Hso Hto; reflexivity
     | unbind_run Hso Hto; repeat split; solve [reflexivity | assumption] ]).
Qed.

(** X19: both endpoints are destroyed, in either order.  The first
    destruction tears the binding down; the second one finds no destruction
    hook of the binding and logs nothing: the user data is released once and
    the binding finalized once. *)
Theorem both_endpoints_destroyed_release_once :
  (exists w' w'',
     g_object_destroy A w1 = Ok tt w' /\ g_object_destroy B w' = Ok tt w''
     /\ trace w'' = trace w1 ++ released destroy ud ++ [EvFinalize b])
  /\ (exists w' w'',
     g_object_destroy B w1 = Ok tt w' /\ g_object_destroy A w' = Ok tt w''
     /\ trace w'' = trace w1 ++ released destroy ud ++ [EvFinalize b]).
Proof.
  split.
  - destruct survivor_after_source as (to & w' & Hd & Htr & Hto & Hw).
    exists w'. eexists. split; [exact Hd|].
    rewrite (destroy_without_hooks B to w' Hto Hw). split; [reflexivity|exact Htr].
  - destruct survivor_after_target as (so & w' & Hd & Htr & Hso & Hw).
    exists w'. eexists. split; [exact Hd|].
    rewrite (destroy_without_hooks A so w' Hso Hw). split; [reflexivity|exact Htr].
Qed.

(** The ids of the two handlers fit the [guint] fields that keep them. *)
Hypothesis Hid : Z.pos (Pos.succ (handler_seq w0)) < 2 ^ 32.

(** With such ids [g_binding_finalize] finds the two handlers. *)
Lemma unbind_handlers :
  exists w',
    g_object_unref b w1 = Ok tt w'
    /\ handlers w' !!! A = [] /\ handlers w' !!! B = [].
Proof.
  destruct fresh_bind_facts
    as (so & to & pa & pb & Hso & Hto & _ & _ & _ & _ & _ & _ & -> & ->).
  destruct (guint_handler_ids _ Hid) as [Es Et].
  clear Hrun.
  destruct w0 as [objs bnds hs wr qd cells na hseq tr]. simpl in *.
  unfold fresh_registry, bound_world, bound_binding, bound_handlers,
    bound_weak_refs, released.
  world_norm. rewrite Es, ?Et.
  destruct (bidirectional fl) eqn:Eb, destroy as [n|];
    (eexists; split;
     [ unbind_run Hso Hto; reflexivity
     | unbind_run Hso Hto; repeat split; solve [reflexivity | assumption] ]).
Qed.

(** X15: the creator releases the binding ([g_object_unref] on the last
    reference), the handler ids fitting the fields of the binding.
    [g_binding_finalize] disconnects the handlers from both endpoints and
    takes the destruction hooks back, the user data is released once, right
    before the binding is finalized, and the endpoints themselves are
    untouched. *)
Theorem unbind_detaches_both_endpoints :
  exists w',
    g_object_unref b w1 = Ok tt w'
    /\ handlers w' !!! A = [] /\ handlers w' !!! B = []
    /\ weak_refs w' !!! A = [] /\ weak_refs w' !!! B = []
    /\ bindings w' !! b = None
    /\ objects w' = objects w1
    /\ trace w' = trace w1 ++ released destroy ud ++ [EvFinalize b].
Proof.
  destruct unbind_world
    as (so & to & pa & pb & _ & w' & Hu & F3 & F4 & F5 & F6 & F7 & _).
  destruct unbind_handlers as (w'' & Hu' & F1 & F2).
  rewrite Hu in Hu'. injection Hu' as <-.
  exists w'. repeat split; assumption.
Qed.

(** X16: after the release, the handler ids fitting the fields of the
    binding, nothing is propagated any more: a write to either formerly
    bound property stores the value, if the property is writable, and leaves
    the other endpoint as it is. *)
Theorem write_after_unbind_is_not_propagated :
  exists w',
    g_object_unref b w1 = Ok tt w'
    /\ (forall k v, exists w'',
          g_object_set_property (S k) (Some A) x v w' = Ok tt w''
          /\ (w'' = w' \/ w'' = poke A x v w')
          /\ peek w'' B y = peek w' B y)
    /\ (forall k v, exists w'',
          g_object_set_property (S k) (Some B) y v w' = Ok tt w''
          /\ (w'' = w' \/ w'' = poke B y v w')
          /\ peek w'' A x = peek w' A x).
Proof.
  destruct unbind_world as (so & to & pa & pb & (Hpa & Hpb & _)
    & w' & Hu & _ & _ & _ & _ & _ & _ & _ & _ & _ & Hso & Hto).
  destruct unbind_handlers as (w'' & Hu' & F1 & F2).
  rewrite Hu in Hu'. injection Hu' as <-.
  exists w'. split; [exact Hu|]. split; intros k v.
  - destruct (writable_now pa) eqn:Hw.
    + exists (poke A x v w'). rewrite (set_property_step k A x v w' pa so Hso Hpa Hw).
      split; [|split; [now right|]].
      * apply emit_notify_quiet. rewrite poke_handlers, F1. constructor.
      * apply peek_poke_other. intros E. now contradiction HAB.
    + exists w'. rewrite (set_property_not_writable k A x v w' pa so Hso Hpa Hw).
      split; [reflexivity|]. split; [now left|reflexivity].
  - destruct (writable_now pb) eqn:Hw.
    + exists (poke B y v w'). rewrite (set_property_step k B y v w' pb to Hto Hpb Hw).
      split; [|split; [now right|]].
      * apply emit_notify_quiet. rewrite poke_handlers, F2. constructor.
      * apply peek_poke_other. intros E. symmetry in E. now contradiction HAB.
    + exists w'. rewrite (set_property_not_writable k B y v w' pb to Hto Hpb Hw).
      split; [reflexivity|]. split; [now left|reflexivity].
Qed.

End Unbind.

(** ** A binding of an object to itself *)

Section SelfBinding.
Context `{GTypeSystem}.

Variables (w0 w1 : World) (A : nat) (x y : string) (fl : Z).
Variables (tto tfrom : option GBindingTransformFunc) (ud : gpointer).
Variables (destroy : option nat) (b : nat).
Hypothesis Hrun :
  g_object_bind_property_full (Some A) x (Some A) y fl tto tfrom ud destroy w0
  = Ok (inr b) w1.
Hypothesis HwA : weak_refs w0 !!! A = [].

Lemma self_binding_world :
  exists so pa pb q c n,
    objects w0 !! A = Some so
    /\ b = next_addr w0
    /\ w1 = with_registry q c n
              (bound_world w0 A A (bound_binding w0 A A pa pb x y fl tto tfrom ud destroy) fl).
Proof.
  destruct (bind_success_preconditions _ _ _ _ _ _ _ _ _ _ _ _ Hrun)
    as (so & to & pa & pb & Hso & Hto & Hpa & Hpb & Hne & Hra & Hwb & Hbi).
  pose proof (bind_run w0 A x A y fl tto tfrom ud destroy so to pa pb
                Hso Hto Hpa Hpb Hne Hra Hwb Hbi) as Hspec.
  rewrite Hrun in Hspec. destruct Hspec as (Hb & (q & c & n & Hw) & _).
  injection Hb as Hb. exists so, pa, pb, q, c, n. auto.
Qed.

(** X26: a binding between two properties of one object, and the
    destruction of that object.  [g_binding_constructed] has registered
    [weak_unbind] twice on the object, so the destruction runs it twice.
    With the one reference a new binding has, the first run frees the
    binding and the second run dereferences it: undefined behaviour.  With
    one more reference held by the caller both references are dropped: the
    user data is released once and the binding is finalized and freed under
    the caller. *)
Theorem self_binding_destruction_reads_freed_binding :
  g_object_destroy A w1 = Crash
  /\ exists w',
       (g_object_ref b ;> g_object_destroy A) w1 = Ok tt w'
       /\ bindings w' !! b = None
       /\ trace w' = trace w1 ++ released destroy ud ++ [EvFinalize b].
Proof.
  destruct self_binding_world as (so & pa & pb & q & c & n & Hso & -> & ->).
  clear Hrun.
  destruct w0 as [objs bnds hs wr qd cells na hseq tr]. simpl in *.
  unfold bound_world, bound_binding, bound_handlers,
    bound_weak_refs, released, g_object_destroy.
  world_norm.
  split.
  - destruct (bidirectional fl) eqn:Eb, destroy as [d|];
      repeat first [ rewrite Hso | rewrite HwA | rewrite <- app_assoc | teardown_step ];
      reflexivity.
  - destruct (bidirectional fl) eqn:Eb, destroy as [d|];
      (eexists; split;
       [ repeat first [ rewrite Hso | rewrite HwA | rewrite <- app_assoc | teardown_step ];
         reflexivity
       | repeat first [ rewrite Hso | rewrite HwA | rewrite <- app_assoc | teardown_step ];
         repeat split; reflexivity ]).
Qed.

End SelfBinding.

(** ** The authorization decision: further handlers *)

Module AuthObserverHandlers.
Import AuthObserver.

(** X21: a further handler can only turn an allow into a deny.  Connected
    before or after the class handler, its answer is and-ed to the decision
    made without it. *)
Theorem further_handler_can_only_deny
    (observer : GDBusAuthObserver) (h : Handler)
    (stream : GIOStream) (credentials : GCredentials) :
  g_dbus_auth_observer_authorize_authenticated_peer
    (mkObserver (connected observer ++ [h]) (connected_after observer)) stream credentials
  = g_dbus_auth_observer_authorize_authenticated_peer observer stream credentials
    && h stream credentials
  /\ g_dbus_auth_observer_authorize_authenticated_peer
       (mkObserver (connected observer) (connected_after observer ++ [h])) stream credentials
     = g_dbus_auth_observer_authorize_authenticated_peer observer stream credentials
       && h stream credentials.
Proof.
  rewrite !AuthObserverFacts.authorize_is_conjunction. simpl.
  rewrite !forallb_app. simpl.
  destruct (forallb _ (connected observer)), (forallb _ (connected_after observer)),
    (h stream credentials); auto.
Qed.

End AuthObserverHandlers.

(** ** The further properties at work on the three endpoints *)

Section MoreWitnesses.
Existing Instance Sample.types.
Import Sample.

Lemma bind_both_ways_run :
  g_object_bind_property_full (Some 1%nat) "x" (Some 2%nat) "y" G_BINDING_BIDIRECTIONAL
    None None 0 None world3 = Ok (inr 4%nat) bound_both_ways.
Proof. vm_compute. reflexivity. Defined.

Lemma bind_with_data_run :
  g_object_bind_property_full (Some 1%nat) "x" (Some 2%nat) "y" G_BINDING_BIDIRECTIONAL
    None None 42 (Some 9%nat) world3 = Ok (inr 4%nat) bound_with_data.
Proof. vm_compute. reflexivity. Defined.

Lemma bind_connects_and_writes_nothing_witness :
  4%nat = next_addr world3
  /\ objects bound_both_ways = objects world3
  /\ trace bound_both_ways = trace world3
  /\ handlers bound_both_ways = bound_handlers world3 1 2 G_BINDING_BIDIRECTIONAL
  /\ weak_refs bound_both_ways = bound_weak_refs world3 1 2.
Proof.
  destruct (bind_connects_and_writes_nothing world3 1 "x" 2 "y" G_BINDING_BIDIRECTIONAL
              None None 0 None 4 bound_both_ways)
    as (H1 & H2 & H3 & H4 & H5 & _); [vm_compute; reflexivity|].
  repeat split; assumption.
Defined.

Lemma first_binding_creates_entry_witness :
  exists w',
    add_binding_qdata 1 4 world3 = Ok tt w'
    /\ registry_entry w' 1 = Some [4%nat]
    /\ forall o', o' <> 1%nat -> qdata w' !! o' = qdata world3 !! o'.
Proof.
  apply (first_binding_creates_entry 1 4 world3).
  - exists fresh. vm_compute. reflexivity.
  - vm_compute. reflexivity.
Defined.

Lemma later_binding_is_not_registered_witness :
  exists w',
    add_binding_qdata 1 8 bound_both_ways = Ok tt w'
    /\ qdata w' = qdata bound_both_ways
    /\ registry_entry w' 1 = Some [4%nat].
Proof.
  apply (later_binding_is_not_registered 1 8 bound_both_ways 5 (mkGList 4 None None)).
  - exists fresh. vm_compute. reflexivity.
  - vm_compute. reflexivity.
  - vm_compute. reflexivity.
  - reflexivity.
  - vm_compute. reflexivity.
  - vm_compute. reflexivity.
Defined.

Lemma removal_leaves_pointer_to_freed_cell_witness :
  exists w',
    remove_binding_qdata (Some 1%nat) 4 bound_both_ways = Ok tt w'
    /\ qdata w' !! 1%nat = Some 5%nat
    /\ g_list_cells w' !! 5%nat = None
    /\ registry_entry w' 1 = None.
Proof.
  apply (removal_leaves_pointer_to_freed_cell 1 4 bound_both_ways 5 (mkGList 4 None None)).
  - exists fresh. vm_compute. reflexivity.
  - vm_compute. reflexivity.
  - vm_compute. reflexivity.
  - reflexivity.
  - simpl. intros q [E|E]; discriminate.
Defined.

Lemma property_write_changes_values_only_witness :
  written_only bound_both_ways
    (world_after (g_object_set_property 2 (Some 1%nat) "x" (int_value 5)) bound_both_ways).
Proof.
  apply (property_write_changes_values_only 2 (Some 1%nat) "x" (int_value 5)
           bound_both_ways).
  vm_compute. reflexivity.
Defined.

Lemma other_properties_are_not_propagated_witness :
  g_object_set_property 1 (Some 1%nat) "z" (int_value 5) bound_both_ways
  = Ok tt (poke 1 "z" (int_value 5) bound_both_ways).
Proof.
  apply (other_properties_are_not_propagated world3 bound_both_ways 1 2 4 "x" "y"
           G_BINDING_BIDIRECTIONAL None None 0 None bind_both_ways_run eq_refl eq_refl
           bound_both_ways (written_none _ _ _ _ _) 1 0 "z"
           (mkGParamSpec "z" G_PARAM_READWRITE G_TYPE_INT) (int_value 5) fresh).
  - now left.
  - vm_compute. reflexivity.
  - reflexivity.
  - reflexivity.
  - intros _. discriminate.
  - intros E. discriminate.
Defined.

Lemma source_write_reaches_target_without_echo_witness :
  exists w2,
    g_object_set_property 2 (Some 1%nat) "x" (int_value 5) bound_both_ways = Ok tt w2
    /\ peek w2 1 "x" = Some (int_value 5)
    /\ peek w2 2 "y" = Some (int_value 5).
Proof.
  destruct (source_write_reaches_target_without_echo world3 bound_both_ways 1 2 4 "x" "y"
              G_BINDING_BIDIRECTIONAL None None 0 None fresh fresh px py
              bind_both_ways_run eq_refl eq_refl eq_refl eq_refl eq_refl eq_refl
              bound_both_ways eq_refl (written_none _ _ _ _ _) 0%nat (int_value 5))
    as (w2 & Hrun & Hx & Hok & _).
  exists w2. split; [exact Hrun|]. split; [exact Hx|].
  exact (proj1 (Hok (int_value 5) eq_refl)).
Defined.

Lemma bidirectional_binding_carries_target_writes_back_witness :
  exists w2,
    g_object_set_property 2 (Some 2%nat) "y" (int_value 9) bound_both_ways = Ok tt w2
    /\ peek w2 2 "y" = Some (int_value 9)
    /\ peek w2 1 "x" = Some (int_value 9).
Proof.
  destruct (bidirectional_binding_carries_target_writes_back world3 bound_both_ways
              1 2 4 "x" "y" G_BINDING_BIDIRECTIONAL None None 0 None fresh fresh px py
              bind_both_ways_run eq_refl eq_refl eq_refl eq_refl eq_refl eq_refl
              bound_both_ways eq_refl (written_none _ _ _ _ _) 0%nat (int_value 9))
    as (w2 & Hrun & Hy & Hok & _).
  exists w2. split; [exact Hrun|]. split; [exact Hy|].
  exact (proj1 (Hok (int_value 9) eq_refl)).
Defined.

Lemma one_differs_from_two : 1%nat <> 2%nat.
Proof. lia. Defined.

Lemma world3_ids_fit : Z.pos (Pos.succ (handler_seq world3)) < 2 ^ 32.
Proof. vm_compute. reflexivity. Defined.

Lemma teardown_source_first_witness :
  exists w',
    g_object_destroy 1 bound_with_data = Ok tt w'
    /\ handlers w' !!! 2%nat = []
    /\ weak_refs w' !!! 2%nat = []
    /\ bindings w' !! 4%nat = None
    /\ trace w' = trace bound_with_data ++ released (Some 9%nat) 42 ++ [EvFinalize 4]
    /\ qdata w' !! 2%nat = Some 6%nat
    /\ g_list_cells w' !! 6%nat = None.
Proof.
  exact (teardown_source_first world3 bound_with_data 1 2 "x" "y" G_BINDING_BIDIRECTIONAL
           None None 42 (Some 9%nat) 4 bind_with_data_run one_differs_from_two
           eq_refl eq_refl eq_refl eq_refl eq_refl eq_refl world3_ids_fit).
Defined.

Lemma teardown_target_first_witness :
  exists w',
    g_object_destroy 2 bound_with_data = Ok tt w'
    /\ handlers w' !!! 1%nat = []
    /\ weak_refs w' !!! 1%nat = []
    /\ bindings w' !! 4%nat = None
    /\ trace w' = trace bound_with_data ++ released (Some 9%nat) 42 ++ [EvFinalize 4]
    /\ qdata w' !! 1%nat = Some 5%nat
    /\ g_list_cells w' !! 5%nat = None.
Proof.
  exact (teardown_target_first world3 bound_with_data 1 2 "x" "y" G_BINDING_BIDIRECTIONAL
           None None 42 (Some 9%nat) 4 bind_with_data_run one_differs_from_two
           eq_refl eq_refl eq_refl eq_refl eq_refl eq_refl world3_ids_fit).
Defined.

Lemma held_link_survives_source_witness :
  exists w',
    (g_object_ref 4 ;> g_object_destroy 1) bound_with_data = Ok tt w'
    /\ g_binding_get_source 4 w' = Ok None w'
    /\ g_binding_get_target 4 w' = Ok None w'
    /\ g_binding_get_source_property 4 w' = Ok "x" w'
    /\ g_binding_get_target_property 4 w' = Ok "y" w'
    /\ g_binding_get_flags 4 w' = Ok G_BINDING_BIDIRECTIONAL w'
    /\ trace w' = trace bound_with_data.
Proof.
  exact (held_link_survives_source world3 bound_with_data 1 2 "x" "y"
           G_BINDING_BIDIRECTIONAL
           None None 42 (Some 9%nat) 4 bind_with_data_run one_differs_from_two
           eq_refl eq_refl eq_refl eq_refl eq_refl eq_refl).
Defined.

Lemma held_link_survives_target_witness :
  exists w',
    (g_object_ref 4 ;> g_object_destroy 2) bound_with_data = Ok tt w'
    /\ g_binding_get_source 4 w' = Ok None w'
    /\ g_binding_get_target 4 w' = Ok None w'
    /\ g_binding_get_source_property 4 w' = Ok "x" w'
    /\ g_binding_get_target_property 4 w' = Ok "y" w'
    /\ g_binding_get_flags 4 w' = Ok G_BINDING_BIDIRECTIONAL w'
    /\ trace w' = trace bound_with_data.
Proof.
  exact (held_link_survives_target world3 bound_with_data 1 2 "x" "y"
           G_BINDING_BIDIRECTIONAL
           None None 42 (Some 9%nat) 4 bind_with_data_run one_differs_from_two
           eq_refl eq_refl eq_refl eq_refl eq_refl eq_refl).
Defined.

Lemma unbind_detaches_both_endpoints_witness :
  exists w',
    g_object_unref 4 bound_with_data = Ok tt w'
    /\ handlers w' !!! 1%nat = [] /\ handlers w' !!! 2%nat = []
    /\ weak_refs w' !!! 1%nat = [] /\ weak_refs w' !!! 2%nat = []
    /\ bindings w' !! 4%nat = None
    /\ objects w' = objects bound_with_data
    /\ trace w' = trace bound_with_data ++ released (Some 9%nat) 42 ++ [EvFinalize 4].
Proof.
  exact (unbind_detaches_both_endpoints world3 bound_with_data 1 2 "x" "y"
           G_BINDING_BIDIRECTIONAL
           None None 42 (Some 9%nat) 4 bind_with_data_run one_differs_from_two
           eq_refl eq_refl eq_refl eq_refl eq_refl eq_refl world3_ids_fit).
Defined.

Lemma write_after_unbind_is_not_propagated_witness :
  exists w',
    g_object_unref 4 bound_with_data = Ok tt w'
    /\ exists w'',
         g_object_set_property 1 (Some 1%nat) "x" (int_value 5) w' = Ok tt w''
         /\ (w'' = w' \/ w'' = poke 1 "x" (int_value 5) w')
         /\ peek w'' 2 "y" = peek w' 2 "y".
Proof.
  destruct (write_after_unbind_is_not_propagated world3 bound_with_data 1 2 "x" "y"
              G_BINDING_BIDIRECTIONAL
              None None 42 (Some 9%nat) 4 bind_with_data_run one_differs_from_two
              eq_refl eq_refl eq_refl eq_refl eq_refl eq_refl world3_ids_fit)
    as (w' & Hu & Hfwd & _).
  exists w'. split; [exact Hu|]. exact (Hfwd 0%nat (int_value 5)).
Defined.

Lemma destruction_after_unbind_is_silent_witness :
  exists w',
    g_object_unref 4 bound_with_data = Ok tt w'
    /\ exists w'', g_object_destroy 1 w' = Ok tt w''
                   /\ trace w'' = trace w' /\ bindings w'' = bindings w'
                   /\ handlers w'' !!! 2%nat = handlers w' !!! 2%nat.
Proof.
  destruct (destruction_after_unbind_is_silent world3 bound_with_data 1 2 "x" "y"
              G_BINDING_BIDIRECTIONAL
              None None 42 (Some 9%nat) 4 bind_with_data_run one_differs_from_two
              eq_refl eq_refl eq_refl eq_refl eq_refl eq_refl)
    as (w' & Hu & HA & _).
  exists w'. split; [exact Hu|exact HA].
Defined.

Lemma rebind_after_unbind_reads_freed_cell_witness :
  exists w',
    g_object_unref 4 bound_with_data = Ok tt w'
    /\ g_object_bind_property_full (Some 1%nat) "x" (Some 2%nat) "y"
         G_BINDING_BIDIRECTIONAL None None 42 (Some 9%nat) w' = Crash.
Proof.
  exact (rebind_after_unbind_reads_freed_cell world3 bound_with_data 1 2 "x" "y"
           G_BINDING_BIDIRECTIONAL
           None None 42 (Some 9%nat) 4 bind_with_data_run one_differs_from_two
           eq_refl eq_refl eq_refl eq_refl eq_refl eq_refl).
Defined.

Lemma both_endpoints_destroyed_release_once_witness :
  exists w' w'',
    g_object_destroy 1 bound_with_data = Ok tt w' /\ g_object_destroy 2 w' = Ok tt w''
    /\ trace w'' = trace bound_with_data ++ released (Some 9%nat) 42 ++ [EvFinalize 4].
Proof.
  exact (proj1 (both_endpoints_destroyed_release_once world3 bound_with_data 1 2 "x" "y"
           G_BINDING_BIDIRECTIONAL
           None None 42 (Some 9%nat) 4 bind_with_data_run one_differs_from_two
           eq_refl eq_refl eq_refl eq_refl eq_refl eq_refl)).
Defined.

Lemma binding_properties_are_construct_only_witness :
  (exists e, g_object_bind_property_full (Some 1%nat) "x" (Some 9%nat) "flags"
               G_BINDING_DEFAULT None None 0 None world_with_binding_instance
             = Ok (inl e) world_with_binding_instance)
  /\ g_object_set_property 1 (Some 9%nat) "flags" (int_value 1) world_with_binding_instance
     = Ok tt world_with_binding_instance.
Proof.
  destruct (binding_properties_are_construct_only 0 world_with_binding_instance
              1 "x" 9 "flags" G_BINDING_DEFAULT None None 0 None
              (mkGObject (g_binding_class 0) ∅) eq_refl)
    as (_ & Htgt & _ & Hset).
  split.
  - apply Htgt. vm_compute. reflexivity.
  - apply (Hset 0%nat 9%nat). vm_compute. reflexivity.
Defined.

Lemma bind_plus_one_run :
  g_object_bind_property_full (Some 1%nat) "x" (Some 2%nat) "y" G_BINDING_DEFAULT
    (Some plus_one) None 0 None world3 = Ok (inr 4%nat) bound_plus_one.
Proof. vm_compute. reflexivity. Defined.

Lemma three_differs_from_two : 3%nat <> 2%nat.
Proof. lia. Defined.

Lemma three_differs_from_one : 3%nat <> 1%nat.
Proof. lia. Defined.

Lemma bind_chained_run :
  g_object_bind_property_full (Some 2%nat) "y" (Some 3%nat) "z" G_BINDING_DEFAULT
    (Some plus_one) None 0 None bound_plus_one = Ok (inr 7%nat) chained_plus_one.
Proof. vm_compute. reflexivity. Defined.

Lemma bind_cycle_run :
  g_object_bind_property_full (Some 2%nat) "y" (Some 1%nat) "x" G_BINDING_DEFAULT
    (Some plus_one) None 0 None bound_plus_one = Ok (inr 7%nat) cycle_plus_one.
Proof. vm_compute. reflexivity. Defined.

Lemma bind_fan_out_run :
  g_object_bind_property_full (Some 1%nat) "x" (Some 3%nat) "z" G_BINDING_DEFAULT
    (Some plus_one) None 0 None bound_plus_one = Ok (inr 7%nat) fan_out_plus_one.
Proof. vm_compute. reflexivity. Defined.

Lemma chained_bindings_propagate_through_witness :
  exists w3,
    g_object_set_property 3 (Some 1%nat) "x" (int_value 5) chained_plus_one = Ok tt w3
    /\ peek w3 1 "x" = Some (int_value 5)
    /\ peek w3 2 "y" = Some (int_value 6)
    /\ peek w3 3 "z" = Some (int_value 7)
    /\ bindings w3 = bindings chained_plus_one
    /\ trace w3 = trace chained_plus_one
                  ++ [EvSetProperty 1 "x" (int_value 5); EvSetProperty 2 "y" (int_value 6);
                      EvSetProperty 3 "z" (int_value 7)].
Proof.
  assert (Hne : 3%nat = 1%nat -> "z" <> "x") by (intros E; discriminate).
  exact (chained_bindings_propagate_through world3 bound_plus_one chained_plus_one
           1 2 3 4 7 "x" "y" "z" G_BINDING_DEFAULT G_BINDING_DEFAULT
           (Some plus_one) None (Some plus_one) None 0 0 None None
           fresh fresh fresh px py (mkGParamSpec "z" G_PARAM_READWRITE G_TYPE_INT)
           bind_plus_one_run bind_chained_run eq_refl eq_refl
           one_differs_from_two three_differs_from_two
           eq_refl eq_refl eq_refl eq_refl eq_refl eq_refl eq_refl eq_refl
           eq_refl eq_refl eq_refl eq_refl
           0%nat (int_value 5) (int_value 6) (int_value 7) Hne eq_refl eq_refl).
Defined.

Lemma cycle_of_bindings_never_settles_witness :
  g_object_set_property 1000 (Some 1%nat) "x" (int_value 5) cycle_plus_one = OutOfFuel.
Proof.
  exact (cycle_of_bindings_never_settles world3 bound_plus_one cycle_plus_one
           1 2 1 4 7 "x" "y" "x" G_BINDING_DEFAULT G_BINDING_DEFAULT
           (Some plus_one) None (Some plus_one) None 0 0 None None
           fresh fresh fresh px py px
           bind_plus_one_run bind_cycle_run eq_refl eq_refl
           one_differs_from_two one_differs_from_two
           eq_refl eq_refl eq_refl eq_refl eq_refl eq_refl eq_refl eq_refl
           eq_refl eq_refl eq_refl eq_refl
           1000%nat (int_value 5) eq_refl eq_refl
           (fun u => eq_refl) (fun u => eq_refl)).
Defined.

Lemma fan_out_reaches_both_targets_witness :
  exists w3,
    g_object_set_property 2 (Some 1%nat) "x" (int_value 5) fan_out_plus_one = Ok tt w3
    /\ peek w3 1 "x" = Some (int_value 5)
    /\ peek w3 2 "y" = Some (int_value 6)
    /\ peek w3 3 "z" = Some (int_value 6)
    /\ bindings w3 = bindings fan_out_plus_one
    /\ trace w3 = trace fan_out_plus_one
                  ++ [EvSetProperty 1 "x" (int_value 5); EvSetProperty 2 "y" (int_value 6);
                      EvSetProperty 3 "z" (int_value 6)].
Proof.
  assert (Hne : 3%nat = 2%nat -> "z" <> "y") by (intros E; discriminate).
  exact (fan_out_reaches_both_targets world3 bound_plus_one fan_out_plus_one
           1 2 3 4 7 "x" "y" "z" G_BINDING_DEFAULT G_BINDING_DEFAULT
           (Some plus_one) None (Some plus_one) None 0 0 None None
           fresh fresh fresh px py (mkGParamSpec "z" G_PARAM_READWRITE G_TYPE_INT)
           bind_plus_one_run bind_fan_out_run eq_refl eq_refl
           one_differs_from_two three_differs_from_one
           eq_refl eq_refl eq_refl eq_refl eq_refl eq_refl eq_refl eq_refl
           eq_refl eq_refl eq_refl eq_refl
           0%nat (int_value 5) (int_value 6) (int_value 6) Hne eq_refl eq_refl).
Defined.


Lemma registry_stays_well_formed_witness :
  registry_wf bound_both_ways
  /\ registry_wf
       (world_after (g_object_set_property 2 (Some 1%nat) "x" (int_value 5)) world3).
Proof.
  assert (Hwf : registry_wf world3) by (apply registry_wf_empty; reflexivity).
  destruct (registry_stays_well_formed world3 Hwf) as [Hbind Hset].
  split.
  - apply (Hbind 1%nat "x" 2%nat "y" G_BINDING_BIDIRECTIONAL None None 0 None 4%nat).
    vm_compute. reflexivity.
  - apply (Hset 2%nat (Some 1%nat) "x" (int_value 5)). vm_compute. reflexivity.
Defined.

Lemma self_binding_destruction_reads_freed_binding_witness :
  g_object_destroy 1
    (world_after (g_object_bind_property (Some 1%nat) "x" (Some 1%nat) "y" G_BINDING_DEFAULT)
       world3) = Crash.
Proof.
  refine (proj1 (self_binding_destruction_reads_freed_binding world3 _ 1 "x" "y"
                   G_BINDING_DEFAULT None None 0 None 4 _ eq_refl)).
  vm_compute. reflexivity.
Defined.

End MoreWitnesses.
